(** * Purchase settlement core of the dips-shop storefront

    A shallow embedding of the wallet ledger, the stock reservation, the
    purchase stored procedure ([complete_purchase], PL/pgSQL), the wallet
    routes of [server.js] and the top-up approval workflow, followed by the
    theorems that settle the specification's claims against that code.

    Conventions of the embedding.
    - Money is a [Z] counting hundredths of a baht: the columns are
      [DECIMAL(12, 2)], and the code only adds, subtracts, compares and
      multiplies by an integer quantity.  [baht n] is [n] baht.  Request
      fields that hold an amount or a quantity hold a number.
    - A table is a list of rows in insertion (commit) order; [wallets],
      whose [user_id] is [UNIQUE], is a finite map from user id to balance.
      Columns no code reads back ([created_at] and [updated_at] of wallets,
      orders, transactions and requests) are left out.
    - Clock readings ([NOW()], [Date.now()]) are inputs of the operation
      that reads them.  Text identifiers are built the way the code builds
      them, a prefix followed by the decimal clock reading.
    - Requests are served one after the other and every storage call
      answers; the only storage errors are the ones the schema declares
      ([UNIQUE] columns).  The catalog, the TrueMoney provider, caches,
      audit logs and notifications are collaborators: what they answer is
      an input, what they record is not part of the state. *)

From stdpp Require Import base strings list gmap pretty sorting.
From Stdlib Require Import ZArith Lia Ascii.

Local Open Scope Z_scope.

(** ** Tables *)

(** [n] baht, in hundredths. *)
Definition baht (n : Z) : Z := n * 100.

(** [product_stocks] *)
Record StockRow := mkStock {
  stock_id : nat;
  stock_product_id : string;
  stock_data : string;
  is_sold : bool;
  sold_to : option string;
  sold_at : option Z;
  stock_order_id : option string;
  created_at : Z
}.

(** [orders]; [delivery_items] and [delivered_at] are the [items] and
    [deliveredAt] of [delivery_data]. *)
Record OrderRow := mkOrder {
  order_id : string;
  order_user_id : string;
  order_product_id : string;
  order_product_name : string;
  order_quantity : Z;
  order_price : Z;
  order_total : Z;
  order_status : string;
  delivery_items : list string;
  delivered_at : option Z
}.

Inductive TxType := topup | purchase | refund.

(** The [details] JSON of a transaction, one shape per writer. *)
Inductive TxDetails :=
  | PurchaseDetails (productId productName orderId : string) (quantity : Z)
  | DeductDetails (productId productName : option string)
  | AdminTopupDetails (note : string) (adminId : string)
  | ApproveDetails (method requestId approvedBy note : string)
  | AngpaoDetails (transactionId voucherHash : string).

(** [transactions] *)
Record TransactionRow := mkTx {
  transaction_id : string;
  tx_user_id : string;
  tx_type : TxType;
  amount : Z;
  balance_after : Z;
  tx_details : TxDetails
}.

Inductive TopupStatus := pending | approved | rejected | cancelled.

(** [topup_requests] *)
Record TopupRequest := mkReq {
  request_id : string;
  req_user_id : string;
  req_amount : Z;
  req_method : string;
  slip_url : option string;
  req_status : TopupStatus;
  admin_note : option string;
  reviewed_by : option string;
  reviewed_at : option Z
}.

Record DB := mkDB {
  wallets : gmap string Z;
  product_stocks : list StockRow;
  orders : list OrderRow;
  transactions : list TransactionRow;
  topup_requests : list TopupRequest
}.

Definition empty_db : DB := mkDB ∅ [] [] [] [].

#[global] Instance TopupStatus_eq_dec : EqDecision TopupStatus.
Proof. solve_decision. Defined.

#[global] Instance TxType_eq_dec : EqDecision TxType.
Proof. solve_decision. Defined.

Definition set_wallets (f : gmap string Z → gmap string Z) (db : DB) : DB :=
  mkDB (f (wallets db)) (product_stocks db) (orders db) (transactions db)
       (topup_requests db).

Definition set_product_stocks (f : list StockRow → list StockRow) (db : DB) : DB :=
  mkDB (wallets db) (f (product_stocks db)) (orders db) (transactions db)
       (topup_requests db).

Definition set_orders (f : list OrderRow → list OrderRow) (db : DB) : DB :=
  mkDB (wallets db) (product_stocks db) (f (orders db)) (transactions db)
       (topup_requests db).

Definition set_transactions
    (f : list TransactionRow → list TransactionRow) (db : DB) : DB :=
  mkDB (wallets db) (product_stocks db) (orders db) (f (transactions db))
       (topup_requests db).

Definition set_topup_requests
    (f : list TopupRequest → list TopupRequest) (db : DB) : DB :=
  mkDB (wallets db) (product_stocks db) (orders db) (transactions db)
       (f (topup_requests db)).

(** ** Effects

    Both the PL/pgSQL function bodies and the JavaScript route handlers
    run on the database and either return or throw.  The database handed
    back is the one at the point of exit, with every write made so far. *)

Definition Eff (E A : Type) : Type := DB → (E + A) * DB.

Module Eff.
Section ops.
Context {E : Type}.

Definition ret {A} (a : A) : Eff E A := λ db, (inr a, db).

Definition bind {A B} (m : Eff E A) (k : A → Eff E B) : Eff E B :=
  λ db, match m db with
        | (inr a, db') => k a db'
        | (inl e, db') => (inl e, db')
        end.

Definition throw {A} (e : E) : Eff E A := λ db, (inl e, db).

Definition query {A} (q : DB → A) : Eff E A := λ db, (inr (q db), db).

Definition exec (f : DB → DB) : Eff E unit := λ db, (inr tt, f db).

(** [try { m } catch (e) { h e }]: the writes of [m] stay. *)
Definition try_catch {A} (m : Eff E A) (h : E → Eff E A) : Eff E A :=
  λ db, match m db with
        | (inr a, db') => (inr a, db')
        | (inl e, db') => h e db'
        end.
End ops.
End Eff.

#[global] Instance eff_ret E : MRet (Eff E) := @Eff.ret E.
#[global] Instance eff_bind E : MBind (Eff E) := λ A B k m, Eff.bind m k.

(** PL/pgSQL: [RAISE EXCEPTION] and the errors the schema can produce. *)
Module Plpgsql.

Inductive exn :=
  | WALLET_NOT_FOUND (user : string)
  | INSUFFICIENT_BALANCE (balance required : Z)
  | INSUFFICIENT_STOCK (available requested : Z)
  | unique_violation (constraint : string)
  | invalid_row_count_in_limit_clause.

Abbreviation M := (Eff exn).

Definition raise {A} (e : exn) : M A := Eff.throw e.

Definition when_raise (b : bool) (e : exn) : M unit :=
  if b then raise e else mret tt.

(** A function called through the API runs in a transaction of its own:
    committed when it returns, rolled back when it raises. *)
Definition rpc {A} (m : M A) (db : DB) : (exn + A) * DB :=
  match m db with
  | (inr a, db') => (inr a, db')
  | (inl e, _) => (inl e, db)
  end.

End Plpgsql.

(** ** The stock locking functions (PL/pgSQL) *)

(** ['ORD' || EXTRACT(EPOCH FROM NOW())::BIGINT::TEXT] in the function,
    [`ORD${Date.now()}`] in [server.js]; likewise for TXN and REQ. *)
Definition order_id_at (now : Z) : string := "ORD" +:+ pretty now.

Definition transaction_id_at (now : Z) : string := "TXN" +:+ pretty now.

Definition request_id_at (now : Z) : string := "REQ" +:+ pretty now.

(** [ORDER BY created_at ASC] *)
Definition older (a b : StockRow) : Prop := created_at a ≤ created_at b.

#[global] Instance older_dec : RelDecision older.
Proof. intros a b. unfold older. apply _. Defined.

Definition unsold_of (p_product_id : string) (s : StockRow) : Prop :=
  stock_product_id s = p_product_id ∧ is_sold s = false.

#[global] Instance unsold_of_dec p s : Decision (unsold_of p s).
Proof. unfold unsold_of. apply _. Defined.

(** [SELECT id, stock_data FROM product_stocks
     WHERE product_id = p_product_id AND is_sold = false
     ORDER BY created_at ASC] on a database nobody else holds locks on.
    SQL leaves the order of rows with equal [created_at] open; the sort
    used here is one admissible choice. *)
Definition unsold_oldest_first (p_product_id : string) (db : DB) : list StockRow :=
  merge_sort older (filter (unsold_of p_product_id) (product_stocks db)).

(** The same query with [LIMIT p_quantity FOR UPDATE SKIP LOCKED]. *)
Definition select_for_update (p_product_id : string) (p_quantity : Z)
    : Plpgsql.M (list StockRow) :=
  if decide (p_quantity < 0) then
    Plpgsql.raise Plpgsql.invalid_row_count_in_limit_clause
  else
    Eff.query (λ db, take (Z.to_nat p_quantity)
                          (unsold_oldest_first p_product_id db)).

(** [reserve_stock]: the loop counts the rows it returns. *)
Definition reserve_stock (p_product_id : string) (p_quantity : Z)
    (p_user_id : string) : Plpgsql.M (list (nat * string)) :=
  rows ← select_for_update p_product_id p_quantity;
  let v_count := Z.of_nat (length rows) in
  Plpgsql.when_raise (bool_decide (v_count < p_quantity))
    (Plpgsql.INSUFFICIENT_STOCK v_count p_quantity);;
  mret ((λ v_stock, (stock_id v_stock, stock_data v_stock)) <$> rows).

(** [array_length(a, 1)] is NULL for an empty array. *)
Definition array_length {A} (a : list A) : option Z :=
  match a with [] => None | _ => Some (Z.of_nat (length a)) end.

(** The JSON [complete_purchase] returns. *)
Record PurchaseResult := mkResult {
  res_orderId : string;
  res_transactionId : string;
  res_deliveryItems : list string;
  res_total : Z;
  res_newBalance : Z
}.

(** [SET is_sold = true, sold_to = ..., sold_at = ..., order_id = ...
     WHERE id = ANY(v_stock_ids)], on one row. *)
Definition mark_sold (v_stock_ids : list nat) (p_user_id : string) (now : Z)
    (v_order_id : string) (s : StockRow) : StockRow :=
  if decide (stock_id s ∈ v_stock_ids) then
    mkStock (stock_id s) (stock_product_id s) (stock_data s)
            true (Some p_user_id) (Some now) (Some v_order_id) (created_at s)
  else s.

(** [INSERT INTO orders]: [order_id] is [UNIQUE]. *)
Definition insert_order (o : OrderRow) : Plpgsql.M unit :=
  λ db, if decide (order_id o ∈ order_id <$> orders db)
        then Plpgsql.raise (Plpgsql.unique_violation "orders_order_id_key") db
        else Eff.exec (set_orders (λ l, l ++ [o])) db.

(** [INSERT INTO transactions]: [transaction_id] is [UNIQUE]. *)
Definition insert_transaction (t : TransactionRow) : Plpgsql.M unit :=
  λ db, if decide (transaction_id t ∈ transaction_id <$> transactions db)
        then Plpgsql.raise
               (Plpgsql.unique_violation "transactions_transaction_id_key") db
        else Eff.exec (set_transactions (λ l, l ++ [t])) db.

(** [complete_purchase]; [now] is [EXTRACT(EPOCH FROM NOW())::BIGINT]. *)
Definition complete_purchase (p_user_id p_product_id : string)
    (p_quantity p_price_per_unit : Z) (p_product_name : string) (now : Z)
    : Plpgsql.M PurchaseResult :=
  let v_total := p_price_per_unit * p_quantity in
  let v_order_id := order_id_at now in
  let v_transaction_id := transaction_id_at now in
  (* 1. balance, with the wallet row locked *)
  v_current_balance ← Eff.query (λ db, wallets db !! p_user_id);
  match v_current_balance with
  | None => Plpgsql.raise (Plpgsql.WALLET_NOT_FOUND p_user_id)
  | Some v_current_balance =>
    Plpgsql.when_raise (bool_decide (v_current_balance < v_total))
      (Plpgsql.INSUFFICIENT_BALANCE v_current_balance v_total);;
    (* 2. reserve stock *)
    rows ← select_for_update p_product_id p_quantity;
    let v_stock_ids := stock_id <$> rows in
    let v_stock_data := stock_data <$> rows in
    Plpgsql.when_raise
      (match array_length v_stock_ids with
       | None => true
       | Some n => bool_decide (n < p_quantity)
       end)
      (Plpgsql.INSUFFICIENT_STOCK
         (default 0 (array_length v_stock_ids)) p_quantity);;
    (* 3. debit *)
    let v_new_balance := v_current_balance - v_total in
    Eff.exec (set_wallets (alter (λ _, v_new_balance) p_user_id));;
    (* 4. mark stock as sold *)
    Eff.exec (set_product_stocks
      (fmap (mark_sold v_stock_ids p_user_id now v_order_id)));;
    (* 5. order *)
    insert_order (mkOrder v_order_id p_user_id p_product_id p_product_name
                    p_quantity p_price_per_unit v_total "completed"
                    v_stock_data (Some now));;
    (* 6. transaction *)
    insert_transaction (mkTx v_transaction_id p_user_id purchase (- v_total)
                          v_new_balance
                          (PurchaseDetails p_product_id p_product_name
                             v_order_id p_quantity));;
    (* 7. result *)
    mret (mkResult v_order_id v_transaction_id v_stock_data v_total
            v_new_balance)
  end.

(** [get_available_stock_count] *)
Definition get_available_stock_count (p_product_id : string) (db : DB) : Z :=
  Z.of_nat (length (filter (unsold_of p_product_id) (product_stocks db))).

(** ** JavaScript side: the storage client *)

Module Js.

Inductive error :=
  | PGRST116                          (* [.single()] found no row, or several *)
  | PG23505 (constraint : string)     (* unique_violation reported by the API *)
  | RpcError (e : Plpgsql.exn)        (* exception raised by a called function *)
  | FetchFailed                       (* the call did not reach the database *)
  | ReferenceError (name : string).

Abbreviation M := (Eff error).

Definition throw {A} (e : error) : M A := Eff.throw e.

Definition try_catch {A} (m : M A) (h : error → M A) : M A :=
  Eff.try_catch m h.

(** [if (error) throw error; return data] *)
Definition unwrap {A} (r : error + A) : M A :=
  match r with inl e => throw e | inr a => mret a end.

End Js.

(** The calls [server.js] makes on [supabaseAdmin]; each one is a single
    statement for the database, and answers [{ data, error }]. *)
Module Supabase.

Definition single {A} (rows : list A) : Js.error + A :=
  match rows with [r] => inr r | _ => inl Js.PGRST116 end.

(** [.from('wallets').select('*').eq('user_id', userId).single()] *)
Definition wallets_select_single (userId : string) : Js.M (Js.error + Z) :=
  Eff.query (λ db, match wallets db !! userId with
                   | Some balance => inr balance
                   | None => inl Js.PGRST116
                   end).

(** [.from('wallets').insert({ user_id, balance }).select().single()] *)
Definition wallets_insert (userId : string) (balance : Z)
    : Js.M (Js.error + Z) :=
  λ db, match wallets db !! userId with
        | Some _ => (inr (inl (Js.PG23505 "wallets_user_id_key")), db)
        | None => (inr (inr balance), set_wallets (<[userId := balance]>) db)
        end.

(** [.from('wallets').upsert({ user_id, balance, updated_at },
     { onConflict: 'user_id' }).select().single()] *)
Definition wallets_upsert (userId : string) (balance : Z)
    : Js.M (Js.error + Z) :=
  λ db, (inr (inr balance), set_wallets (<[userId := balance]>) db).

(** [.from('transactions').insert(transaction).select().single()] *)
Definition transactions_insert (t : TransactionRow)
    : Js.M (Js.error + TransactionRow) :=
  λ db, if decide (transaction_id t ∈ transaction_id <$> transactions db)
        then (inr (inl (Js.PG23505 "transactions_transaction_id_key")), db)
        else (inr (inr t), set_transactions (λ l, l ++ [t]) db).

(** [.from('product_stocks').update({...}).in('id', stockIds)] *)
Definition product_stocks_update_in (stockIds : list nat)
    (userId : string) (now : Z) (orderId : string)
    : Js.M (option Js.error) :=
  λ db, (inr None,
         set_product_stocks (fmap (mark_sold stockIds userId now orderId)) db).

(** [.from('topup_requests').select('*').eq('request_id', requestId)
     .eq('status', 'pending').single()] *)
Definition topup_requests_select_pending (requestId : string)
    : Js.M (Js.error + TopupRequest) :=
  Eff.query (λ db, single (filter
    (λ r, request_id r = requestId ∧ req_status r = pending)
    (topup_requests db))).

(** The same with [.eq('user_id', userId)]. *)
Definition topup_requests_select_pending_of (requestId userId : string)
    : Js.M (Js.error + TopupRequest) :=
  Eff.query (λ db, single (filter
    (λ r, request_id r = requestId ∧ req_user_id r = userId
          ∧ req_status r = pending)
    (topup_requests db))).

(** [.from('topup_requests').update(patch).eq('request_id', requestId)] *)
Definition topup_requests_update (patch : TopupRequest → TopupRequest)
    (requestId : string) : Js.M (option Js.error) :=
  λ db, (inr None,
         set_topup_requests
           (fmap (λ r, if decide (request_id r = requestId)
                       then patch r else r)) db).

(** [.from('topup_requests').select('id').eq('user_id', userId)
     .eq('status', 'pending')] *)
Definition topup_requests_pending_of (userId : string)
    : Js.M (list TopupRequest) :=
  Eff.query (λ db, filter
    (λ r, req_user_id r = userId ∧ req_status r = pending)
    (topup_requests db)).

(** [.from('topup_requests').insert(row).select().single()] *)
Definition topup_requests_insert (r : TopupRequest)
    : Js.M (Js.error + TopupRequest) :=
  λ db, if decide (request_id r ∈ request_id <$> topup_requests db)
        then (inr (inl (Js.PG23505 "topup_requests_request_id_key")), db)
        else (inr (inr r), set_topup_requests (λ l, l ++ [r]) db).

(** [.from('orders').insert(order).select().single()] *)
Definition orders_insert (o : OrderRow) : Js.M (Js.error + OrderRow) :=
  λ db, if decide (order_id o ∈ order_id <$> orders db)
        then (inr (inl (Js.PG23505 "orders_order_id_key")), db)
        else (inr (inr o), set_orders (λ l, l ++ [o]) db).

(** [.rpc(name, args)]: the function runs in its own transaction. *)
Definition rpc {A} (f : Plpgsql.M A) : Js.M (Plpgsql.exn + A) :=
  λ db, let '(r, db') := Plpgsql.rpc f db in (inr r, db').

End Supabase.

(** ** JavaScript side: the database functions of [server.js] *)

Definition getOrCreateWallet (userId : string) : Js.M Z :=
  Js.try_catch
    (r ← Supabase.wallets_select_single userId;
     match r with
     | inl Js.PGRST116 =>
         r' ← Supabase.wallets_insert userId 0;
         Js.unwrap r'
     | inl error => Js.throw error
     | inr wallet => mret wallet
     end)
    (λ _, mret 0).

(** [parseFloat(wallet.balance) || 0] *)
Definition getUserBalance (userId : string) : Js.M Z :=
  getOrCreateWallet userId.

(** [updateUserBalance], over the answer of its storage call. *)
Definition updateUserBalance_with
    (wallets_upsert : string → Z → Js.M (Js.error + Z))
    (userId : string) (newBalance : Z) : Js.M Z :=
  Js.try_catch
    (r ← wallets_upsert userId newBalance;
     Js.unwrap r)
    (λ _, mret newBalance).

Definition updateUserBalance : string → Z → Js.M Z :=
  updateUserBalance_with Supabase.wallets_upsert.

(** [now] is [Date.now()]; the answer is [null] when the insert fails. *)
Definition addTransaction (userId : string) (type : TxType) (amount : Z)
    (details : TxDetails) (now : Z) : Js.M (option TransactionRow) :=
  Js.try_catch
    (balanceAfter ← getUserBalance userId;
     let transaction :=
       mkTx (transaction_id_at now) userId type amount balanceAfter details in
     r ← Supabase.transactions_insert transaction;
     data ← Js.unwrap r;
     mret (Some data))
    (λ _, mret None).

(** [markStockAsSold]; [now] is [new Date()]. *)
Definition markStockAsSold (stockIds : list nat) (userId orderId : string)
    (now : Z) : Js.M bool :=
  Js.try_catch
    (error ← Supabase.product_stocks_update_in stockIds userId now orderId;
     match error with
     | Some e => Js.throw e
     | None => mret true
     end)
    (λ _, mret false).

(** What [getProductById] answers with (the catalog is a collaborator). *)
Record Product := mkProduct {
  product_id : string;
  name : string;
  price : Z;
  is_active : bool
}.

(** [createOrder]; [now] is [Date.now()]. *)
Definition createOrder (userId : string) (product : Product) (quantity : Z)
    (deliveryData : list string) (now : Z) : Js.M (option OrderRow) :=
  Js.try_catch
    (let total := price product * quantity in
     let order :=
       mkOrder (order_id_at now) userId (product_id product) (name product)
               quantity (price product) total "completed" deliveryData None in
     r ← Supabase.orders_insert order;
     data ← Js.unwrap r;
     mret (Some data))
    (λ _, mret None).

(** ** Routes

    A handler answers with a status code and a body. *)

Definition Response (B : Type) : Type := Z * B.

(** *** [POST /api/products/:id/purchase] *)

Inductive PurchaseBody :=
  | ValidationFailed
  | QuantityOutOfRange
  | ProductNotFound
  | ProductNotForSale
  | InvalidPrice
  | OutOfStock (available requested : Z)
  | NotEnoughBalance (balance required : Z)
  | NoWallet
  | PurchaseFailed
  | Purchased (order_id : string) (quantity total : Z)
              (delivery : list string) (newBalance : Z).

(** [body('quantity').optional().isInt({ min: 1, max: 100 })] followed by
    [validate]: the field is absent, or holds an integer. *)
Definition purchaseValidation (quantity : option Z) : bool :=
  match quantity with
  | None => true
  | Some q => bool_decide (1 ≤ q ≤ 100)
  end.

(** [parseInt(req.body.quantity) || 1] *)
Definition parseInt_or_1 (quantity : option Z) : Z :=
  match quantity with
  | None => 1
  | Some q => if decide (q = 0) then 1 else q
  end.

(** The handler reads the numbers back out of the exception's message:
    [/Available (\d+), Requested (\d+)/] and
    [/Balance ([\d.]+), Required ([\d.]+)/] match unsigned numbers only. *)
Definition purchase_error_body (e : Plpgsql.exn) (quantity : Z)
    : option (Response PurchaseBody) :=
  match e with
  | Plpgsql.INSUFFICIENT_STOCK available requested =>
      Some (400, OutOfStock
                   (if decide (0 ≤ available ∧ 0 ≤ requested)
                    then available else 0)
                   quantity)
  | Plpgsql.INSUFFICIENT_BALANCE balance required =>
      Some (400, if decide (0 ≤ balance ∧ 0 ≤ required)
                 then NotEnoughBalance balance required
                 else NotEnoughBalance 0 0)
  | Plpgsql.WALLET_NOT_FOUND _ => Some (400, NoWallet)
  | _ => None
  end.

Section purchase.

(** The function the database runs for [rpc('complete_purchase', ...)]. *)
Variable procedure :
  string → string → Z → Z → string → Z → Plpgsql.M PurchaseResult.

(** The handler proper. *)
Definition purchase_handler_with (userId productId : string)
    (quantity : option Z) (product : option Product) (now : Z)
    : Js.M (Response PurchaseBody) :=
  Js.try_catch
    (let quantity := parseInt_or_1 quantity in
     if decide (quantity < 1 ∨ quantity > 100)
     then mret (400, QuantityOutOfRange) else
     match product with
     | None => mret (404, ProductNotFound)
     | Some product =>
       if negb (is_active product) then mret (400, ProductNotForSale) else
       let pricePerUnit := price product in
       if decide (pricePerUnit < 0) then mret (400, InvalidPrice) else
       r ← Supabase.rpc (procedure userId productId quantity pricePerUnit
                           (name product) now);
       match r with
       | inl rpcError =>
           match purchase_error_body rpcError quantity with
           | Some response => mret response
           | None => Js.throw (Js.RpcError rpcError)
           end
       | inr purchaseResult =>
           mret (200, Purchased (res_orderId purchaseResult) quantity
                        (res_total purchaseResult)
                        (res_deliveryItems purchaseResult)
                        (res_newBalance purchaseResult))
       end
     end)
    (λ _, mret (500, PurchaseFailed)).

(** The middleware chain: [purchaseValidation], [validate], handler. *)
Definition purchase_with (userId productId : string) (quantity : option Z)
    (product : option Product) (now : Z)
    : Js.M (Response PurchaseBody) :=
  if negb (purchaseValidation quantity) then mret (400, ValidationFailed)
  else purchase_handler_with userId productId quantity product now.

End purchase.

Definition purchase_route := purchase_with complete_purchase.

(** *** [GET /api/wallet] *)

Inductive WalletBody :=
  | WalletFailed
  | Wallet (balance : Z) (transactions : list TransactionRow).

(** [getUserTransactions]: the newest [limit] entries of the user. *)
Definition getUserTransactions (userId : string) (limit : nat)
    : Js.M (list TransactionRow) :=
  Js.try_catch
    (Eff.query (λ db, take limit (reverse
       (filter (λ t, tx_user_id t = userId) (transactions db)))))
    (λ _, mret []).

Definition wallet_route (userId : string) : Js.M (Response WalletBody) :=
  Js.try_catch
    (balance ← getUserBalance userId;
     transactions ← getUserTransactions userId 5;
     mret (200, Wallet balance transactions))
    (λ _, mret (500, WalletFailed)).

(** *** [POST /api/wallet/deduct] *)

Inductive DeductBody :=
  | DeductFailed
  | DeductInvalidAmount
  | DeductNotEnough (currentBalance required : Z)
  | Deducted (newBalance : Z) (transaction : option TransactionRow).

Definition deduct_route (userId : string) (amount : Z)
    (productId productName : option string) (now : Z)
    : Js.M (Response DeductBody) :=
  Js.try_catch
    (if decide (amount ≤ 0) then mret (400, DeductInvalidAmount) else
     currentBalance ← getUserBalance userId;
     if decide (currentBalance < amount)
     then mret (400, DeductNotEnough currentBalance amount) else
     let newBalance := currentBalance - amount in
     updateUserBalance userId newBalance;;
     transaction ← addTransaction userId purchase (- amount)
                     (DeductDetails productId productName) now;
     mret (200, Deducted newBalance transaction))
    (λ _, mret (500, DeductFailed)).

(** [note || fallback] on an optional string *)
Definition js_or (note : option string) (fallback : string) : string :=
  match note with
  | Some n => if decide (n = "") then fallback else n
  | None => fallback
  end.

(** *** [POST /api/admin/topup] *)

Inductive AdminTopupBody :=
  | AdminTopupFailed
  | AdminTopupInvalid
  | AdminTopupDone (newBalance : Z).

Definition admin_topup_route (adminId userId : string) (amount : Z)
    (note : option string) (now : Z) : Js.M (Response AdminTopupBody) :=
  Js.try_catch
    (if decide (userId = "" ∨ amount ≤ 0)
     then mret (400, AdminTopupInvalid) else
     getOrCreateWallet userId;;
     currentBalance ← getUserBalance userId;
     let newBalance := currentBalance + amount in
     updateUserBalance userId newBalance;;
     addTransaction userId topup amount
       (AdminTopupDetails (js_or note "Admin topup") adminId) now;;
     mret (200, AdminTopupDone newBalance))
    (λ _, mret (500, AdminTopupFailed)).

(** *** [POST /api/wallet/topup] *)

Inductive TopupBody :=
  | TopupInvalidAmount
  | TopupTooLarge
  | TopupInvalidMethod
  | TopupTooManyPending
  | TopupFailed
  | TopupRequested (request : TopupRequest).

Definition topup_route (userId : string) (amount : Z) (method : string)
    (slipUrl : option string) (now : Z) : Js.M (Response TopupBody) :=
  Js.try_catch
    (if decide (amount ≤ 0) then mret (400, TopupInvalidAmount) else
     if decide (amount > baht 100000) then mret (400, TopupTooLarge) else
     if decide (method ∉ ["promptpay"; "truemoney"; "bank_transfer"])
     then mret (400, TopupInvalidMethod) else
     pendingRequests ← Supabase.topup_requests_pending_of userId;
     if decide (3 ≤ length pendingRequests)%nat
     then mret (400, TopupTooManyPending) else
     let requestId := request_id_at now in
     r ← Supabase.topup_requests_insert
           (mkReq requestId userId amount method slipUrl pending
                  None None None);
     request ← Js.unwrap r;
     mret (200, TopupRequested request))
    (λ _, mret (500, TopupFailed)).

(** *** [POST /api/wallet/topup/:requestId/cancel] *)

Inductive ReviewBody :=
  | NotPending
  | AmountMissing
  | ReviewFailed
  | Cancelled
  | Rejected
  | Approved (amount newBalance : Z).

Definition with_status (st : TopupStatus) (r : TopupRequest) : TopupRequest :=
  mkReq (request_id r) (req_user_id r) (req_amount r) (req_method r)
        (slip_url r) st (admin_note r) (reviewed_by r) (reviewed_at r).

Definition cancel_route (userId requestId : string)
    : Js.M (Response ReviewBody) :=
  Js.try_catch
    (r ← Supabase.topup_requests_select_pending_of requestId userId;
     match r with
     | inl _ => mret (404, NotPending)
     | inr request =>
         error ← Supabase.topup_requests_update (with_status cancelled)
                   requestId;
         match error with
         | Some e => Js.throw e
         | None => mret (200, Cancelled)
         end
     end)
    (λ _, mret (500, ReviewFailed)).

(** *** [POST /api/admin/topup-requests/:requestId/approve] *)

Definition reviewed (st : TopupStatus) (new_amount : option Z) (note : string)
    (adminId : string) (now : Z) (r : TopupRequest) : TopupRequest :=
  mkReq (request_id r) (req_user_id r) (default (req_amount r) new_amount)
        (req_method r) (slip_url r) st (Some note) (Some adminId) (Some now).

(** [bodyAmount ? parseFloat(bodyAmount) : parseFloat(request.amount)] *)
Definition approved_amount (bodyAmount : option Z) (request : TopupRequest) : Z :=
  match bodyAmount with
  | Some a => if decide (a = 0) then req_amount request else a
  | None => req_amount request
  end.

(** The handler, over the answer of the wallet upsert it ends up
    making. *)
Definition approve_route_with
    (wallets_upsert : string → Z → Js.M (Js.error + Z))
    (adminId requestId : string) (note : option string)
    (bodyAmount : option Z) (now : Z) : Js.M (Response ReviewBody) :=
  Js.try_catch
    (r ← Supabase.topup_requests_select_pending requestId;
     match r with
     | inl _ => mret (404, NotPending)
     | inr request =>
         let userId := req_user_id request in
         let amount := approved_amount bodyAmount request in
         if decide (amount ≤ 0) then mret (400, AmountMissing) else
         updateError ← Supabase.topup_requests_update
           (reviewed approved (Some amount) (js_or note "อนุมัติแล้ว")
                     adminId now)
           requestId;
         match updateError with
         | Some e => Js.throw e
         | None =>
             getOrCreateWallet userId;;
             currentBalance ← getUserBalance userId;
             let newBalance := currentBalance + amount in
             updateUserBalance_with wallets_upsert userId newBalance;;
             addTransaction userId topup amount
               (ApproveDetails (req_method request) requestId adminId
                  (js_or note "อนุมัติโดย Admin")) now;;
             mret (200, Approved amount newBalance)
         end
     end)
    (λ _, mret (500, ReviewFailed)).

Definition approve_route
    : string → string → option string → option Z → Z
      → Js.M (Response ReviewBody) :=
  approve_route_with Supabase.wallets_upsert.

(** *** [POST /api/admin/topup-requests/:requestId/reject] *)

Definition reject_route (adminId requestId : string)
    (note reason : option string) (now : Z) : Js.M (Response ReviewBody) :=
  Js.try_catch
    (let rejectReason := js_or note (js_or reason "ปฏิเสธโดย Admin") in
     r ← Supabase.topup_requests_select_pending requestId;
     match r with
     | inl _ => mret (404, NotPending)
     | inr request =>
         updateError ← Supabase.topup_requests_update
           (reviewed rejected None rejectReason adminId now) requestId;
         match updateError with
         | Some e => Js.throw e
         | None => mret (200, Rejected)
         end
     end)
    (λ _, mret (500, ReviewFailed)).

(** *** [POST /api/truemoney/redeem] *)

(** What [validateVoucherFormat] and [redeemAngpao] answer with; both
    belong to the TrueMoney client and to its provider. *)
Record VoucherValidation := mkValidation {
  valid : bool;
  voucherHash : string;
  alreadyUsed : bool
}.

Record RedeemResult := mkRedeem {
  success : bool;
  redeemed_amount : Z;
  redeem_transactionId : string
}.

Inductive RedeemBody :=
  | RedeemNoLink
  | RedeemBadFormat
  | RedeemAlreadyUsed
  | RedeemRefused
  | RedeemFailed
  | Redeemed (amount balance : Z).

(** The names [server.js] binds at its top level: its [require]d imports
    and its own function declarations that the wallet code can reach. *)
Definition server_js_bindings : list string :=
  [ "supabaseAdmin"; "invalidateBalanceCache"; "logAudit"; "logSecurityEvent";
    "redeemAngpao"; "validateVoucherFormat"; "getOrCreateWallet";
    "getUserBalance"; "updateUserBalance"; "addTransaction";
    "getUserTransactions"; "createOrder"; "markStockAsSold" ].

(** Evaluating an identifier: a name that is not bound throws. *)
Definition reference (name : string) : Js.M unit :=
  if decide (name ∈ server_js_bindings) then mret tt
  else Js.throw (Js.ReferenceError name).

Section redeem.

(** What a binding of [updateBalance] would run, if there were one. *)
Variable updateBalance : string → Z → Js.M unit.

Definition redeem_route (userId : string) (voucherLink : option string)
    (validation : VoucherValidation) (result : RedeemResult) (now : Z)
    : Js.M (Response RedeemBody) :=
  Js.try_catch
    (if decide (voucherLink = None ∨ voucherLink = Some "")
     then mret (400, RedeemNoLink) else
     if negb (valid validation) then mret (400, RedeemBadFormat) else
     if alreadyUsed validation then mret (400, RedeemAlreadyUsed) else
     if negb (success result) then mret (400, RedeemRefused) else
     let amount := redeemed_amount result in
     reference "updateBalance";;
     updateBalance userId amount;;
     addTransaction userId topup amount
       (AngpaoDetails (redeem_transactionId result)
          (voucherHash validation)) now;;
     newBalance ← getUserBalance userId;
     mret (200, Redeemed amount newBalance))
    (λ _, mret (500, RedeemFailed)).

End redeem.

(** *** Loading stock

    [product_stocks_insert] is the insert the admin stock routes end in:
    every row of one statement gets a new id and the same [created_at]. *)

Definition next_stock_id (l : list StockRow) : nat :=
  S (foldr Nat.max 0%nat (stock_id <$> l)).

Fixpoint new_stock_rows (first : nat) (productId : string)
    (items : list string) (now : Z) : list StockRow :=
  match items with
  | [] => []
  | stockData :: items =>
      mkStock first productId stockData false None None None now
        :: new_stock_rows (S first) productId items now
  end.

Definition product_stocks_insert (productId : string) (items : list string)
    (now : Z) : Js.M nat :=
  λ db, (inr (length items),
         set_product_stocks
           (λ l, l ++ new_stock_rows (next_stock_id l) productId items now) db).

(** ** The store as a state machine *)

(** The application: the database and the user ids that hold a session
    (the session store keeps [req.session.user]). *)
Record App := mkApp {
  store : DB;
  sessions : gset string
}.

Section machine.

Variable updateBalance : string → Z → Js.M unit.

(** [ADMIN_IDS], read from the environment. *)
Variable ADMIN_IDS : list string.

(** A call of a route; its first argument is the user id of the session
    the request comes with.  A purchase carries what [getProductById]
    answers for its product, a redeem what the TrueMoney client answers. *)
Inductive Request :=
  | Purchase (userId productId : string) (quantity : option Z)
             (product : option Product) (now : Z)
  | GetWallet (userId : string)
  | Deduct (userId : string) (amount : Z)
           (productId productName : option string) (now : Z)
  | AdminTopup (adminId userId : string) (amount : Z)
               (note : option string) (now : Z)
  | Topup (userId : string) (amount : Z) (method : string)
          (slipUrl : option string) (now : Z)
  | Cancel (userId requestId : string)
  | Approve (adminId requestId : string) (note : option string)
            (bodyAmount : option Z) (now : Z)
  | Reject (adminId requestId : string) (note reason : option string)
           (now : Z)
  | Redeem (userId : string) (voucherLink : option string)
           (validation : VoucherValidation) (result : RedeemResult)
           (now : Z)
  | LoadStock (adminId productId : string) (items : list string) (now : Z).

(** The database a handler leaves behind. *)
Definition serve (db : DB) (q : Request) : DB :=
  match q with
  | Purchase u p n pr now => (purchase_route u p n pr now db).2
  | GetWallet u => (wallet_route u db).2
  | Deduct u a p pn now => (deduct_route u a p pn now db).2
  | AdminTopup ad u a n now => (admin_topup_route ad u a n now db).2
  | Topup u a m s now => (topup_route u a m s now db).2
  | Cancel u r => (cancel_route u r db).2
  | Approve ad r n a now => (approve_route ad r n a now db).2
  | Reject ad r n re now => (reject_route ad r n re now db).2
  | Redeem u l v r now => (redeem_route updateBalance u l v r now db).2
  | LoadStock _ p items now => (product_stocks_insert p items now db).2
  end.

Definition run (qs : list Request) (db : DB) : DB := foldl serve db qs.

Definition session_user (q : Request) : string :=
  match q with
  | Purchase u _ _ _ _ | GetWallet u | Deduct u _ _ _ _ | AdminTopup u _ _ _ _
  | Topup u _ _ _ _ | Cancel u _ | Approve u _ _ _ _ | Reject u _ _ _ _
  | Redeem u _ _ _ _ | LoadStock u _ _ _ => u
  end.

Definition admin_route (q : Request) : bool :=
  match q with
  | AdminTopup _ _ _ _ _ | Approve _ _ _ _ _ | Reject _ _ _ _ _
  | LoadStock _ _ _ _ => true
  | _ => false
  end.

(** [requireAuth]: the request comes with a session. *)
Definition requireAuth (u : string) (st : App) : bool :=
  bool_decide (u ∈ sessions st).

(** [requireAdmin]: a session whose user is listed in [ADMIN_IDS]. *)
Definition requireAdmin (u : string) (st : App) : bool :=
  requireAuth u st && bool_decide (u ∈ ADMIN_IDS).

(** What reaches the server. *)
Inductive Http :=
  | Login (userId : string)        (* [GET /auth/discord/callback] *)
  | Logout (userId : string)       (* [POST /api/logout] *)
  | Call (q : Request).

(** The Discord callback creates the wallet before it sets the session;
    a route runs its handler only behind its guard. *)
Definition dispatch (st : App) (h : Http) : App :=
  match h with
  | Login u =>
      mkApp (getOrCreateWallet u (store st)).2 ({[u]} ∪ sessions st)
  | Logout u => mkApp (store st) (sessions st ∖ {[u]})
  | Call q =>
      if (if admin_route q then requireAdmin (session_user q) st
          else requireAuth (session_user q) st)
      then mkApp (serve (store st) q) (sessions st)
      else st
  end.

Definition start_up : App := mkApp empty_db ∅.

Definition run_app (hs : list Http) : App := foldl dispatch start_up hs.

End machine.

(** ** Notions used in the statements

    None of what follows is code of the repository: these are the
    vocabulary of the theorems and the closed forms that the lemmas of the
    next part prove the code equal to. *)

(** The balance [getUserBalance] reports: a missing wallet counts as 0. *)
Definition balance_of (userId : string) (db : DB) : Z :=
  default 0 (wallets db !! userId).

(** The wallet row [getOrCreateWallet] leaves behind. *)
Definition ensure_wallet (userId : string) (db : DB) : DB :=
  match wallets db !! userId with
  | Some _ => db
  | None => set_wallets (<[userId := 0]>) db
  end.

(** The entries of one account, in commit order. *)
Definition ledger_of (userId : string) (db : DB) : list TransactionRow :=
  filter (λ t, tx_user_id t = userId) (transactions db).

(** Replaying them: the sum of their amounts. *)
Definition ledger_sum (userId : string) (db : DB) : Z :=
  foldr Z.add 0 (amount <$> ledger_of userId db).

(** No wallet is overdrawn. *)
Definition nonnegative (db : DB) : Prop :=
  ∀ u b, wallets db !! u = Some b → 0 ≤ b.



(** The entry's [details] name this order. *)
Definition references_order (orderId : string) (t : TransactionRow) : Prop :=
  match tx_details t with
  | PurchaseDetails _ _ o _ => o = orderId
  | _ => False
  end.

(** ** The scenario of the specification *)

Module Scenario.

Definition P : Product := mkProduct "P" "Key" (baht 100) true.

Definition unit1 := mkStock 1 "P" "KEY-1" false None None None 10.
Definition unit2 := mkStock 2 "P" "KEY-2" false None None None 20.
Definition unit3 := mkStock 3 "P" "KEY-3" false None None None 30.

(** Three unsold units of [P] and a wallet of 250 for [A]; the table
    holds the units in no particular order. *)
Definition start : DB :=
  mkDB {[ "A" := baht 250 ]} [unit3; unit1; unit2] [] [] [].

Definition after_first (now : Z) : DB :=
  mkDB {[ "A" := baht 50 ]}
       [ unit3;
         mkStock 1 "P" "KEY-1" true (Some "A") (Some now)
                 (Some (order_id_at now)) 10;
         mkStock 2 "P" "KEY-2" true (Some "A") (Some now)
                 (Some (order_id_at now)) 20 ]
       [ mkOrder (order_id_at now) "A" "P" "Key" 2 (baht 100) (baht 200)
                 "completed" ["KEY-1"; "KEY-2"] (Some now) ]
       [ mkTx (transaction_id_at now) "A" purchase (- baht 200) (baht 50)
              (PurchaseDetails "P" "Key" (order_id_at now) 2) ]
       [].

End Scenario.

(** The rows and the database a [complete_purchase] that goes through
    writes, for a buyer holding [b] and the reserved [rows]. *)
Definition purchase_order u p q price pname now (rows : list StockRow)
    : OrderRow :=
  mkOrder (order_id_at now) u p pname q price (price * q) "completed"
          (stock_data <$> rows) (Some now).

Definition purchase_transaction u p q price pname now (b : Z)
    : TransactionRow :=
  mkTx (transaction_id_at now) u purchase (- (price * q)) (b - price * q)
       (PurchaseDetails p pname (order_id_at now) q).

Definition debited_and_marked u q price now (b : Z) (rows : list StockRow)
    (db : DB) : DB :=
  set_product_stocks
    (fmap (mark_sold (stock_id <$> rows) u now (order_id_at now)))
    (set_wallets (alter (λ _, b - price * q) u) db).

Definition settled u p q price pname now (b : Z) (rows : list StockRow)
    (db : DB) : DB :=
  set_transactions
    (λ l, l ++ [purchase_transaction u p q price pname now b])
    (set_orders (λ l, l ++ [purchase_order u p q price pname now rows])
       (debited_and_marked u q price now b rows db)).

(** The read-modify-write the JavaScript routes share: store the new
    balance, then record the movement. *)
Definition moved (userId : string) (delta : Z) (type : TxType)
    (details : TxDetails) (now : Z) (db : DB) : option TransactionRow * DB :=
  let newBalance := balance_of userId db + delta in
  let db1 := set_wallets (<[userId := newBalance]>) db in
  let t := mkTx (transaction_id_at now) userId type delta newBalance details in
  if decide (transaction_id_at now ∈ transaction_id <$> transactions db)
  then (None, db1)
  else (Some t, set_transactions (λ l, l ++ [t]) db1).

(** The rows the reviewing routes select, and the update they make. *)
Definition pending_with_id (requestId : string) (db : DB) : list TopupRequest :=
  filter (λ r, request_id r = requestId ∧ req_status r = pending)
         (topup_requests db).

Definition patch_requests (patch : TopupRequest → TopupRequest)
    (requestId : string) (db : DB) : DB :=
  set_topup_requests
    (fmap (λ r, if decide (request_id r = requestId) then patch r else r)) db.

(** The requests that take money out of a wallet. *)
Definition is_debit (q : Request) : bool :=
  match q with
  | Purchase _ _ _ _ _ | Deduct _ _ _ _ _ => true
  | _ => false
  end.

(** The transaction id a request writes its ledger entry under. *)
Definition request_transaction_id (q : Request) : option string :=
  match q with
  | Purchase _ _ _ _ now | Deduct _ _ _ _ now | AdminTopup _ _ _ _ now
  | Approve _ _ _ _ now => Some (transaction_id_at now)
  | _ => None
  end.

(** What a request may do to wallets and transactions: nothing; create a
    wallet holding 0; or move one wallet by [delta] and append the entry
    of that movement, the entry being lost when its id is taken. *)
Inductive ledger_step (may_debit : bool) (tid : option string) (db db' : DB)
    : Prop :=
  | step_frame :
      wallets db' = wallets db →
      transactions db' = transactions db →
      ledger_step may_debit tid db db'
  | step_create (u : string) :
      wallets db !! u = None →
      wallets db' = <[u := 0]> (wallets db) →
      transactions db' = transactions db →
      ledger_step may_debit tid db db'
  | step_move (u : string) (delta : Z) (t : TransactionRow) :
      wallets db' = <[u := balance_of u db + delta]> (wallets db) →
      0 ≤ balance_of u db + delta →
      (may_debit = false → 0 ≤ delta) →
      transactions db' = transactions db ++ [t] →
      tx_user_id t = u → amount t = delta →
      balance_after t = balance_of u db + delta →
      transaction_id t ∉ transaction_id <$> transactions db →
      ledger_step may_debit tid db db'
  | step_lost (u : string) (delta : Z) (id : string) :
      wallets db' = <[u := balance_of u db + delta]> (wallets db) →
      0 ≤ balance_of u db + delta →
      (may_debit = false → 0 ≤ delta) →
      transactions db' = transactions db →
      tid = Some id →
      id ∈ transaction_id <$> transactions db →
      ledger_step may_debit tid db db'.

(** Replaying an account's entries gives its balance, and its last entry
    says so. *)
Definition ledger_consistent (db : DB) : Prop :=
  ∀ u, ledger_sum u db = balance_of u db
       ∧ ∀ t, last (ledger_of u db) = Some t →
              balance_after t = balance_of u db.

(** Every ledger entry of the run is written: the id each request derives
    from its clock is free when the request is served. *)
Fixpoint entries_recorded (updateBalance : string → Z → Js.M unit)
    (qs : list Request) (db : DB) : Prop :=
  match qs with
  | [] => True
  | q :: qs =>
      (∀ id, request_transaction_id q = Some id →
             id ∉ transaction_id <$> transactions db)
      ∧ entries_recorded updateBalance qs (serve updateBalance db q)
  end.

#[global] Instance older_total : Total older.
Proof. intros a b. unfold older. lia. Qed.

#[global] Instance older_trans : Transitive older.
Proof. intros a b c. unfold older. lia. Qed.

(** * Further code of the repository *)

(** ** JavaScript strings

    A string is read as the list of its code units; the embedding covers
    the strings whose code units are below 256. *)

Module JsString.

Definition chars (s : string) : list ascii := String.list_ascii_of_string s.

Definition str (l : list ascii) : string := String.string_of_list_ascii l.

(** [charCodeAt] *)
Definition charCode (c : ascii) : Z := Z.of_N (N_of_ascii c).

(** WhiteSpace and LineTerminator: TAB, LF, VT, FF, CR, SP and NBSP. *)
Definition is_space (c : ascii) : bool :=
  bool_decide (9 ≤ charCode c ≤ 13) || bool_decide (charCode c = 32)
  || bool_decide (charCode c = 160).

Fixpoint trimStart (l : list ascii) : list ascii :=
  match l with
  | c :: l' => if is_space c then trimStart l' else l
  | [] => []
  end.

Definition trimEnd (l : list ascii) : list ascii :=
  reverse (trimStart (reverse l)).

(** [s.trim()] *)
Definition trim (l : list ascii) : list ascii := trimEnd (trimStart l).

(** [s.split(sep)] for a separator of one character. *)
Fixpoint split (sep : ascii) (l : list ascii) : list (list ascii) :=
  match l with
  | [] => [[]]
  | c :: l' =>
      if decide (c = sep) then [] :: split sep l'
      else match split sep l' with
           | piece :: pieces => (c :: piece) :: pieces
           | [] => [[c]]
           end
  end.

(** [pieces.join(sep)] *)
Fixpoint join (sep : ascii) (pieces : list (list ascii)) : list ascii :=
  match pieces with
  | [] => []
  | [piece] => piece
  | piece :: pieces => piece ++ sep :: join sep pieces
  end.

Fixpoint startsWith (needle l : list ascii) : bool :=
  match needle, l with
  | [], _ => true
  | n :: needle, c :: l => bool_decide (n = c) && startsWith needle l
  | _ :: _, [] => false
  end.

(** [s.includes(needle)] *)
Fixpoint includes (needle l : list ascii) : bool :=
  startsWith needle l
  || match l with
     | [] => false
     | _ :: l' => includes needle l'
     end.

(** [s.padStart(targetLength, padChar)] for a pad of one character. *)
Definition padStart (targetLength : nat) (padChar : ascii) (l : list ascii)
    : list ascii :=
  replicate (targetLength - length l) padChar ++ l.

(** [String(n)] for a natural number. *)
Definition of_nat (n : nat) : list ascii := chars (pretty n).

Definition is_digit (c : ascii) : bool :=
  bool_decide (48 ≤ charCode c ≤ 57).

(** [[a-zA-Z0-9]] *)
Definition is_alnum (c : ascii) : bool :=
  is_digit c || bool_decide (65 ≤ charCode c ≤ 90)
  || bool_decide (97 ≤ charCode c ≤ 122).

End JsString.


(** ** The Thunder client: PromptPay payloads

    [generatePromptPayQR], [calculateCRC16] and the helper [tlv]. *)

Module Thunder.
Import JsString.

(** One round of the inner loop of [calculateCRC16]. *)
Definition crc_shift (crc : Z) : Z :=
  Z.land (if decide (Z.land crc 0x8000 ≠ 0)
          then Z.lxor (Z.shiftl crc 1) 0x1021
          else Z.shiftl crc 1)
         0xFFFF.

(** The body of its outer loop, for the character [c]. *)
Definition crc_char (crc : Z) (c : ascii) : Z :=
  Nat.iter 8 crc_shift (Z.lxor crc (Z.shiftl (charCode c) 8)).

Definition crc16 (s : list ascii) : Z := foldl crc_char 0xFFFF s.

Definition hex_digit (d : Z) : ascii :=
  nth (Z.to_nat d) (chars "0123456789ABCDEF") "0"%char.

(** [n.toString(16).toUpperCase()] for [0 ≤ n]; the argument [digits]
    bounds the number of digits. *)
Fixpoint toString16 (digits : nat) (n : Z) : list ascii :=
  match digits with
  | O => []
  | S digits =>
      (if decide (n / 16 = 0) then [] else toString16 digits (n / 16))
      ++ [hex_digit (n mod 16)]
  end.

Definition calculateCRC16 (s : list ascii) : list ascii :=
  let crc := crc16 s in
  padStart 4 "0" (toString16 (S (Z.to_nat (Z.log2 crc))) crc).

(** [tlv(tag, value)] *)
Definition tlv (tag value : list ascii) : list ascii :=
  tag ++ padStart 2 "0" (of_nat (length value)) ++ value.

(** [amount.toFixed(2)] for an amount in hundredths. *)
Definition toFixed2 (amount : Z) : list ascii :=
  (if decide (amount < 0) then ["-"%char] else [])
  ++ chars (pretty (Z.abs amount / 100))
  ++ "."%char :: padStart 2 "0" (chars (pretty (Z.abs amount mod 100))).

Inductive QR :=
  | QRError
  | QRCode (qrCode : string) (amount : Z).

Definition aid : list ascii := chars "A000000677010111".

(** [merchantAccountInfo], when the id has 10 or 13 digits. *)
Definition merchantAccountInfo (formattedId : list ascii)
    : option (list ascii) :=
  if decide (length formattedId = 10%nat) then
    let phoneNumber := chars "0066" ++ drop 1 formattedId in
    Some (tlv (chars "00") aid ++ tlv (chars "01") phoneNumber)
  else if decide (length formattedId = 13%nat) then
    Some (tlv (chars "00") aid ++ tlv (chars "02") formattedId)
  else None.

Definition generatePromptPayQR (promptPayId : string) (amount : Z) : QR :=
  let formattedId := filter (λ c, is_digit c) (chars promptPayId) in
  match merchantAccountInfo formattedId with
  | None => QRError
  | Some merchantAccountInfo =>
      let payload :=
        tlv (chars "00") (chars "01")
        ++ tlv (chars "01") (chars "12")
        ++ tlv (chars "29") merchantAccountInfo
        ++ tlv (chars "53") (chars "764")
        ++ tlv (chars "54") (toFixed2 amount)
        ++ tlv (chars "58") (chars "TH")
        ++ chars "6304" in
      QRCode (str (payload ++ calculateCRC16 payload)) amount
  end.

(** Reading a text as a sequence of EMVCo data objects: a two-character
    tag, a two-digit length and that many characters of value. *)
Definition digit_value (c : ascii) : option nat :=
  if is_digit c then Some (Z.to_nat (charCode c - 48)) else None.

Fixpoint emv_read (fuel : nat) (s : list ascii)
    : option (list (string * string)) :=
  match fuel with
  | O => None
  | S fuel =>
      match s with
      | [] => Some []
      | t1 :: t2 :: l1 :: l2 :: rest =>
          d1 ← digit_value l1;
          d2 ← digit_value l2;
          let n := (10 * d1 + d2)%nat in
          if decide (n ≤ length rest)%nat then
            fields ← emv_read fuel (drop n rest);
            Some ((str [t1; t2], str (take n rest)) :: fields)
          else None
      | _ => None
      end
  end.

Definition emv_fields (s : string) : option (list (string * string)) :=
  emv_read (S (length (chars s))) (chars s).

End Thunder.

(** ** The session store ([SupabaseStore])

    The table [sessions] maps a session id, its primary key, to the
    stored session and its expiry; times are milliseconds. *)

Module SupabaseStore.

(** What the store reads of a session, [sess.cookie?.maxAge], and what
    the routes read of it, [req.session.user]. *)
Record Sess := mkSess {
  cookie_maxAge : option Z;
  sess_user : option string
}.

Abbreviation Table := (gmap string (Sess * Z)).

Section store.

(** [this.ttl], in seconds. *)
Variable ttl : Z.

(** [sess.cookie?.maxAge || this.ttl * 1000] *)
Definition maxAge (sess : Sess) : Z :=
  match cookie_maxAge sess with
  | Some m => if decide (m = 0) then ttl * 1000 else m
  | None => ttl * 1000
  end.

(** [get]: [.eq('sid', sid).gt('expire', now).single()]; the callback
    receives the session, or [null]. *)
Definition get (sid : string) (now : Z) (t : Table) : option Sess :=
  match t !! sid with
  | Some (sess, expire) => if decide (now < expire) then Some sess else None
  | None => None
  end.

(** [set]: an upsert on [sid]. *)
Definition set (sid : string) (sess : Sess) (now : Z) (t : Table) : Table :=
  <[sid := (sess, now + maxAge sess)]> t.

(** [destroy] *)
Definition destroy (sid : string) (t : Table) : Table := delete sid t.

(** [touch]: [.update({ expire }).eq('sid', sid)]. *)
Definition touch (sid : string) (sess : Sess) (now : Z) (t : Table) : Table :=
  alter (λ row, (row.1, now + maxAge sess)) sid t.

(** [cleanup]: [.delete().lt('expire', now)]. *)
Definition cleanup (now : Z) (t : Table) : Table :=
  filter (λ row, ¬ (row.2.2 < now)) t.

(** What express-session asks of the store. *)
Inductive Op :=
  | OpSet (sid : string) (sess : Sess) (now : Z)
  | OpDestroy (sid : string)
  | OpTouch (sid : string) (sess : Sess) (now : Z)
  | OpCleanup (now : Z).

Definition apply (t : Table) (op : Op) : Table :=
  match op with
  | OpSet sid sess now => set sid sess now t
  | OpDestroy sid => destroy sid t
  | OpTouch sid sess now => touch sid sess now t
  | OpCleanup now => cleanup now t
  end.

Definition sets (sid : string) (op : Op) : Prop :=
  match op with
  | OpSet sid' _ _ => sid' = sid
  | _ => False
  end.

End store.

End SupabaseStore.

(** ** The TrueMoney client: voucher codes

    [extractVoucherHash], [isVoucherUsed], [markVoucherUsed] and
    [validateVoucherFormat] of [utils/truemoneyApi.js]. *)

Module TrueMoney.
Import JsString.

(** [usedVouchers], a [Set]: its elements in insertion order. *)
Definition Set_add (x : string) (s : list string) : list string :=
  if decide (x ∈ s) then s else s ++ [x].

Definition Set_delete (x : string) (s : list string) : list string :=
  filter (λ y, y ≠ x) s.

Definition isVoucherUsed (voucherHash : string) (usedVouchers : list string)
    : bool :=
  bool_decide (voucherHash ∈ usedVouchers).

(** [markVoucherUsed]: the oldest element goes when the set outgrows
    10000. *)
Definition markVoucherUsed (voucherHash : string) (usedVouchers : list string)
    : list string :=
  let usedVouchers := Set_add voucherHash usedVouchers in
  if decide (10000 < Z.of_nat (length usedVouchers)) then
    match usedVouchers with
    | first :: _ => Set_delete first usedVouchers
    | [] => usedVouchers
    end
  else usedVouchers.

(** The longest prefix of letters and digits. *)
Fixpoint take_alnum (l : list ascii) : list ascii :=
  match l with
  | c :: l' => if is_alnum c then c :: take_alnum l' else []
  | [] => []
  end.

(** [input.match(/[?&]v=([a-zA-Z0-9]+)/)]: the group of the leftmost
    match. *)
Fixpoint match_v (l : list ascii) : option (list ascii) :=
  match l with
  | [] => None
  | c :: l' =>
      if (bool_decide (c = "?"%char) || bool_decide (c = "&"%char))
         && startsWith (chars "v=") l'
         && negb (bool_decide (take_alnum (drop 2 l') = []))
      then Some (take_alnum (drop 2 l'))
      else match_v l'
  end.

(** [/^[a-zA-Z0-9]{8,}$/.test(input)] *)
Definition is_bare_hash (l : list ascii) : bool :=
  forallb is_alnum l && bool_decide (8 ≤ length l)%nat.

Section voucher.

(** [new URL(input).searchParams.get('v')]: [None] when the constructor
    throws, [Some None] when the link has no parameter [v]. *)
Variable URL_v : list ascii → option (option (list ascii)).

(** [extractVoucherHash]; [None] is an input that is not a string. *)
Definition extractVoucherHash (input : option string) : option string :=
  match input with
  | None => None
  | Some input =>
      if decide (input = "") then None else
      let input := trim (chars input) in
      let from_url :=
        if includes (chars "gift.truemoney.com") input then
          match URL_v input with
          | Some (Some voucherHash) =>
              if decide (8 ≤ length voucherHash)%nat
              then Some voucherHash else None
          | Some None => None
          | None => match_v input
          end
        else None in
      match from_url with
      | Some voucherHash => Some (str voucherHash)
      | None => if is_bare_hash input then Some (str input) else None
      end
  end.

(** [validateVoucherFormat]; a [null] hash is the empty string here. *)
Definition validateVoucherFormat (voucherLink : option string)
    (usedVouchers : list string) : VoucherValidation :=
  let voucherHash := extractVoucherHash voucherLink in
  mkValidation (bool_decide (is_Some voucherHash))
               (default "" voucherHash)
               (match voucherHash with
                | Some h => isVoucherUsed h usedVouchers
                | None => false
                end).

End voucher.

End TrueMoney.

(** ** Administrators: [ADMIN_IDS] and the start-up checks *)

Module Admin.
Import JsString.

(** [(process.env.ADMIN_IDS || '').split(',').map(id => id.trim())
     .filter(Boolean)] of [server.js]. *)
Definition ADMIN_IDS (env : option string) : list string :=
  str <$> filter (λ id, id ≠ [])
            (trim <$> split ","%char (chars (default "" env))).

(** The part of [process.env] that [checkServices] reads. *)
Record Env := mkEnv {
  SUPABASE_URL : option string;
  DISCORD_CLIENT_ID : option string;
  DISCORD_CLIENT_SECRET : option string;
  ADMIN_IDS_var : option string
}.

Inductive Status := Ok | NotOk | Warning.

Record Check := mkCheck {
  check_name : string;
  check_status : Status;
  check_message : string
}.

(** [if (process.env.X)]: set, and not the empty string. *)
Definition truthy (v : option string) : bool :=
  match v with
  | Some s => negb (bool_decide (s = ""))
  | None => false
  end.

(** [(process.env.ADMIN_IDS || '').split(',').filter(Boolean)] of
    [envValidator.js]. *)
Definition adminIds (env : Env) : list string :=
  str <$> filter (λ id, id ≠ [])
            (split ","%char (chars (default "" (ADMIN_IDS_var env)))).

(** [checkServices] *)
Definition checkServices (env : Env) : list Check :=
  [ if truthy (SUPABASE_URL env)
    then mkCheck "Supabase" Ok "Connected"
    else mkCheck "Supabase" NotOk "Not configured";
    if truthy (DISCORD_CLIENT_ID env) && truthy (DISCORD_CLIENT_SECRET env)
    then mkCheck "Discord OAuth" Ok "Configured"
    else mkCheck "Discord OAuth" NotOk "Not configured";
    if decide (0 < length (adminIds env))%nat
    then mkCheck "Admin Users" Ok
           (pretty (length (adminIds env)) +:+ " admin(s) configured")
    else mkCheck "Admin Users" Warning "No admins configured" ].

End Admin.

(** ** Input sanitizing ([middleware/validation.js]) *)

Module Validation.
Import JsString.

(** A JSON value, as a field of a request body holds it. *)
Inductive Value :=
  | Text (s : string)
  | Number (n : Z)
  | Boolean (b : bool)
  | Null
  | Array (items : list Value)
  | Object (members : list (string * Value)).

(** [input.replace(/[<>]/g, '').trim()] *)
Definition sanitizeText (input : string) : string :=
  str (trim (filter (λ c, c ≠ "<"%char ∧ c ≠ ">"%char) (chars input))).

(** [sanitizeInput]: anything that is not a string is handed back. *)
Definition sanitizeInput (input : Value) : Value :=
  match input with
  | Text s => Text (sanitizeText s)
  | _ => input
  end.

(** [sanitizeBody]: every key of [req.body], when there is a body. *)
Definition sanitizeBody (body : option (gmap string Value))
    : option (gmap string Value) :=
  match body with
  | Some fields => Some (sanitizeInput <$> fields)
  | None => None
  end.

End Validation.

(** ** Stock management routes of [server.js]

    The columns [stock_type], [username], [password] and [cookie] of
    [product_stocks] are written by the bulk import and read by no code;
    the rows of the embedding keep [stock_data].  The [stock] column of
    [products] belongs to the catalog. *)

Module Stock.
Import JsString.

(** [countAvailableStock] *)
Definition countAvailableStock (productId : string) : Js.M Z :=
  Js.try_catch
    (Eff.query (λ db, Z.of_nat (length
       (filter (unsold_of productId) (product_stocks db)))))
    (λ _, mret 0).

(** [.from('product_stocks').select('*').eq('id', stockId).single()] *)
Definition product_stocks_select_single (stockId : nat)
    : Js.M (Js.error + StockRow) :=
  Eff.query (λ db, Supabase.single
    (filter (λ s, stock_id s = stockId) (product_stocks db))).

(** [.from('product_stocks').delete().eq('id', stockId)] *)
Definition product_stocks_delete (stockId : nat) : Js.M (option Js.error) :=
  λ db, (inr None,
         set_product_stocks (filter (λ s, stock_id s ≠ stockId)) db).

Inductive Body :=
  | NothingGiven
  | BadStockType
  | NoLines
  | NoProduct
  | NothingValid (details : list string)
  | NoSuchStock
  | AlreadySold
  | Failed
  | Added (added : nat) (totalAvailable : Z) (errors : list string)
  | Deleted.

(** [POST /api/admin/products/:id/stocks]; [stocks] is the array of the
    body, [product] what [getProductById] answers. *)
Definition add_route (productId : string) (stocks : option (list string))
    (product : option Product) (now : Z) : Js.M (Response Body) :=
  Js.try_catch
    (match stocks with
     | None | Some [] => mret (400, NothingGiven)
     | Some stocks =>
       match product with
       | None => mret (404, NoProduct)
       | Some _ =>
         let stockItems :=
           filter (λ s, s ≠ []) ((λ s, trim (chars s)) <$> stocks) in
         if decide (stockItems = []) then mret (400, NothingValid []) else
         inserted ← product_stocks_insert productId (str <$> stockItems) now;
         availableCount ← countAvailableStock productId;
         mret (200, Added inserted availableCount [])
       end
     end)
    (λ _, mret (500, Failed)).

(** [DELETE /api/admin/stocks/:id] *)
Definition delete_route (stockId : nat) : Js.M (Response Body) :=
  Js.try_catch
    (r ← product_stocks_select_single stockId;
     match r with
     | inl _ => mret (404, NoSuchStock)
     | inr stock =>
         if is_sold stock then mret (400, AlreadySold) else
         error ← product_stocks_delete stockId;
         match error with
         | Some e => Js.throw e
         | None =>
             countAvailableStock (stock_product_id stock);;
             mret (200, Deleted)
         end
     end)
    (λ _, mret (500, Failed)).

Inductive StockType := key | user_pass | user_pass_cookie.

(** An element of [stockItems]. *)
Record Item := mkItem {
  item_stock_type : StockType;
  item_stock_data : string;
  item_username : option string;
  item_password : option string;
  item_cookie : option string
}.

(** One round of the loop over the lines: the item, if the line has the
    shape of the stock type. *)
Definition parse_line (stockType : StockType) (line : list ascii)
    : option Item :=
  match stockType with
  | key => Some (mkItem key (str line) None None None)
  | user_pass =>
      let parts := split ":"%char line in
      if decide (length parts < 2)%nat then None else
      let username := default [] (parts !! 0%nat) in
      let password := join ":"%char (drop 1 parts) in
      Some (mkItem user_pass (str line) (Some (str username))
              (Some (str password)) None)
  | user_pass_cookie =>
      let parts := split ":"%char line in
      if decide (length parts < 3)%nat then None else
      let username := default [] (parts !! 0%nat) in
      let password := default [] (parts !! 1%nat) in
      let cookie := join ":"%char (drop 2 parts) in
      Some (mkItem user_pass_cookie (str line) (Some (str username))
              (Some (str password)) (Some (str cookie)))
  end.

(** The text pushed to [errors] for a line of the wrong shape. *)
Definition line_error (stockType : StockType) (lineNum : nat) : string :=
  "บรรทัด " +:+ pretty lineNum +:+ ": รูปแบบไม่ถูกต้อง (ต้องเป็น "
  +:+ match stockType with
      | user_pass_cookie => "user:pass:cookie"
      | _ => "user:pass"
      end
  +:+ ")".

(** The loop, from the line numbered [lineNum] on. *)
Fixpoint parse_lines (stockType : StockType) (lineNum : nat)
    (lines : list (list ascii)) : list Item * list string :=
  match lines with
  | [] => ([], [])
  | line :: lines =>
      let '(stockItems, errors) := parse_lines stockType (S lineNum) lines in
      match parse_line stockType line with
      | Some item => (item :: stockItems, errors)
      | None => (stockItems, line_error stockType lineNum :: errors)
      end
  end.

(** [text.split('\n').map(line => line.trim()).filter(line => line.length > 0)] *)
Definition lines_of (text : string) : list (list ascii) :=
  filter (λ line, line ≠ []) (trim <$> split "010"%char (chars text)).

(** [const { text, stockType = 'key' } = req.body] and [validTypes]. *)
Definition stock_type_of (stockType : option string) : option StockType :=
  match stockType with
  | None => Some key
  | Some s =>
      if decide (s = "key") then Some key
      else if decide (s = "user_pass") then Some user_pass
      else if decide (s = "user_pass_cookie") then Some user_pass_cookie
      else None
  end.

(** [POST /api/admin/products/:id/stocks/bulk], on a database that has
    the columns of the stock types. *)
Definition bulk_route (productId : string) (text stockType : option string)
    (product : option Product) (now : Z) : Js.M (Response Body) :=
  Js.try_catch
    (match text with
     | None => mret (400, NothingGiven)
     | Some text =>
       if decide (trim (chars text) = []) then mret (400, NothingGiven) else
       match stock_type_of stockType with
       | None => mret (400, BadStockType)
       | Some stockType =>
         let lines := lines_of text in
         if decide (lines = []) then mret (400, NoLines) else
         match product with
         | None => mret (404, NoProduct)
         | Some _ =>
           let '(stockItems, errors) := parse_lines stockType 1 lines in
           if decide (stockItems = [])
           then mret (400, NothingValid errors) else
           inserted ← product_stocks_insert productId
                        (item_stock_data <$> stockItems) now;
           availableCount ← countAvailableStock productId;
           mret (200, Added inserted availableCount errors)
         end
       end
     end)
    (λ _, mret (500, Failed)).

End Stock.

(** ** Security middleware ([middleware/security.js])

    [blockedIPs] and the timers of [blockIP] that have not run yet, each
    with the time it is due and the address it unblocks. *)

Module Security.
Import JsString.

Record State := mkState {
  blockedIPs : gset string;
  timers : list (Z * string)
}.

Definition start : State := mkState ∅ [].

(** The callbacks of the timers due at [now] have run when a request is
    handled at [now]: each deletes its address from [blockedIPs]. *)
Definition run_timers (now : Z) (st : State) : State :=
  mkState
    (blockedIPs st
     ∖ list_to_set (snd <$> filter (λ t, t.1 ≤ now) (timers st)))
    (filter (λ t, ¬ t.1 ≤ now) (timers st)).

(** [blockIP(ip, duration)] at [now]. *)
Definition blockIP (ip : string) (duration now : Z) (st : State) : State :=
  mkState ({[ ip ]} ∪ blockedIPs st) (timers st ++ [(now + duration, ip)]).

(** [ipBlocker]: does it answer 403? *)
Definition ipBlocker (ip : string) (st : State) : bool :=
  bool_decide (ip ∈ blockedIPs st).

Definition toLowerCase (c : ascii) : ascii :=
  if bool_decide (65 ≤ charCode c ≤ 90)
  then ascii_of_N (N_of_ascii c + 32) else c.

(** [/needle/i.test(s)] for a pattern of lower-case letters and signs. *)
Definition test_i (needle : string) (s : list ascii) : bool :=
  includes (chars needle) (toLowerCase <$> s).

Definition test (needle : string) (s : list ascii) : bool :=
  includes (chars needle) s.

(** [suspiciousPatterns] *)
Definition suspiciousPatterns : list (list ascii → bool) :=
  [ (λ s, test "%27" s || test "'" s || test "--" s || test "%23" s
          || test "#" s);
    (λ s, test_i "<script" s || test_i "<iframe" s || test_i "javascript:" s);
    (λ s, test "../" s || test "..\" s || test_i "etc/passwd" s) ].

(** [JSON.stringify(req.body) + JSON.stringify(req.query) + req.url];
    [body] and [query] are the JSON texts, [None] a body that is
    [undefined]. *)
Definition checkString (body : option string) (query url : string)
    : list ascii :=
  chars (default "undefined" body) ++ chars query ++ chars url.

(** [detectSuspiciousActivity]: does some pattern match? *)
Definition detectSuspiciousActivity (body : option string)
    (query url : string) : bool :=
  existsb (λ pattern, pattern (checkString body query url)) suspiciousPatterns.

Inductive Verdict := Forbidden | InvalidRequest | Next.

(** A request as the two middlewares see it: [server.js] mounts them
    before the body parsers, so that [req.body] is still [undefined]. *)
Record Req := mkRequest {
  req_time : Z;
  req_ip : string;
  req_query : string;
  req_url : string
}.

(** [app.use(ipBlocker)] followed by [app.use(detectSuspiciousActivity)]. *)
Definition guard (st : State) (r : Req) : Verdict * State :=
  let st := run_timers (req_time r) st in
  if ipBlocker (req_ip r) st then (Forbidden, st)
  else if detectSuspiciousActivity None (req_query r) (req_url r)
  then (InvalidRequest, blockIP (req_ip r) 3600000 (req_time r) st)
  else (Next, st).

Definition run (st : State) (requests : list Req) : State :=
  foldl (λ st r, (guard st r).2) st requests.



End Security.

(** ** Slip verification ([POST /api/thunder/verify-slip]) *)

Module Slip.

(** What [thunderApi.verifySlip] answers with. *)
Record Result := mkResult {
  slip_success : bool;
  slip_amount : Z;
  transRef : string;
  senderName : string;
  receiverName : string;
  sendingBank : string;
  receivingBank : string;
  slip_date : string;
  slip_error : option string
}.

Inductive Body :=
  | Disabled
  | NoSlip
  | AmountMismatch (slipAmount requestedAmount : Z)
  | Verified (result : Result)
  | NotVerified (error : string)
  | Failed.

Section route.

(** [Math.abs(a - b) > 0.01] for two amounts exactly one hundredth
    apart: in binary floating point the answer depends on the amounts. *)
Variable exceeds_a_hundredth : Z → Z → bool.

(** What [supabase.from('topup_requests').update({ status: 'verified',
    ... }).eq('request_id', requestId).eq('user_id', userId)] would run,
    if [supabase] were bound. *)
Variable supabase_update_verified : string → string → Result → Z → Js.M unit.

(** [amount && Math.abs(result.amount - parseFloat(amount)) > 0.01] *)
Definition mismatch (result : Result) (amount : option Z) : bool :=
  match amount with
  | None => false
  | Some amount =>
      if decide (amount = 0) then false else
      let d := Z.abs (slip_amount result - amount) in
      if decide (d = 1) then exceeds_a_hundredth (slip_amount result) amount
      else bool_decide (1 < d)
  end.

Definition verify_slip_route (enabled : bool) (userId : string)
    (slipData : option string) (amount : option Z)
    (requestId : option string) (result : Result) (now : Z)
    : Js.M (Response Body) :=
  Js.try_catch
    (if negb enabled then mret (400, Disabled) else
     if decide (slipData = None ∨ slipData = Some "")
     then mret (400, NoSlip) else
     if slip_success result then
       if mismatch result amount
       then mret (200, AmountMismatch (slip_amount result) (default 0 amount))
       else
         match requestId with
         | Some requestId =>
             if decide (requestId = "") then mret tt else
             reference "supabase";;
             supabase_update_verified requestId userId result now
         | None => mret tt
         end;;
         mret (200, Verified result)
     else
       mret (200, NotVerified
                    (js_or (slip_error result) "ไม่สามารถตรวจสอบ Slip ได้")))
    (λ _, mret (500, Failed)).

End route.

End Slip.

(** ** Requests by voucher link, and the lists of a user *)

Module Angpao.
Import JsString.


(** [slip_url LIKE '%gift.truemoney.com%'] *)
Definition like_truemoney (slip_url : option string) : Prop :=
  match slip_url with
  | Some url => includes (chars "gift.truemoney.com") (chars url) = true
  | None => False
  end.

#[global] Instance like_truemoney_dec url : Decision (like_truemoney url).
Proof. destruct url; simpl; apply _. Defined.


Inductive Body :=
  | NoLink
  | BadFormat
  | TooManyPending
  | Failed
  | Submitted (request : TopupRequest)
  | Requests (requests : list TopupRequest).

Section submit.

Variable URL_v : list ascii → option (option (list ascii)).


End submit.


(** [GET /api/wallet/topup/requests]: the newest twenty. *)
Definition topup_requests_route (userId : string) : Js.M (Response Body) :=
  Js.try_catch
    (requests ← Eff.query (λ db, take 20 (reverse (filter
        (λ r, req_user_id r = userId) (topup_requests db))));
     mret (200, Requests requests))
    (λ _, mret (500, Failed)).

End Angpao.

(** ** Orders of a user ([GET /api/orders], [GET /api/orders/:id]) *)

Module Orders.

Inductive Body :=
  | Failed
  | NotFound
  | Found (order : OrderRow)
  | Listed (orders : list OrderRow).

(** [.from('orders').select('*').eq('user_id', userId)
     .order('created_at', { ascending: false })] *)
Definition orders_route (userId : string) : Js.M (Response Body) :=
  Js.try_catch
    (orders ← Eff.query (λ db, reverse
        (filter (λ o, order_user_id o = userId) (orders db)));
     mret (200, Listed orders))
    (λ _, mret (500, Failed)).

(** [.eq('order_id', req.params.id).eq('user_id', userId).single()] *)
Definition order_route (userId orderId : string) : Js.M (Response Body) :=
  Js.try_catch
    (r ← Eff.query (λ db, Supabase.single
        (filter (λ o, order_id o = orderId ∧ order_user_id o = userId)
                (orders db)));
     match r with
     | inl _ => mret (404, NotFound)
     | inr order => mret (200, Found order)
     end)
    (λ _, mret (500, Failed)).

End Orders.

(** ** The TrueMoney client: redeeming ([redeemAngpao])

    The exchange with the provider is a collaborator: what it answers is
    an input.  Of the answer the embedding keeps what the function
    reads; its text fields are read as strings. *)

Module Redeem.
Import JsString.

(** A number as [parseFloat] gives it, in hundredths. *)
Inductive Num := NaN | Amount (hundredths : Z).

(** The part of [process.env] the function reads.  A limit is [None]
    when the variable is unset or empty, else what [parseFloat] reads of
    it. *)
Record Env := mkEnv {
  TRUEMONEY_ANGPAO_ENABLED : option string;
  TRUEMONEY_PROVIDER : option string;
  TRUEMONEY_API_KEY : option string;
  TRUEMONEY_PHONE : option string;
  TRUEMONEY_MIN_AMOUNT : option Num;
  TRUEMONEY_MAX_AMOUNT : option Num
}.

(** [PROVIDERS[providerName]]: one of the five providers, a property every
    object inherits (truthy, with none of a provider's fields), or
    nothing. *)
Inductive Provider := Known (name : string) | Inherited | Unknown.

Definition PROVIDERS (providerName : string) : Provider :=
  if decide (providerName ∈ ["easyslip"; "thunder"; "topup2p"; "paywong";
                             "custom"])
  then Known providerName
  else if decide (providerName ∈
                    ["constructor"; "__proto__"; "hasOwnProperty";
                     "isPrototypeOf"; "propertyIsEnumerable";
                     "toLocaleString"; "toString"; "valueOf";
                     "__defineGetter__"; "__defineSetter__";
                     "__lookupGetter__"; "__lookupSetter__"])
  then Inherited
  else Unknown.

(** What the function reads of [response.data]: the outcome of each of
    its five tests for success, the amount fields that are truthy, each
    as [parseFloat] reads it, and the text fields. *)
Record Data := mkData {
  success_is_true : bool;
  status_is_success : bool;
  status_is_200 : bool;
  code_is_200 : bool;
  result_is_ok : bool;
  data_amount : option Num;
  data_data_amount : option Num;
  data_voucher_amount : option Num;
  data_transaction_id : option string;
  data_txn_id : option string;
  data_ref : option string;
  data_message : option string;
  data_error : option string;
  data_msg : option string
}.

(** What [httpRequest] resolves to; [data] is [None] when the body is
    falsy. *)
Record Response := mkResponse {
  status : Z;
  data : option Data
}.

(** The messages of a failure; a limit or a status is the one the message
    quotes. *)
Inductive Message :=
  | Disabled
  | BadLink
  | AlreadyUsed
  | BadProvider
  | NoApiKey
  | NoPhone
  | BelowMinimum (minAmount : Num)
  | AboveMaximum (maxAmount : Num)
  | ProviderSaid (errorMsg : string)
  | ApiError (status : Z)
  | CannotConnect.

(** What [redeemAngpao] returns: [success: true] with the amount and the
    transaction id, or [success: false] with a message. *)
Inductive Outcome :=
  | RedeemedOk (amount : Num) (transactionId : string)
  | Refused (message : Message).

Definition truthy (v : option string) : option string :=
  match v with
  | Some s => if decide (s = "") then None else Some s
  | None => None
  end.

(** [a < b] on numbers: false when one of them is [NaN]. *)
Definition lt (a b : Num) : bool :=
  match a, b with
  | Amount a, Amount b => bool_decide (a < b)
  | _, _ => false
  end.

(** [a || b || ...]: the first operand that is there. *)
Definition first_some {A} (l : list (option A)) : option A :=
  head (omap id l).

Definition mentions_use (errorMsg : string) : bool :=
  includes (chars "ใช้") (chars errorMsg)
  || includes (chars "used") (chars errorMsg)
  || includes (chars "claimed") (chars errorMsg).

(** [redeemAngpao]; [response] is what the provider answers, [None] when
    the request fails, [now] is [Date.now()].  The result comes with the
    record of used vouchers the call leaves behind. *)
Definition redeemAngpao
    (URL_v : list ascii → option (option (list ascii)))
    (env : Env) (voucherLink : option string) (response : option Response)
    (now : Z) (usedVouchers : list string) : Outcome * list string :=
  if negb (bool_decide (TRUEMONEY_ANGPAO_ENABLED env = Some "true"))
  then (Refused Disabled, usedVouchers) else
  match TrueMoney.extractVoucherHash URL_v voucherLink with
  | None => (Refused BadLink, usedVouchers)
  | Some voucherHash =>
    if TrueMoney.isVoucherUsed voucherHash usedVouchers
    then (Refused AlreadyUsed, usedVouchers) else
    let providerName :=
      default "topup2p" (truthy (TRUEMONEY_PROVIDER env)) in
    match PROVIDERS providerName with
    | Unknown => (Refused BadProvider, usedVouchers)
    | provider =>
      if decide (truthy (TRUEMONEY_API_KEY env) = None)
      then (Refused NoApiKey, usedVouchers) else
      if decide (truthy (TRUEMONEY_PHONE env) = None)
      then (Refused NoPhone, usedVouchers) else
      match provider, response with
      | Known _, Some response =>
        match data response with
        | Some data =>
          if decide (status response = 200) then
            let isSuccess :=
              success_is_true data || status_is_success data
              || status_is_200 data || code_is_200 data
              || result_is_ok data in
            if isSuccess then
              let amount :=
                default (Amount 0)
                  (first_some [data_amount data; data_data_amount data;
                               data_voucher_amount data]) in
              let transactionId :=
                default (pretty now)
                  (first_some [truthy (data_transaction_id data);
                               truthy (data_txn_id data);
                               truthy (data_ref data)]) in
              let minAmount :=
                default (Amount (baht 10)) (TRUEMONEY_MIN_AMOUNT env) in
              let maxAmount :=
                default (Amount (baht 5000)) (TRUEMONEY_MAX_AMOUNT env) in
              if lt amount minAmount
              then (Refused (BelowMinimum minAmount), usedVouchers) else
              if lt maxAmount amount
              then (Refused (AboveMaximum maxAmount), usedVouchers) else
              (RedeemedOk amount transactionId,
               TrueMoney.markVoucherUsed voucherHash usedVouchers)
            else
              let errorMsg :=
                default "ไม่สามารถรับซองอั่งเปาได้"
                  (first_some [truthy (data_message data);
                               truthy (data_error data);
                               truthy (data_msg data)]) in
              (Refused (ProviderSaid errorMsg),
               if mentions_use errorMsg
               then TrueMoney.markVoucherUsed voucherHash usedVouchers
               else usedVouchers)
          else (Refused (ApiError (status response)), usedVouchers)
        | None => (Refused (ApiError (status response)), usedVouchers)
        end
      | _, _ => (Refused CannotConnect, usedVouchers)
      end
    end
  end.

End Redeem.

(** * Theorems *)

(** ** Equations of the helpers *)

Ltac eff :=
  unfold mbind, mret, eff_bind, eff_ret, Js.try_catch, Js.throw, Js.unwrap,
    Plpgsql.raise, Plpgsql.when_raise, Eff.try_catch, Eff.bind, Eff.ret,
    Eff.throw, Eff.query, Eff.exec in *.

Lemma getOrCreateWallet_eq userId db :
  getOrCreateWallet userId db
  = (inr (balance_of userId db), ensure_wallet userId db).
Proof.
  unfold getOrCreateWallet, balance_of, ensure_wallet,
    Supabase.wallets_select_single, Supabase.wallets_insert.
  eff. destruct (wallets db !! userId) as [b|] eqn:Hw; simpl; [done|].
  by rewrite Hw.
Qed.

Lemma getUserBalance_eq userId db :
  getUserBalance userId db
  = (inr (balance_of userId db), ensure_wallet userId db).
Proof. apply getOrCreateWallet_eq. Qed.

Lemma updateUserBalance_eq userId newBalance db :
  updateUserBalance userId newBalance db
  = (inr newBalance, set_wallets (<[userId := newBalance]>) db).
Proof. reflexivity. Qed.

Lemma addTransaction_eq userId type amt details now db :
  addTransaction userId type amt details now db
  = let db1 := ensure_wallet userId db in
    let t := mkTx (transaction_id_at now) userId type amt
                  (balance_of userId db) details in
    if decide (transaction_id_at now ∈ transaction_id <$> transactions db)
    then (inr None, db1)
    else (inr (Some t), set_transactions (λ l, l ++ [t]) db1).
Proof.
  unfold addTransaction. eff. rewrite getUserBalance_eq.
  unfold Supabase.transactions_insert. simpl.
  assert (transactions (ensure_wallet userId db) = transactions db) as ->.
  { unfold ensure_wallet. by destruct (wallets db !! userId). }
  by destruct (decide _).
Qed.

(** ** Failed purchases *)






(** C2. With three unsold units of P priced at 100 and a balance of 250,
    [purchase(A, P, 2)] answers 200, debits exactly 200, delivers exactly
    two payloads (the two oldest), leaves the balance at 50 and one unit
    unsold; a following [purchase(A, P, 1)] answers 400 with balance 50 and
    required 100 and leaves the database as it was.  The clock readings of
    the two calls are arbitrary. *)
Theorem scenario_two_then_one (now1 now2 : Z) :
  get_available_stock_count "P" Scenario.start = 3
  ∧ balance_of "A" Scenario.start = baht 250
  ∧ purchase_route "A" "P" (Some 2) (Some Scenario.P) now1 Scenario.start
    = (inr (200, Purchased (order_id_at now1) 2 (baht 200)
                   ["KEY-1"; "KEY-2"] (baht 50)),
       Scenario.after_first now1)
  ∧ balance_of "A" Scenario.start
    - balance_of "A" (Scenario.after_first now1) = baht 200
  ∧ balance_of "A" (Scenario.after_first now1) = baht 50
  ∧ get_available_stock_count "P" (Scenario.after_first now1) = 1
  ∧ purchase_route "A" "P" (Some 1) (Some Scenario.P) now2
      (Scenario.after_first now1)
    = (inr (400, NotEnoughBalance (baht 50) (baht 100)),
       Scenario.after_first now1).
Proof.
  split_and!; vm_compute; reflexivity.
Qed.

(** ** What [complete_purchase] computes *)

Lemma complete_purchase_eq u p q price pname now db :
  complete_purchase u p q price pname now db =
  match wallets db !! u with
  | None => (inl (Plpgsql.WALLET_NOT_FOUND u), db)
  | Some b =>
    if decide (b < price * q)
    then (inl (Plpgsql.INSUFFICIENT_BALANCE b (price * q)), db) else
    if decide (q < 0)
    then (inl Plpgsql.invalid_row_count_in_limit_clause, db) else
    let rows := take (Z.to_nat q) (unsold_oldest_first p db) in
    if decide (rows = [] ∨ Z.of_nat (length rows) < q)
    then (inl (Plpgsql.INSUFFICIENT_STOCK (Z.of_nat (length rows)) q), db)
    else
    let db2 := debited_and_marked u q price now b rows db in
    if decide (order_id_at now ∈ order_id <$> orders db)
    then (inl (Plpgsql.unique_violation "orders_order_id_key"), db2) else
    let db3 :=
      set_orders (λ l, l ++ [purchase_order u p q price pname now rows]) db2 in
    if decide (transaction_id_at now ∈ transaction_id <$> transactions db)
    then (inl (Plpgsql.unique_violation "transactions_transaction_id_key"),
          db3)
    else
    (inr (mkResult (order_id_at now) (transaction_id_at now)
            (stock_data <$> rows) (price * q) (b - price * q)),
     set_transactions
       (λ l, l ++ [purchase_transaction u p q price pname now b]) db3)
  end.
Proof.
  unfold complete_purchase, select_for_update, insert_order,
    insert_transaction. eff.
  destruct (wallets db !! u) as [b|]; simpl; [|done].
  rewrite (bool_decide_decide (b < price * q)).
  destruct (decide (b < price * q)); simpl; [done|].
  destruct (decide (q < 0)); simpl; [done|].
  set (rows := take (Z.to_nat q) (unsold_oldest_first p db)).
  clearbody rows.
  assert ((match array_length (stock_id <$> rows) with
           | None => true
           | Some n => bool_decide (n < q)
           end) = bool_decide (rows = [] ∨ Z.of_nat (length rows) < q)) as ->.
  { destruct rows as [|r rows']; [done|]. simpl.
      rewrite length_fmap. apply bool_decide_ext. split; [by right|].
    by intros [?|?]. }
  assert (default 0 (array_length (stock_id <$> rows))
          = Z.of_nat (length rows)) as ->.
  { destruct rows; simpl; [done|]. by rewrite length_fmap. }
  rewrite (bool_decide_decide (rows = [] ∨ _)).
  destruct (decide (rows = [] ∨ _)); simpl; [done|].
  destruct (decide (order_id_at now ∈ _)); simpl; [done|].
  destruct (decide (transaction_id_at now ∈ _)); simpl; done.
Qed.

(** ** Reservation *)

Lemma unsold_oldest_first_perm p db :
  unsold_oldest_first p db ≡ₚ filter (unsold_of p) (product_stocks db).
Proof. apply merge_sort_Permutation. Qed.

Lemma unsold_oldest_first_sorted p db :
  StronglySorted older (unsold_oldest_first p db).
Proof. apply StronglySorted_merge_sort; apply _. Qed.

Lemma unsold_oldest_first_length p db :
  Z.of_nat (length (unsold_oldest_first p db))
  = get_available_stock_count p db.
Proof.
  unfold get_available_stock_count.
  by rewrite (Permutation_length (unsold_oldest_first_perm p db)).
Qed.

Lemma selected_before_rest p db (n : nat) s s' :
  s ∈ take n (unsold_oldest_first p db) →
  s' ∈ drop n (unsold_oldest_first p db) →
  created_at s ≤ created_at s'.
Proof.
  intros Hs Hs'.
  pose proof (unsold_oldest_first_sorted p db) as Hsorted.
  rewrite <- (take_drop n (unsold_oldest_first p db)) in Hsorted.
  exact (StronglySorted_app_1_elem_of _ _ _ _ _ Hsorted Hs Hs').
Qed.

(** C5. For a quantity [q ≥ 1], the reservation query answers the unsold
    units of the product, oldest first, cut after [q]: when at least [q]
    are unsold it selects exactly [q] of them, none of which is newer than
    an unsold unit it leaves, [reserve_stock] returns them without
    writing, and a [complete_purchase] that goes through delivers their
    payloads in that order; when fewer than [q] are unsold, [reserve_stock] and
    [complete_purchase] (reached with a sufficient balance) raise
    INSUFFICIENT_STOCK with the number available and the number requested,
    and no row has been written, so no unit is marked. *)
Theorem reservation_takes_oldest (p : string) (q : Z) (db : DB) :
  1 ≤ q →
  let available := get_available_stock_count p db in
  let oldest_first := unsold_oldest_first p db in
  let rows := take (Z.to_nat q) oldest_first in
  oldest_first ≡ₚ filter (unsold_of p) (product_stocks db)
  ∧ StronglySorted older oldest_first
  ∧ (q ≤ available →
       select_for_update p q db = (inr rows, db)
       ∧ Z.of_nat (length rows) = q
       ∧ (∀ s, s ∈ rows → s ∈ product_stocks db ∧ unsold_of p s)
       ∧ (∀ s s', s ∈ rows → s' ∈ drop (Z.to_nat q) oldest_first →
                  created_at s ≤ created_at s')
       ∧ (∀ u, reserve_stock p q u db
               = (inr ((λ s, (stock_id s, stock_data s)) <$> rows), db))
       ∧ ∀ u price pname now b,
           wallets db !! u = Some b → price * q ≤ b →
           (order_id_at now ∉ order_id <$> orders db) →
           (transaction_id_at now ∉ transaction_id <$> transactions db) →
           complete_purchase u p q price pname now db
           = (inr (mkResult (order_id_at now) (transaction_id_at now)
                     (stock_data <$> rows) (price * q) (b - price * q)),
              settled u p q price pname now b rows db))
  ∧ (available < q →
       (∀ u, reserve_stock p q u db
             = (inl (Plpgsql.INSUFFICIENT_STOCK available q), db))
       ∧ ∀ u price pname now b,
           wallets db !! u = Some b → price * q ≤ b →
           complete_purchase u p q price pname now db
           = (inl (Plpgsql.INSUFFICIENT_STOCK available q), db)).
Proof.
  intros Hq available oldest_first rows.
  pose proof (unsold_oldest_first_length p db) as Hlen.
  fold available oldest_first in Hlen.
  assert (select_for_update p q db = (inr rows, db)) as Hsel.
  { unfold select_for_update. destruct (decide (q < 0)); [lia|done]. }
  split; [apply unsold_oldest_first_perm|].
  split; [apply unsold_oldest_first_sorted|].
  split.
  - intros Henough.
    assert (Z.of_nat (length rows) = q) as Hrows.
    { unfold rows. rewrite length_take_le; lia. }
    split_and!; try done.
    + intros s Hs. apply elem_of_take in Hs as (i & Hs & _).
      apply list_elem_of_lookup_2 in Hs.
      unfold oldest_first in Hs.
      rewrite (unsold_oldest_first_perm p db) in Hs.
      by apply list_elem_of_filter in Hs as [? ?].
    + intros s s'. apply selected_before_rest.
    + intros u. unfold reserve_stock. eff. rewrite Hsel. simpl.
      rewrite bool_decide_eq_false_2 by lia. done.
    + intros u price pname now b Hw Hb Hord Htx.
      rewrite complete_purchase_eq, Hw.
      destruct (decide (b < price * q)); [lia|].
      destruct (decide (q < 0)); [lia|]. simpl. fold oldest_first rows.
      destruct (decide (rows = [] ∨ Z.of_nat (length rows) < q))
        as [[Hnil|Hlt]|_]; [rewrite Hnil in Hrows; simpl in Hrows; lia|lia|].
      destruct (decide (order_id_at now ∈ _)); [done|].
      destruct (decide (transaction_id_at now ∈ _)); [done|]. done.
  - intros Hshort.
    assert (Z.of_nat (length rows) = available) as Hrows.
    { unfold rows. rewrite length_take_ge; lia. }
    split.
    + intros u. unfold reserve_stock. eff. rewrite Hsel. simpl.
      rewrite Hrows. rewrite bool_decide_eq_true_2 by lia. done.
    + intros u price pname now b Hw Hb.
      rewrite complete_purchase_eq, Hw.
      destruct (decide (b < price * q)); [lia|].
      destruct (decide (q < 0)); [lia|]. simpl. fold oldest_first rows.
      rewrite Hrows.
      destruct (decide (rows = [] ∨ available < q)) as [|Hno]; [done|].
      destruct Hno. by right.
Qed.

Lemma reservation_takes_oldest_witness :
  1 ≤ 2
  ∧ 2 ≤ get_available_stock_count "P" Scenario.start
  ∧ select_for_update "P" 2 Scenario.start
    = (inr [Scenario.unit1; Scenario.unit2], Scenario.start).
Proof.
  assert (1 ≤ 2) as H1 by lia.
  assert (2 ≤ get_available_stock_count "P" Scenario.start) as H2
    by (vm_compute; discriminate).
  split; [exact H1|]. split; [exact H2|].
  exact (proj1 (proj1 (proj2 (proj2
           (reservation_takes_oldest "P" 2 Scenario.start H1))) H2)).
Defined.

(** ** What the wallet routes compute *)

Lemma balance_of_ensure_wallet u v db :
  balance_of u (ensure_wallet v db) = balance_of u db.
Proof.
  unfold balance_of, ensure_wallet.
  destruct (wallets db !! v) eqn:Hv; [done|]. simpl.
  destruct (decide (v = u)) as [->|].
  - by rewrite lookup_insert_eq, Hv.
  - by rewrite lookup_insert_ne.
Qed.

Lemma set_balance_ensure_wallet u b db :
  set_wallets (<[u := b]>) (ensure_wallet u db) = set_wallets (<[u := b]>) db.
Proof.
  unfold ensure_wallet. destruct (wallets db !! u); [done|].
  unfold set_wallets. simpl. by rewrite insert_insert_eq.
Qed.

Lemma ensure_wallet_set_balance u b db :
  ensure_wallet u (set_wallets (<[u := b]>) db) = set_wallets (<[u := b]>) db.
Proof.
  unfold ensure_wallet.
  replace (wallets (set_wallets <[u:=b]> db) !! u) with (Some b); [done|].
  unfold set_wallets. simpl. by rewrite lookup_insert_eq.
Qed.

Lemma ensure_wallet_idemp u db :
  ensure_wallet u (ensure_wallet u db) = ensure_wallet u db.
Proof.
  destruct (wallets db !! u) eqn:Hu.
  - assert (ensure_wallet u db = db) as H; [|by rewrite !H].
    unfold ensure_wallet. by rewrite Hu.
  - assert (ensure_wallet u db = set_wallets (<[u := 0]>) db) as ->.
    { unfold ensure_wallet. by rewrite Hu. }
    apply ensure_wallet_set_balance.
Qed.

Lemma balance_of_set_balance u b db :
  balance_of u (set_wallets (<[u := b]>) db) = b.
Proof. unfold balance_of. simpl. by rewrite lookup_insert_eq. Qed.

Lemma write_then_record u delta type details now db :
  (updateUserBalance u (balance_of u db + delta);;
   addTransaction u type delta details now) (ensure_wallet u db)
  = let '(t, db') := moved u delta type details now db in (inr t, db').
Proof.
  eff. rewrite updateUserBalance_eq, set_balance_ensure_wallet.
  rewrite addTransaction_eq, ensure_wallet_set_balance,
    balance_of_set_balance.
  unfold moved. simpl. by destruct (decide _).
Qed.

Lemma wallet_route_eq u db :
  wallet_route u db
  = (inr (200, Wallet (balance_of u db)
                 (take 5 (reverse (ledger_of u (ensure_wallet u db))))),
     ensure_wallet u db).
Proof.
  unfold wallet_route, getUserTransactions. eff.
  by rewrite getUserBalance_eq.
Qed.

Lemma deduct_route_eq u amt pid pname now db :
  deduct_route u amt pid pname now db =
  if decide (amt ≤ 0) then (inr (400, DeductInvalidAmount), db) else
  if decide (balance_of u db < amt)
  then (inr (400, DeductNotEnough (balance_of u db) amt), ensure_wallet u db)
  else let '(t, db') :=
         moved u (- amt) purchase (DeductDetails pid pname) now db in
       (inr (200, Deducted (balance_of u db - amt) t), db').
Proof.
  unfold deduct_route.
  destruct (decide (amt ≤ 0)); [done|].
  eff. rewrite getUserBalance_eq.
  destruct (decide (balance_of u db < amt)); [done|].
  pose proof (write_then_record u (- amt) purchase (DeductDetails pid pname)
                now db) as H.
  eff. replace (balance_of u db - amt) with (balance_of u db + - amt) by lia.
  destruct (updateUserBalance _ _ _) as [[?|?] ?]; simpl in *.
  - destruct (moved _ _ _ _ _ _); congruence.
  - rewrite H. by destruct (moved _ _ _ _ _ _).
Qed.

Lemma admin_topup_route_eq ad u amt note now db :
  admin_topup_route ad u amt note now db =
  if decide (u = "" ∨ amt ≤ 0) then (inr (400, AdminTopupInvalid), db) else
  let '(_, db') :=
    moved u amt topup (AdminTopupDetails (js_or note "Admin topup") ad) now db
  in (inr (200, AdminTopupDone (balance_of u db + amt)), db').
Proof.
  unfold admin_topup_route.
  destruct (decide (u = "" ∨ amt ≤ 0)); [done|].
  eff. rewrite getOrCreateWallet_eq, getUserBalance_eq, ensure_wallet_idemp,
    balance_of_ensure_wallet.
  pose proof (write_then_record u amt topup
                (AdminTopupDetails (js_or note "Admin topup") ad) now db) as H.
  eff.
  destruct (updateUserBalance _ _ _) as [[?|?] ?]; simpl in *.
  - destruct (moved _ _ _ _ _ _); congruence.
  - rewrite H. by destruct (moved _ _ _ _ _ _).
Qed.

(** ** What the top-up routes compute *)

Lemma approve_route_eq ad rid note bodyAmount now db :
  approve_route ad rid note bodyAmount now db =
  match Supabase.single (pending_with_id rid db) with
  | inl _ => (inr (404, NotPending), db)
  | inr request =>
    let amount := approved_amount bodyAmount request in
    if decide (amount ≤ 0) then (inr (400, AmountMissing), db) else
    let db1 :=
      patch_requests
        (reviewed approved (Some amount) (js_or note "อนุมัติแล้ว") ad now)
        rid db in
    let '(_, db') :=
      moved (req_user_id request) amount topup
        (ApproveDetails (req_method request) rid ad
           (js_or note "อนุมัติโดย Admin")) now db1 in
    (inr (200, Approved amount (balance_of (req_user_id request) db + amount)),
     db')
  end.
Proof.
  unfold approve_route, approve_route_with,
    Supabase.topup_requests_select_pending,
    Supabase.topup_requests_update. eff. fold (pending_with_id rid db).
  destruct (Supabase.single (pending_with_id rid db)) as [?|request];
    simpl; [done|].
  destruct (decide (approved_amount bodyAmount request ≤ 0)); simpl; [done|].
  fold (patch_requests
          (reviewed approved (Some (approved_amount bodyAmount request))
             (js_or note "อนุมัติแล้ว") ad now) rid db).
  set (db1 := patch_requests _ rid db).
  rewrite getOrCreateWallet_eq, getUserBalance_eq, ensure_wallet_idemp,
    balance_of_ensure_wallet.
  assert (balance_of (req_user_id request) db
          = balance_of (req_user_id request) db1) as Hbal by done.
  rewrite Hbal.
  pose proof (write_then_record (req_user_id request)
                (approved_amount bodyAmount request) topup
                (ApproveDetails (req_method request) rid ad
                   (js_or note "อนุมัติโดย Admin")) now db1) as H.
  eff. rewrite updateUserBalance_eq in H. simpl in H. rewrite H.
  by destruct (moved _ _ _ _ _ _).
Qed.

Lemma reject_route_eq ad rid note reason now db :
  reject_route ad rid note reason now db =
  match Supabase.single (pending_with_id rid db) with
  | inl _ => (inr (404, NotPending), db)
  | inr request =>
    (inr (200, Rejected),
     patch_requests
       (reviewed rejected None
          (js_or note (js_or reason "ปฏิเสธโดย Admin")) ad now) rid db)
  end.
Proof.
  unfold reject_route, Supabase.topup_requests_select_pending,
    Supabase.topup_requests_update. eff. fold (pending_with_id rid db).
  by destruct (Supabase.single (pending_with_id rid db)).
Qed.

Lemma cancel_route_eq u rid db :
  cancel_route u rid db =
  match Supabase.single
          (filter (λ r, request_id r = rid ∧ req_user_id r = u
                        ∧ req_status r = pending) (topup_requests db)) with
  | inl _ => (inr (404, NotPending), db)
  | inr request =>
    (inr (200, Cancelled), patch_requests (with_status cancelled) rid db)
  end.
Proof.
  unfold cancel_route, Supabase.topup_requests_select_pending_of,
    Supabase.topup_requests_update. eff.
  by destruct (Supabase.single _).
Qed.

Lemma topup_route_wallets u amt m slip now db :
  wallets (topup_route u amt m slip now db).2 = wallets db
  ∧ transactions (topup_route u amt m slip now db).2 = transactions db
  ∧ orders (topup_route u amt m slip now db).2 = orders db
  ∧ product_stocks (topup_route u amt m slip now db).2 = product_stocks db.
Proof.
  unfold topup_route, Supabase.topup_requests_pending_of,
    Supabase.topup_requests_insert. eff.
  repeat (match goal with
          | |- context [ decide ?P ] => destruct (decide P); simpl
          end; try done).
Qed.

(** The redeem handler never reaches a write. *)
Lemma redeem_route_eq updateBalance u link validation result now db :
  redeem_route updateBalance u link validation result now db =
  (inr (if decide (link = None ∨ link = Some "") then (400, RedeemNoLink)
        else if negb (valid validation) then (400, RedeemBadFormat)
        else if alreadyUsed validation then (400, RedeemAlreadyUsed)
        else if negb (success result) then (400, RedeemRefused)
        else (500, RedeemFailed)),
   db).
Proof.
  unfold redeem_route, reference. eff.
  destruct (decide (link = None ∨ link = Some "")); simpl; [done|].
  destruct (valid validation); simpl; [|done].
  destruct (alreadyUsed validation); simpl; [done|].
  destruct (success result); simpl; [|done].
  destruct (decide ("updateBalance" ∈ server_js_bindings)) as [Hin|];
    simpl; [|done].
  exfalso. revert Hin. refine (bool_decide_eq_false_1 _ _). by vm_compute.
Qed.

(** ** The angpao redeem endpoint *)

(** C10. When the voucher link is well formed and unused and the external
    redeem succeeds, the handler of [POST /api/truemoney/redeem] evaluates
    the unbound identifier [updateBalance], which throws; the caller gets
    status 500 and the database is the one the call started from.  On
    every input the endpoint leaves the database, so wallets and the
    transactions table, untouched. *)
Theorem redeem_throws_before_crediting
    (updateBalance : string → Z → Js.M unit) u link validation result now db :
  link ≠ None → link ≠ Some "" →
  valid validation = true → alreadyUsed validation = false →
  success result = true →
  reference "updateBalance" db = (inl (Js.ReferenceError "updateBalance"), db)
  ∧ redeem_route updateBalance u link validation result now db
    = (inr (500, RedeemFailed), db)
  ∧ ∀ link' validation' result' now' db',
      (redeem_route updateBalance u link' validation' result' now' db').2
      = db'.
Proof.
  intros Hl1 Hl2 Hvalid Hused Hok. split_and!.
  - by vm_compute.
  - rewrite redeem_route_eq, Hvalid, Hused, Hok.
    destruct (decide (link = None ∨ link = Some "")) as [[?|?]|]; done.
  - intros. by rewrite redeem_route_eq.
Qed.

Lemma redeem_throws_before_crediting_witness :
  redeem_route (λ u a, Eff.exec (set_wallets (<[u := a]>))) "A"
    (Some "https://gift.truemoney.com/campaign/?v=abc")
    (mkValidation true "abc" false) (mkRedeem true (baht 100) "T1")
    1700000000000
    empty_db
  = (inr (500, RedeemFailed), empty_db).
Proof.
  refine (proj1 (proj2 (redeem_throws_before_crediting _ "A"
    (Some "https://gift.truemoney.com/campaign/?v=abc")
    (mkValidation true "abc" false) (mkRedeem true (baht 100) "T1")
    1700000000000
    empty_db _ _ _ _ _))); first [discriminate | reflexivity].
Defined.

(** ** Quantity validation *)

(** C9. A purchase request whose quantity is an integer [≤ 0] or [> 100]
    is answered 400 by the validation in front of the handler, whatever
    the stored procedure behind [rpc('complete_purchase')] would do: the
    procedure is not invoked, nothing is retried and the database is left
    as it was. *)
Theorem invalid_quantity_rejected
    (procedure : string → string → Z → Z → string → Z → Plpgsql.M PurchaseResult)
    u p (q : Z) product now db :
  q ≤ 0 ∨ 100 < q →
  purchase_with procedure u p (Some q) product now db
  = (inr (400, ValidationFailed), db).
Proof.
  intros Hq. unfold purchase_with, purchaseValidation.
  rewrite bool_decide_eq_false_2 by lia. done.
Qed.

Lemma invalid_quantity_rejected_witness :
  (0 ≤ 0 ∨ 100 < 0)
  ∧ purchase_route "A" "P" (Some 0) (Some Scenario.P) 1700000000
      Scenario.start
    = (inr (400, ValidationFailed), Scenario.start).
Proof.
  assert (0 ≤ 0 ∨ 100 < 0) as H by (left; lia).
  split; [exact H|].
  exact (invalid_quantity_rejected complete_purchase "A" "P" 0
           (Some Scenario.P) 1700000000 Scenario.start H).
Defined.

Lemma handler_rejects_out_of_range
    (procedure : string → string → Z → Z → string → Z → Plpgsql.M PurchaseResult)
    u p (q : Z) product now db :
  q < 0 ∨ 100 < q →
  purchase_handler_with procedure u p (Some q) product now db
  = (inr (400, QuantityOutOfRange), db).
Proof.
  intros Hq. unfold purchase_handler_with, parseInt_or_1. eff.
  destruct (decide (q = 0)); [lia|].
  destruct (decide (q < 1 ∨ q > 100)); [done|lia].
Qed.

(** ** What the purchase route computes *)

Lemma purchase_route_cases u p quantity product now db :
  (∃ status body,
      status ≠ 200
      ∧ purchase_route u p quantity product now db
        = (inr (status, body), db))
  ∨ (∃ prod b,
      let q := parseInt_or_1 quantity in
      let rows := take (Z.to_nat q) (unsold_oldest_first p db) in
      product = Some prod
      ∧ 1 ≤ q ≤ 100 ∧ 0 ≤ price prod
      ∧ wallets db !! u = Some b ∧ price prod * q ≤ b
      ∧ Z.of_nat (length rows) = q
      ∧ (order_id_at now ∉ order_id <$> orders db)
      ∧ (transaction_id_at now ∉ transaction_id <$> transactions db)
      ∧ purchase_route u p quantity product now db
        = (inr (200, Purchased (order_id_at now) q (price prod * q)
                       (stock_data <$> rows) (b - price prod * q)),
           settled u p q (price prod) (name prod) now b rows db)).
Proof.
  unfold purchase_route, purchase_with, purchase_handler_with, Supabase.rpc,
    Plpgsql.rpc. eff.
  destruct (purchaseValidation quantity); simpl;
    [|left; by exists 400, ValidationFailed].
  destruct (decide (_ ∨ _)) as [|Hrange]; simpl;
    [left; by exists 400, QuantityOutOfRange|].
  destruct product as [prod|]; simpl;
    [|left; by exists 404, ProductNotFound].
  destruct (is_active prod); simpl;
    [|left; by exists 400, ProductNotForSale].
  destruct (decide (price prod < 0)); simpl;
    [left; by exists 400, InvalidPrice|].
  rewrite complete_purchase_eq.
  destruct (wallets db !! u) as [b|] eqn:Hw; simpl;
    [|left; by exists 400, NoWallet].
  destruct (decide (b < _)); simpl.
  { left. destruct (decide (0 ≤ b ∧ _)); simpl; by eexists 400, _. }
  destruct (decide (parseInt_or_1 quantity < 0)); simpl;
    [left; by exists 500, PurchaseFailed|].
  destruct (decide (_ ∨ _)) as [|Hrows]; simpl.
  { left. eexists 400, _. done. }
  destruct (decide (order_id_at now ∈ _)); simpl;
    [left; by exists 500, PurchaseFailed|].
  destruct (decide (transaction_id_at now ∈ _)); simpl;
    [left; by exists 500, PurchaseFailed|].
  right. exists prod, b. split_and!; try done; try lia.
  assert (¬ Z.of_nat (length (take (Z.to_nat (parseInt_or_1 quantity))
                                (unsold_oldest_first p db)))
            < parseInt_or_1 quantity) as Hlen by tauto.
  rewrite length_take in *. lia.
Qed.

(** ** Every request is one step of the ledger *)

Lemma ensure_wallet_step may_debit tid u db :
  ledger_step may_debit tid db (ensure_wallet u db).
Proof.
  unfold ensure_wallet. destruct (wallets db !! u) eqn:Hu.
  - by apply step_frame.
  - by apply (step_create _ _ _ _ u).
Qed.

Lemma moved_step may_debit u delta type details now db :
  0 ≤ balance_of u db + delta →
  (may_debit = false → 0 ≤ delta) →
  ledger_step may_debit (Some (transaction_id_at now)) db
    (moved u delta type details now db).2.
Proof.
  intros Hnonneg Hsign. unfold moved.
  destruct (decide (transaction_id_at now ∈ _)) as [Hin|Hnotin]; simpl.
  - by eapply (step_lost _ _ _ _ u delta).
  - by eapply (step_move _ _ _ _ u delta).
Qed.

Lemma ledger_step_frame_l may_debit tid db0 db db' :
  wallets db = wallets db0 → transactions db = transactions db0 →
  ledger_step may_debit tid db db' → ledger_step may_debit tid db0 db'.
Proof.
  intros Hw Ht Hstep.
  assert (∀ u, balance_of u db = balance_of u db0) as Hb
    by (intros u; unfold balance_of; by rewrite Hw).
  destruct Hstep as [| u | u delta t | u delta id].
  - apply step_frame; congruence.
  - apply (step_create _ _ _ _ u); congruence.
  - apply (step_move _ _ _ _ u delta t); rewrite <- ?Hb, <- ?Hw, <- ?Ht; done.
  - apply (step_lost _ _ _ _ u delta id);
      rewrite <- ?Hb, <- ?Hw, <- ?Ht; done.
Qed.

Lemma alter_present (w : gmap string Z) (u : string) (b x : Z) :
  w !! u = Some b → alter (λ _, x) u w = <[u := x]> w.
Proof.
  intros Hu. apply map_eq. intros v. destruct (decide (u = v)) as [<-|Hne].
  - by rewrite lookup_alter_eq, lookup_insert_eq, Hu.
  - by rewrite lookup_alter_ne, lookup_insert_ne.
Qed.

Lemma balance_of_nonneg u db : nonnegative db → 0 ≤ balance_of u db.
Proof.
  intros Hnn. unfold balance_of.
  destruct (wallets db !! u) as [b|] eqn:Hu; simpl; [|done].
  by apply (Hnn u).
Qed.

Lemma serve_ledger_step updateBalance db q :
  nonnegative db →
  ledger_step (is_debit q) (request_transaction_id q) db
    (serve updateBalance db q).
Proof.
  intros Hnn.
  destruct q as [u p n pr now | u | u a p pn now | ad u a n now
                | u a m s now | u r | ad r n a now | ad r n re now
                | u l v r now | ad p items now]; simpl.
  - destruct (purchase_route_cases u p n pr now db)
      as [(status & body & _ & ->) | (prod & b & Hcase)]; simpl.
    { by apply step_frame. }
    destruct Hcase as (-> & Hq & Hprice & Hw & Hb & _ & _ & Hfresh & ->).
    simpl.
    assert (balance_of u db = b) as Hbal by (unfold balance_of; by rewrite Hw).
    apply (step_move _ _ _ _ u (- (price prod * parseInt_or_1 n))
             (purchase_transaction u p (parseInt_or_1 n) (price prod)
                (name prod) now b)); simpl; rewrite ?Hbal; try done; try lia.
    by rewrite (alter_present _ _ b).
  - rewrite wallet_route_eq. apply ensure_wallet_step.
  - rewrite deduct_route_eq.
    destruct (decide (a ≤ 0)); [by apply step_frame|].
    destruct (decide (balance_of u db < a)); [apply ensure_wallet_step|].
    pose proof (moved_step true u (- a) purchase (DeductDetails p pn) now db)
      as H.
    destruct (moved _ _ _ _ _ _). apply H; [lia|done].
  - rewrite admin_topup_route_eq.
    destruct (decide (u = "" ∨ a ≤ 0)); [by apply step_frame|].
    pose proof (moved_step false u a topup
                  (AdminTopupDetails (js_or n "Admin topup") ad) now db) as H.
    pose proof (balance_of_nonneg u db Hnn).
    destruct (moved _ _ _ _ _ _). apply H; lia.
  - destruct (topup_route_wallets u a m s now db) as (? & ? & _).
    by apply step_frame.
  - rewrite cancel_route_eq. destruct (Supabase.single _); by apply step_frame.
  - rewrite approve_route_eq.
    destruct (Supabase.single _) as [|request]; [by apply step_frame|].
    simpl. destruct (decide (_ ≤ 0)); [by apply step_frame|].
    set (db1 := patch_requests _ r db).
    pose proof (moved_step false (req_user_id request)
                  (approved_amount a request) topup
                  (ApproveDetails (req_method request) r ad
                     (js_or n "อนุมัติโดย Admin")) now db1) as H.
    pose proof (balance_of_nonneg (req_user_id request) db Hnn).
    destruct (moved _ _ _ _ _ _). simpl.
    apply (ledger_step_frame_l _ _ db db1); [done|done|].
    apply H; [|lia].
    assert (balance_of (req_user_id request) db1
            = balance_of (req_user_id request) db) as -> by done.
    lia.
  - rewrite reject_route_eq. destruct (Supabase.single _); by apply step_frame.
  - rewrite redeem_route_eq. by apply step_frame.
  - by apply step_frame.
Qed.

(** ** No negative balance *)

Lemma ledger_step_balance may_debit tid db db' v :
  ledger_step may_debit tid db db' →
  ∃ delta, balance_of v db' = balance_of v db + delta
           ∧ (may_debit = false → 0 ≤ delta)
           ∧ (delta ≠ 0 → 0 ≤ balance_of v db + delta).
Proof.
  unfold balance_of.
  intros [Hw _ | u Hu Hw _ | u delta t Hw Hnn Hsign _ _ _ _ _
         | u delta id Hw Hnn Hsign _ _ _]; rewrite Hw.
  - exists 0. split_and!; [lia|done|done].
  - exists 0. split_and!; [|done|done].
    destruct (decide (u = v)) as [<-|].
    + by rewrite lookup_insert_eq, Hu.
    + rewrite lookup_insert_ne by done. lia.
  - destruct (decide (u = v)) as [<-|].
    + exists delta. by rewrite lookup_insert_eq.
    + exists 0. rewrite lookup_insert_ne by done. split_and!; [lia|done|done].
  - destruct (decide (u = v)) as [<-|].
    + exists delta. by rewrite lookup_insert_eq.
    + exists 0. rewrite lookup_insert_ne by done. split_and!; [lia|done|done].
Qed.

Lemma ledger_step_nonnegative may_debit tid db db' :
  nonnegative db → ledger_step may_debit tid db db' → nonnegative db'.
Proof.
  intros Hnn Hstep v b Hv.
  destruct (ledger_step_balance _ _ _ _ v Hstep) as (delta & Hb & _ & Hd).
  pose proof (balance_of_nonneg v db Hnn).
  unfold balance_of in Hb at 1. rewrite Hv in Hb. simpl in Hb.
  destruct (decide (delta = 0)); [lia|]. specialize (Hd ltac:(done)). lia.
Qed.

Lemma serve_nonnegative updateBalance db q :
  nonnegative db → nonnegative (serve updateBalance db q).
Proof.
  intros Hnn. eapply ledger_step_nonnegative; [done|].
  by apply serve_ledger_step.
Qed.

Lemma run_nonnegative updateBalance qs db :
  nonnegative db → nonnegative (run updateBalance qs db).
Proof.
  revert db. induction qs as [|q qs IH]; intros db Hnn; simpl; [done|].
  apply IH. by apply serve_nonnegative.
Qed.

Lemma empty_db_nonnegative : nonnegative empty_db.
Proof. intros u b Hu. simpl in Hu. by rewrite lookup_empty in Hu. Qed.

(** The deduct handler run for an account without a wallet row creates
    the row before it answers 400: that no failing deduct writes rests on
    the login having created the wallet. *)
Remark deduct_handler_alone_creates_wallet :
  deduct_route "A" (baht 5) None None 1700000000000 empty_db
  = (inr (400, DeductNotEnough 0 (baht 5)),
     mkDB {[ "A" := 0 ]} [] [] [] [])
  ∧ mkDB {[ "A" := 0 ]} [] [] [] [] ≠ empty_db.
Proof.
  split; [by vm_compute|].
  intros H. apply (f_equal (λ db, wallets db !! "A")) in H.
  by vm_compute in H.
Qed.


Lemma dispatch_store updateBalance ADMIN_IDS st h :
  store (dispatch updateBalance ADMIN_IDS st h) = store st
  ∨ (h = Login (match h with Login u => u | _ => "" end)
     ∧ store (dispatch updateBalance ADMIN_IDS st h)
       = ensure_wallet (match h with Login u => u | _ => "" end) (store st))
  ∨ (∃ q, h = Call q
          ∧ store (dispatch updateBalance ADMIN_IDS st h)
            = serve updateBalance (store st) q).
Proof.
  destruct h as [u|u|q]; simpl.
  - right. left. by rewrite getOrCreateWallet_eq.
  - by left.
  - destruct (if admin_route q then _ else _); [|by left].
    right. right. by exists q.
Qed.

(** What the application does to the database is a run of handlers. *)
Lemma app_run_is_handler_run updateBalance ADMIN_IDS hs st :
  ∃ qs, store (foldl (dispatch updateBalance ADMIN_IDS) st hs)
        = run updateBalance qs (store st).
Proof.
  revert st. induction hs as [|h hs IH]; intros st; simpl.
  { by exists []. }
  destruct (IH (dispatch updateBalance ADMIN_IDS st h)) as [qs ->].
  destruct (dispatch_store updateBalance ADMIN_IDS st h)
    as [-> | [[_ ->] | (q & _ & ->)]].
  - by exists qs.
  - exists (GetWallet (match h with Login u => u | _ => "" end) :: qs).
    simpl. by rewrite wallet_route_eq.
  - by exists (q :: qs).
Qed.






(** ** Order identifiers *)

Lemma serve_orders updateBalance db q :
  orders (serve updateBalance db q) = orders db
  ∨ ∃ o, orders (serve updateBalance db q) = orders db ++ [o].
Proof.
  destruct q as [u p n pr now | u | u a p pn now | ad u a n now
                | u a m s now | u r | ad r n a now | ad r n re now
                | u l v r now | ad p items now]; simpl.
  - destruct (purchase_route_cases u p n pr now db)
      as [(status & body & _ & ->) | (prod & b & Hcase)]; simpl; [by left|].
    destruct Hcase as (_ & _ & _ & _ & _ & _ & _ & _ & ->). right.
    by eexists.
  - left. rewrite wallet_route_eq. simpl. unfold ensure_wallet.
    by destruct (wallets db !! u).
  - left. rewrite deduct_route_eq.
    destruct (decide (a ≤ 0)); [done|].
    destruct (decide (balance_of u db < a)).
    + simpl. unfold ensure_wallet. by destruct (wallets db !! u).
    + unfold moved. by destruct (decide _).
  - left. rewrite admin_topup_route_eq.
    destruct (decide (u = "" ∨ a ≤ 0)); [done|].
    unfold moved. by destruct (decide _).
  - left. by destruct (topup_route_wallets u a m s now db) as (_ & _ & ? & _).
  - left. rewrite cancel_route_eq. by destruct (Supabase.single _).
  - left. rewrite approve_route_eq.
    destruct (Supabase.single _) as [|request]; [done|]. simpl.
    destruct (decide (_ ≤ 0)); [done|].
    unfold moved. by destruct (decide _).
  - left. rewrite reject_route_eq. by destruct (Supabase.single _).
  - left. by rewrite redeem_route_eq.
  - by left.
Qed.

Lemma run_keeps_order_ids updateBalance qs db id :
  id ∈ order_id <$> orders db →
  id ∈ order_id <$> orders (run updateBalance qs db).
Proof.
  revert db. induction qs as [|q qs IH]; intros db Hid; simpl; [done|].
  apply IH.
  destruct (serve_orders updateBalance db q) as [-> | [o ->]]; [done|].
  rewrite fmap_app. apply elem_of_app. by left.
Qed.

Lemma purchase_route_success u p n pr now db oid q tot del nb db' :
  purchase_route u p n pr now db = (inr (200, Purchased oid q tot del nb), db') →
  ∃ prod b,
    let rows := take (Z.to_nat q) (unsold_oldest_first p db) in
    pr = Some prod ∧ q = parseInt_or_1 n ∧ wallets db !! u = Some b
    ∧ oid = order_id_at now
    ∧ (order_id_at now ∉ order_id <$> orders db)
    ∧ db' = settled u p q (price prod) (name prod) now b rows db.
Proof.
  intros Hrun.
  destruct (purchase_route_cases u p n pr now db)
    as [(status & body & Hne & Heq) | (prod & b & Hcase)].
  - rewrite Heq in Hrun. congruence.
  - destruct Hcase as (-> & _ & _ & Hw & _ & _ & Hfresh & _ & Heq).
    rewrite Heq in Hrun. injection Hrun as <- <- <- <- <- <-.
    by exists prod, b.
Qed.

(** C8. Two purchase calls that both succeed, the second served after the
    first with any handler runs in between (every run of the application
    is one, [app_run_is_handler_run]), write under different order ids:
    the id is derived from the clock second, [orders.order_id] is unique,
    and a call whose id is taken is rolled back.  Each call's order row
    and ledger entry carry its id, and so does every stock unit the call
    changed. *)
Theorem successful_purchases_have_distinct_order_ids
    (updateBalance : string → Z → Js.M unit) (between : list Request) db
    u1 p1 n1 pr1 now1 oid1 q1 tot1 del1 nb1 db1
    u2 p2 n2 pr2 now2 oid2 q2 tot2 del2 nb2 db2 :
  purchase_route u1 p1 n1 pr1 now1 db
  = (inr (200, Purchased oid1 q1 tot1 del1 nb1), db1) →
  purchase_route u2 p2 n2 pr2 now2 (run updateBalance between db1)
  = (inr (200, Purchased oid2 q2 tot2 del2 nb2), db2) →
  oid1 ≠ oid2
  ∧ oid1 = order_id_at now1 ∧ oid2 = order_id_at now2
  ∧ (∃ o, last (orders db1) = Some o ∧ order_id o = oid1)
  ∧ (∃ t, last (transactions db1) = Some t ∧ references_order oid1 t)
  ∧ (∀ s, s ∈ product_stocks db1 → s ∉ product_stocks db →
          stock_order_id s = Some oid1).
Proof.
  intros H1 H2.
  apply purchase_route_success in H1
    as (prod1 & b1 & _ & _ & _ & -> & Hfresh1 & ->).
  apply purchase_route_success in H2
    as (prod2 & b2 & _ & _ & _ & -> & Hfresh2 & _).
  split_and!; try done.
  - intros Heq. apply Hfresh2. rewrite <- Heq.
    apply run_keeps_order_ids. simpl. rewrite fmap_app.
    apply elem_of_app. right. simpl. apply list_elem_of_singleton. done.
  - eexists. split; [apply last_snoc|done].
  - eexists. split; [apply last_snoc|done].
  - simpl. intros s Hs Hnew.
    apply list_elem_of_fmap in Hs as (s0 & -> & Hs0).
    unfold mark_sold in *. destruct (decide (stock_id s0 ∈ _)); [done|].
    by destruct Hnew.
Qed.

Lemma successful_purchases_have_distinct_order_ids_witness :
  let db1 :=
    (purchase_route "A" "P" (Some 1) (Some Scenario.P) 1700000000
       Scenario.start).2 in
  let db2 :=
    (purchase_route "A" "P" (Some 1) (Some Scenario.P) 1700000001 db1).2 in
  purchase_route "A" "P" (Some 1) (Some Scenario.P) 1700000000 Scenario.start
  = (inr (200, Purchased "ORD1700000000" 1 (baht 100) ["KEY-1"] (baht 150)),
     db1)
  ∧ purchase_route "A" "P" (Some 1) (Some Scenario.P) 1700000001 db1
    = (inr (200, Purchased "ORD1700000001" 1 (baht 100) ["KEY-2"] (baht 50)),
       db2)
  ∧ "ORD1700000000" ≠ "ORD1700000001".
Proof.
  intros db1 db2.
  assert (purchase_route "A" "P" (Some 1) (Some Scenario.P) 1700000000
            Scenario.start
          = (inr (200, Purchased "ORD1700000000" 1 (baht 100) ["KEY-1"]
                         (baht 150)), db1)) as H1 by (by vm_compute).
  assert (purchase_route "A" "P" (Some 1) (Some Scenario.P) 1700000001
            (run (λ _ _, mret tt) [] db1)
          = (inr (200, Purchased "ORD1700000001" 1 (baht 100) ["KEY-2"]
                         (baht 50)), db2)) as H2 by (by vm_compute).
  split; [exact H1|]. split; [exact H2|].
  exact (proj1 (successful_purchases_have_distinct_order_ids
                  (λ _ _, mret tt) [] _ _ _ _ _ _ _ _ _ _ _ _
                  _ _ _ _ _ _ _ _ _ _ _ H1 H2)).
Defined.

(** A second purchase in the same clock second computes the same order id;
    its insert into [orders] violates the unique constraint, the function
    is rolled back and the route answers 500. *)
Example same_second_purchase_is_rolled_back :
  let db1 :=
    (purchase_route "A" "P" (Some 1) (Some Scenario.P) 1700000000
       Scenario.start).2 in
  complete_purchase "A" "P" 1 (baht 100) "Key" 1700000000 db1
  = (inl (Plpgsql.unique_violation "orders_order_id_key"),
     debited_and_marked "A" 1 (baht 100) 1700000000 (baht 150)
       [Scenario.unit2] db1)
  ∧ purchase_route "A" "P" (Some 1) (Some Scenario.P) 1700000000 db1
    = (inr (500, PurchaseFailed), db1).
Proof. split; by vm_compute. Qed.

(** ** Top-up approval *)

Lemma single_inr {A} (l : list A) r : Supabase.single l = inr r ↔ l = [r].
Proof.
  destruct l as [|x [|y l]]; simpl; split; intros H; try done; congruence.
Qed.

Lemma pending_with_id_none rid db :
  (∀ r, r ∈ topup_requests db → request_id r = rid → req_status r ≠ pending) →
  pending_with_id rid db = [].
Proof.
  intros Hnone. unfold pending_with_id.
  destruct (filter _ _) as [|r l] eqn:Hf; [done|].
  assert (r ∈ filter (λ r, request_id r = rid ∧ req_status r = pending)
                     (topup_requests db)) as Hr
    by (rewrite Hf; apply list_elem_of_here).
  apply list_elem_of_filter in Hr as [[Hid Hst] Hin].
  by destruct (Hnone r Hin Hid).
Qed.

Lemma patched_not_pending patch rid db :
  (∀ r, req_status (patch r) ≠ pending) →
  pending_with_id rid (patch_requests patch rid db) = [].
Proof.
  intros Hpatch. apply pending_with_id_none. simpl.
  intros r Hr Hid. apply list_elem_of_fmap in Hr as (r0 & -> & _).
  destruct (decide (request_id r0 = rid)); [apply Hpatch|done].
Qed.

Lemma moved_topup_requests u delta type details now db :
  topup_requests (moved u delta type details now db).2 = topup_requests db.
Proof. unfold moved. by destruct (decide _). Qed.

Lemma moved_balance u delta type details now db v :
  balance_of v (moved u delta type details now db).2
  = if decide (v = u) then balance_of u db + delta else balance_of v db.
Proof.
  unfold moved, balance_of.
  destruct (decide (transaction_id_at now ∈ _)); simpl;
    (destruct (decide (v = u)) as [->|];
     [by rewrite lookup_insert_eq | by rewrite lookup_insert_ne]).
Qed.

(** What holds of the approval when every storage call answers.  When no
    row with that request id is pending, the route answers 404
    (NotPending) and writes nothing.  When the request is pending and the
    amount is positive, the route answers 200: the row is approved,
    stamped with the reviewer and the review time, the account's balance
    is credited by the amount, no other balance moves, and the ledger
    entry of the credit is appended when its id is free; any later approve
    of the same request id answers 404 and writes nothing.  An answer
    other than 200 leaves the database unchanged, and an answer of 200 is
    only given for a pending request. *)
Lemma approve_guarded ad rid note bodyAmount now db :
  ((∀ r, r ∈ topup_requests db → request_id r = rid →
         req_status r ≠ pending) →
   approve_route ad rid note bodyAmount now db = (inr (404, NotPending), db))
  ∧ (∀ request,
       pending_with_id rid db = [request] →
       0 < approved_amount bodyAmount request →
       let u := req_user_id request in
       let amount := approved_amount bodyAmount request in
       ∃ db',
         approve_route ad rid note bodyAmount now db
         = (inr (200, Approved amount (balance_of u db + amount)), db')
         ∧ balance_of u db' = balance_of u db + amount
         ∧ (∀ v, v ≠ u → balance_of v db' = balance_of v db)
         ∧ (∃ r, r ∈ topup_requests db' ∧ request_id r = rid)
         ∧ (∀ r, r ∈ topup_requests db' → request_id r = rid →
                 req_status r = approved ∧ reviewed_by r = Some ad
                 ∧ reviewed_at r = Some now ∧ req_amount r = amount)
         ∧ ((transaction_id_at now ∉ transaction_id <$> transactions db) →
            transactions db'
            = transactions db
              ++ [mkTx (transaction_id_at now) u topup amount
                       (balance_of u db + amount)
                       (ApproveDetails (req_method request) rid ad
                          (js_or note "อนุมัติโดย Admin"))])
         ∧ (∀ ad' note' bodyAmount' now',
              approve_route ad' rid note' bodyAmount' now' db'
              = (inr (404, NotPending), db')))
  ∧ (∀ status body db',
       approve_route ad rid note bodyAmount now db
       = (inr (status, body), db') →
       (status ≠ 200 → db' = db)
       ∧ (status = 200 →
          ∃ request, pending_with_id rid db = [request]
                     ∧ 0 < approved_amount bodyAmount request)).
Proof.
  split_and!.
  - intros Hnone. rewrite approve_route_eq.
    by rewrite (pending_with_id_none rid db Hnone).
  - intros request Hpending Hamount. cbv zeta.
    rewrite approve_route_eq, Hpending. simpl.
    destruct (decide (approved_amount bodyAmount request ≤ 0)); [lia|].
    set (u := req_user_id request).
    set (amount := approved_amount bodyAmount request).
    set (patch := reviewed approved (Some amount) (js_or note "อนุมัติแล้ว")
                    ad now).
    set (db1 := patch_requests patch rid db).
    set (details := ApproveDetails (req_method request) rid ad
                      (js_or note "อนุมัติโดย Admin")).
    destruct (moved u amount topup details now db1) as [t db'] eqn:Hm.
    exists db'.
    assert (db' = (moved u amount topup details now db1).2) as ->
      by (by rewrite Hm).
    clear Hm t.
    split_and!.
    + done.
    + rewrite moved_balance. by destruct (decide (u = u)).
    + intros v Hv. rewrite moved_balance. by destruct (decide (v = u)).
    + rewrite moved_topup_requests. simpl.
      assert (request ∈ pending_with_id rid db) as Hin
        by (rewrite Hpending; apply list_elem_of_here).
      apply list_elem_of_filter in Hin as [[Hid _] Hin].
      exists (patch request). split; [|done].
      apply list_elem_of_fmap. exists request. split; [|done].
      by destruct (decide (request_id request = rid)).
    + rewrite moved_topup_requests. simpl. intros r Hr Hid.
      apply list_elem_of_fmap in Hr as (r0 & -> & _).
      by destruct (decide (request_id r0 = rid)).
    + intros Hfresh. unfold moved. simpl.
      by destruct (decide (transaction_id_at now ∈ _)).
    + intros ad' note' bodyAmount' now'. rewrite approve_route_eq.
      assert (pending_with_id rid (moved u amount topup details now db1).2
              = []) as ->; [|done].
      unfold pending_with_id. rewrite moved_topup_requests.
      by apply (patched_not_pending patch rid db).
  - intros status body db'. rewrite approve_route_eq.
    destruct (Supabase.single (pending_with_id rid db)) as [e|request] eqn:Hs.
    { intros [= <- <- <-]. done. }
    apply single_inr in Hs. simpl.
    destruct (decide (approved_amount bodyAmount request ≤ 0)).
    { intros [= <- <- <-]. done. }
    destruct (moved _ _ _ _ _ _). intros [= <- <- <-].
    split; [done|]. intros _. exists request. split; [done|lia].
Qed.

(** C6 at the failing inputs.  The route approves the request in one
    storage call and credits in later ones, and nothing undoes the first
    when a later one fails.  (1) The id of the credit's ledger entry is
    taken, here by a top-up served in the same millisecond: the route
    answers 200, the request is approved, the balance is credited and the
    entry is missing.  (2) The wallet upsert does not reach the database:
    [updateUserBalance] swallows the error, the route answers 200 with a
    new balance of 120, the request is approved, the balance is still 20
    and the ledger holds an entry of +100.  In both cases a second approve
    answers 404 and writes nothing, so what is missing stays missing. *)
Theorem approval_and_credit_come_apart :
  let request :=
    mkReq "REQ1700000000000" "A" (baht 100) "promptpay" None pending
          None None None in
  let approved_request :=
    mkReq "REQ1700000000000" "A" (baht 100) "promptpay" None approved
          (Some "อนุมัติแล้ว") (Some "admin") (Some 1700000000500) in
  let other :=
    mkTx "TXN1700000000500" "B" topup (baht 5) (baht 5)
         (AdminTopupDetails "Admin topup" "admin") in
  let entry :=
    mkTx "TXN1700000000500" "A" topup (baht 100) (baht 20)
         (ApproveDetails "promptpay" "REQ1700000000000" "admin"
            "อนุมัติโดย Admin") in
  let without_entry :=
    mkDB {[ "A" := baht 120; "B" := baht 5 ]} [] [] [other]
         [approved_request] in
  let without_credit :=
    mkDB {[ "A" := baht 20 ]} [] [] [entry] [approved_request] in
  approve_route "admin" "REQ1700000000000" None None 1700000000500
    (mkDB {[ "A" := baht 20; "B" := baht 5 ]} [] [] [other] [request])
  = (inr (200, Approved (baht 100) (baht 120)), without_entry)
  ∧ approve_route_with (λ _ _, mret (inl Js.FetchFailed))
      "admin" "REQ1700000000000" None None 1700000000500
      (mkDB {[ "A" := baht 20 ]} [] [] [] [request])
    = (inr (200, Approved (baht 100) (baht 120)), without_credit)
  ∧ approve_route "admin" "REQ1700000000000" None None 1700000000600
      without_entry
    = (inr (404, NotPending), without_entry)
  ∧ approve_route "admin" "REQ1700000000000" None None 1700000000600
      without_credit
    = (inr (404, NotPending), without_credit).
Proof.
  split_and!; by vm_compute.
Qed.

(** ** Finalizing stock units *)

Lemma markStockAsSold_eq stockIds u orderId now db :
  markStockAsSold stockIds u orderId now db
  = (inr true,
     set_product_stocks (fmap (mark_sold stockIds u now orderId)) db).
Proof. reflexivity. Qed.

(** The claim as it is written fails: a unit finalized under ORD1 for A is
    finalized again under ORD2 for B, the call reports success and the
    unit's [sold_to], [sold_at] and [order_id] are overwritten; and a
    repeated call under the same order id at a later time is not a no-op,
    it re-stamps [sold_at]. *)
Lemma finalize_overwrites_finalized_unit :
  let unit := mkStock 1 "P" "KEY-1" true (Some "A") (Some 10) (Some "ORD1") 5 in
  let db := mkDB ∅ [unit] [] [] [] in
  markStockAsSold [1%nat] "B" "ORD2" 20 db
  = (inr true,
     mkDB ∅ [mkStock 1 "P" "KEY-1" true (Some "B") (Some 20) (Some "ORD2") 5]
          [] [] [])
  ∧ markStockAsSold [1%nat] "A" "ORD1" 20 db
    = (inr true,
       mkDB ∅ [mkStock 1 "P" "KEY-1" true (Some "A") (Some 20) (Some "ORD1") 5]
            [] [] [])
  ∧ mkDB ∅ [mkStock 1 "P" "KEY-1" true (Some "A") (Some 20) (Some "ORD1") 5]
         [] [] [] ≠ db.
Proof.
  intros unit db. split_and!; [by vm_compute | by vm_compute |].
  unfold db, unit. intros [=].
Qed.

Lemma mark_sold_idemp ids u now now' oid s :
  mark_sold ids u now' oid (mark_sold ids u now oid s)
  = mark_sold ids u now' oid s.
Proof.
  unfold mark_sold. destruct (decide (stock_id s ∈ ids)) as [Hin|Hout]; simpl.
  - by destruct (decide (stock_id s ∈ ids)).
  - by destruct (decide (stock_id s ∈ ids)).
Qed.

Lemma same_id_same_row (l : list StockRow) r s :
  NoDup (stock_id <$> l) → r ∈ l → s ∈ l → stock_id r = stock_id s → r = s.
Proof.
  induction l as [|x l IH]; simpl; intros Hnd Hr Hs Hid.
  { by apply elem_of_nil in Hr. }
  apply NoDup_cons in Hnd as [Hx Hnd].
  apply elem_of_cons in Hr as [->|Hr]; apply elem_of_cons in Hs as [->|Hs].
  - done.
  - destruct Hx. rewrite Hid. apply list_elem_of_fmap. by exists s.
  - destruct Hx. rewrite <- Hid. apply list_elem_of_fmap. by exists r.
  - by apply IH.
Qed.

(** C7 (amended). [markStockAsSold] never looks at the state of the units:
    it reports success, sets [is_sold], [sold_to], [sold_at] and
    [order_id] of every listed unit to the values of the call, whatever
    the unit held, and leaves the other units alone.  Repeating the call
    with the same unit ids, account and order id changes nothing but the
    [sold_at] stamp (nothing at all under the same clock reading).  In
    [complete_purchase] the units finalized are units just selected as
    unsold: with unit ids unique, a unit that was already sold keeps its
    [sold_to], [sold_at] and [order_id] through any purchase. *)
Theorem finalize_overwrites_unconditionally stockIds u orderId now db :
  let db' := set_product_stocks (fmap (mark_sold stockIds u now orderId)) db in
  markStockAsSold stockIds u orderId now db = (inr true, db')
  ∧ (∀ s, s ∈ product_stocks db' → stock_id s ∈ stockIds →
          is_sold s = true ∧ sold_to s = Some u ∧ sold_at s = Some now
          ∧ stock_order_id s = Some orderId)
  ∧ (∀ s, s ∈ product_stocks db' → stock_id s ∉ stockIds →
          s ∈ product_stocks db)
  ∧ markStockAsSold stockIds u orderId now db' = (inr true, db')
  ∧ (∀ now', markStockAsSold stockIds u orderId now' db'
             = markStockAsSold stockIds u orderId now' db)
  ∧ (∀ buyer p q price pname t result db_after s,
       NoDup (stock_id <$> product_stocks db) →
       complete_purchase buyer p q price pname t db
       = (inr result, db_after) →
       s ∈ product_stocks db → is_sold s = true →
       s ∈ product_stocks db_after).
Proof.
  intros db'. split_and!.
  - apply markStockAsSold_eq.
  - simpl. intros s Hs Hid. apply list_elem_of_fmap in Hs as (s0 & -> & _).
    unfold mark_sold in *. by destruct (decide (stock_id s0 ∈ stockIds)).
  - simpl. intros s Hs Hid. apply list_elem_of_fmap in Hs as (s0 & -> & Hs0).
    unfold mark_sold in *. by destruct (decide (stock_id s0 ∈ stockIds)).
  - rewrite markStockAsSold_eq. unfold db', set_product_stocks. simpl.
    do 2 f_equal. rewrite <- list_fmap_compose. apply list_fmap_ext.
    intros i s _. apply mark_sold_idemp.
  - intros now'. rewrite !markStockAsSold_eq.
    unfold db', set_product_stocks. simpl.
    do 2 f_equal. rewrite <- list_fmap_compose. apply list_fmap_ext.
    intros i s _. apply mark_sold_idemp.
  - intros buyer p q price pname t result db_after s Hnd Hrun Hs Hsold.
    rewrite complete_purchase_eq in Hrun.
    destruct (wallets db !! buyer) as [b|]; [|done]. cbv zeta in Hrun.
    repeat (match type of Hrun with
            | context [ decide ?P ] => destruct (decide P); try done
            end).
    simpl in Hrun. injection Hrun as _ <-. simpl.
    apply list_elem_of_fmap. exists s. split; [|done].
    unfold mark_sold. destruct (decide (stock_id s ∈ _)) as [Hin|]; [|done].
    exfalso. apply list_elem_of_fmap in Hin as (r & Hid & Hr).
    apply elem_of_take in Hr as (i & Hr & _).
    apply list_elem_of_lookup_2 in Hr.
    rewrite (unsold_oldest_first_perm p db) in Hr.
    apply list_elem_of_filter in Hr as [[_ Hunsold] Hr].
    assert (r = s) as -> by (by apply (same_id_same_row (product_stocks db))).
    congruence.
Qed.

Lemma finalize_overwrites_unconditionally_witness :
  markStockAsSold [1%nat] "A" "ORD1" 10 Scenario.start
  = (inr true,
     mkDB {[ "A" := baht 250 ]}
          [ Scenario.unit3;
            mkStock 1 "P" "KEY-1" true (Some "A") (Some 10) (Some "ORD1") 10;
            Scenario.unit2 ] [] [] []).
Proof.
  exact (proj1 (finalize_overwrites_unconditionally
                  [1%nat] "A" "ORD1" 10 Scenario.start)).
Defined.

(** ** Ledger consistency *)

Lemma ledger_sum_snoc u db db' t :
  transactions db' = transactions db ++ [t] →
  ledger_sum u db'
  = ledger_sum u db + (if decide (tx_user_id t = u) then amount t else 0).
Proof.
  intros Ht. unfold ledger_sum, ledger_of. rewrite Ht, filter_app, fmap_app.
  rewrite foldr_app.
  assert (∀ (l : list Z) (z : Z), foldr Z.add z l = foldr Z.add 0 l + z)
    as Hfold.
  { induction l as [|x l IH]; intros z; simpl; [lia|]. rewrite IH. lia. }
  rewrite Hfold. f_equal.
  rewrite filter_cons, filter_nil.
  destruct (decide (tx_user_id t = u)); simpl; lia.
Qed.

Lemma ledger_step_consistent may_debit tid db db' :
  ledger_consistent db →
  ledger_step may_debit tid db db' →
  (∀ id, tid = Some id → id ∉ transaction_id <$> transactions db) →
  ledger_consistent db'.
Proof.
  intros Hc Hstep Hfresh v. destruct (Hc v) as [Hsum Hlast].
  destruct Hstep as [Hw Ht | u Hu Hw Ht | u delta t Hw _ _ Ht Hu Ha Hb _
                    | u delta id _ _ _ _ Hid Hin].
  - unfold ledger_sum, ledger_of, balance_of in *. by rewrite Hw, Ht.
  - assert (balance_of v db' = balance_of v db) as Hbal.
    { unfold balance_of. rewrite Hw. destruct (decide (u = v)) as [<-|].
      - by rewrite lookup_insert_eq, Hu.
      - by rewrite lookup_insert_ne. }
    unfold ledger_sum, ledger_of in *. by rewrite Ht, Hbal.
  - assert (balance_of v db'
            = if decide (u = v) then balance_of u db + delta
              else balance_of v db) as Hbal.
    { unfold balance_of. rewrite Hw. destruct (decide (u = v)) as [<-|].
      - by rewrite lookup_insert_eq.
      - by rewrite lookup_insert_ne. }
    assert (ledger_of v db'
            = ledger_of v db ++ (if decide (u = v) then [t] else [])) as Hl.
    { unfold ledger_of. rewrite Ht, filter_app, filter_cons, filter_nil.
      rewrite Hu. by destruct (decide (u = v)). }
    rewrite (ledger_sum_snoc v db db' t Ht), Hl, Hbal, Hu.
    destruct (decide (u = v)) as [<-|].
    + split; [lia|]. intros t'. rewrite last_snoc. by intros [= <-].
    + rewrite app_nil_r. split; [lia|]. apply Hlast.
  - by destruct (Hfresh id Hid).
Qed.

Lemma run_ledger_consistent updateBalance qs db :
  nonnegative db → ledger_consistent db →
  entries_recorded updateBalance qs db →
  ledger_consistent (run updateBalance qs db).
Proof.
  revert db. induction qs as [|q qs IH]; intros db Hnn Hc Hrec; simpl;
    [done|].
  destruct Hrec as [Hfresh Hrec].
  apply IH; [by apply serve_nonnegative| |done].
  eapply ledger_step_consistent; [done| |done].
  by apply serve_ledger_step.
Qed.

(** While every entry is written, replaying a wallet's entries gives its
    balance, and the last entry's [balance_after] is the balance. *)
Lemma ledger_consistent_while_entries_are_recorded updateBalance qs :
  entries_recorded updateBalance qs empty_db →
  ledger_consistent (run updateBalance qs empty_db).
Proof.
  apply run_ledger_consistent; [apply empty_db_nonnegative|].
  intros u. split; [done|]. intros t. done.
Qed.

(** C4 at the failing input.  An admin tops up two accounts and the two
    [addTransaction] read the same [Date.now()]: the second entry's id is
    taken, its insert fails, [addTransaction] answers [null] and the route
    goes on to answer 200.  The second wallet holds 50 while it has no
    ledger entry at all; on one account the same collision leaves a
    balance of 150 over entries that sum to 100, the last of which says
    100. *)
Theorem ledger_entry_lost_on_id_collision
    (updateBalance : string → Z → Js.M unit) :
  let serve_all := run_app updateBalance ["admin"] in
  let first := Call (AdminTopup "admin" "A" (baht 100) None 1700000000000) in
  let to_B := AdminTopup "admin" "B" (baht 50) None 1700000000000 in
  let to_A := AdminTopup "admin" "A" (baht 50) None 1700000000000 in
  admin_topup_route "admin" "B" (baht 50) None 1700000000000
    (store (serve_all [Login "admin"; first]))
  = (inr (200, AdminTopupDone (baht 50)),
     store (serve_all [Login "admin"; first; Call to_B]))
  ∧ (let db := store (serve_all [Login "admin"; first; Call to_B]) in
     balance_of "B" db = baht 50
     ∧ ledger_of "B" db = []
     ∧ ledger_sum "B" db = 0)
  ∧ (let db := store (serve_all [Login "admin"; first; Call to_A]) in
     balance_of "A" db = baht 150
     ∧ ledger_sum "A" db = baht 100
     ∧ balance_after <$> last (ledger_of "A" db) = Some (baht 100)).
Proof.
  split_and!; by vm_compute.
Qed.

(** * Properties of the further code *)

(** ** PromptPay payloads *)

Import JsString.

Lemma below_by_computation (f : nat → bool) (k : nat) :
  forallb f (seq 0 k) = true → ∀ n, (n < k)%nat → f n = true.
Proof.
  intros Hall n Hn. rewrite forallb_forall in Hall.
  apply Hall. apply in_seq. lia.
Qed.

Lemma length_prefix_two (n : nat) :
  (n < 100)%nat →
  ∃ l1 l2 d1 d2, padStart 2 "0" (of_nat n) = [l1; l2]
    ∧ Thunder.digit_value l1 = Some d1 ∧ Thunder.digit_value l2 = Some d2
    ∧ (10 * d1 + d2)%nat = n.
Proof.
  intros Hn.
  pose proof (below_by_computation
    (λ n, match padStart 2 "0" (of_nat n) with
          | [l1; l2] =>
              match Thunder.digit_value l1, Thunder.digit_value l2 with
              | Some d1, Some d2 => Nat.eqb (10 * d1 + d2) n
              | _, _ => false
              end
          | _ => false
          end) 100 ltac:(vm_compute; reflexivity) n Hn) as H.
  simpl in H.
  destruct (padStart 2 "0" (of_nat n)) as [|l1 [|l2 [|]]]; try done.
  destruct (Thunder.digit_value l1) as [d1|] eqn:H1; try done.
  destruct (Thunder.digit_value l2) as [d2|] eqn:H2; try done.
  apply Nat.eqb_eq in H.
  by exists l1, l2, d1, d2.
Qed.

Lemma emv_read_tlv fuel tag value rest :
  length tag = 2%nat → (length value < 100)%nat →
  Thunder.emv_read (S fuel) (Thunder.tlv tag value ++ rest)
  = fields ← Thunder.emv_read fuel rest; Some ((str tag, str value) :: fields).
Proof.
  intros Htag Hlen. destruct tag as [|t1 [|t2 [|]]]; try done.
  unfold Thunder.tlv.
  destruct (length_prefix_two _ Hlen) as (l1 & l2 & d1 & d2 & -> & H1 & H2 & Hn).
  cbn [Thunder.emv_read app]. rewrite H1, H2. cbn [mbind option_bind].
  rewrite Hn. rewrite decide_True by (rewrite length_app; lia).
  by rewrite take_app_length, drop_app_length.
Qed.

Lemma emv_read_more fuel fuel' s fields :
  Thunder.emv_read fuel s = Some fields → (fuel ≤ fuel')%nat →
  Thunder.emv_read fuel' s = Some fields.
Proof.
  revert fuel' s fields. induction fuel as [|fuel IH]; intros fuel' s fields; [done|].
  intros H Hle. destruct fuel' as [|fuel']; [lia|].
  destruct s as [|t1 [|t2 [|l1 [|l2 rest]]]]; try done.
  cbn [Thunder.emv_read] in *.
  destruct (Thunder.digit_value l1) as [d1|]; [|done].
  destruct (Thunder.digit_value l2) as [d2|]; [|done]. cbn [mbind option_bind] in *.
  destruct (decide _); [|done].
  destruct (Thunder.emv_read fuel (drop _ rest)) as [fs|] eqn:Hfs; [|done].
  rewrite (IH fuel' _ _ Hfs) by lia. done.
Qed.

Lemma crc_shift_range crc : 0 ≤ Thunder.crc_shift crc < 65536.
Proof.
  unfold Thunder.crc_shift. change 0xFFFF with (Z.ones 16).
  rewrite Z.land_ones by lia. apply Z.mod_pos_bound. lia.
Qed.

Lemma crc16_range s : 0 ≤ Thunder.crc16 s < 65536.
Proof.
  unfold Thunder.crc16.
  induction s as [|c s IH] using rev_ind; [simpl; lia|].
  rewrite foldl_app. simpl. unfold Thunder.crc_char.
  change 8%nat with (S 7). rewrite Nat.iter_succ. apply crc_shift_range.
Qed.

Lemma hex_digit_in d : Thunder.hex_digit d ∈ chars "0123456789ABCDEF".
Proof.
  unfold Thunder.hex_digit. apply list_elem_of_In.
  destruct (nth_in_or_default (Z.to_nat d) (chars "0123456789ABCDEF") "0"%char)
    as [H | ->]; [done|].
  simpl. tauto.
Qed.

Lemma toString16_hex digits n :
  Forall (λ c, c ∈ chars "0123456789ABCDEF") (Thunder.toString16 digits n).
Proof.
  revert n. induction digits as [|digits IH]; intros n; simpl; [constructor|].
  apply Forall_app. split.
  - destruct (decide (n / 16 = 0)); [constructor | apply IH].
  - constructor; [apply hex_digit_in | constructor].
Qed.

Lemma toString16_length digits n (k : nat) :
  0 ≤ n < 16 ^ Z.of_nat k → (1 ≤ k)%nat →
  (length (Thunder.toString16 digits n) ≤ k)%nat.
Proof.
  revert n k. induction digits as [|digits IH]; intros n k Hn Hk; simpl; [lia|].
  rewrite length_app. simpl.
  destruct (decide (n / 16 = 0)) as [|Hq]; simpl; [lia|].
  destruct k as [|[|k]]; [lia| |].
  - exfalso. apply Hq. apply Z.div_small. simpl in Hn. lia.
  - specialize (IH (n / 16) (S k)).
    cut (length (Thunder.toString16 digits (n / 16)) ≤ S k)%nat; [lia|].
    apply IH; [|lia]. split; [apply Z.div_pos; lia|].
    apply Z.div_lt_upper_bound; [lia|].
    replace (Z.of_nat (S (S k))) with (Z.succ (Z.of_nat (S k))) in Hn by lia.
    rewrite Z.pow_succ_r in Hn by lia. lia.
Qed.

Lemma calculateCRC16_length (s : list ascii) :
  length (Thunder.calculateCRC16 s) = 4%nat.
Proof.
  unfold Thunder.calculateCRC16, padStart.
  pose proof (crc16_range s) as Hr.
  set (d := S (Z.to_nat (Z.log2 (Thunder.crc16 s)))).
  pose proof (toString16_length d (Thunder.crc16 s) 4 ltac:(simpl; lia) ltac:(lia)) as Hl.
  rewrite length_app, length_replicate.
  assert (1 ≤ length (Thunder.toString16 d (Thunder.crc16 s)))%nat; [|lia].
  subst d. simpl. rewrite length_app. simpl. lia.
Qed.

(** X1 ([calculateCRC16]): whatever the payload, the checksum text is
    exactly four characters, each an upper-case hexadecimal digit: short
    values are padded with zeros and the register never outgrows 16
    bits. *)
Theorem crc16_text_is_four_hex_digits (s : list ascii) :
  length (Thunder.calculateCRC16 s) = 4%nat
  ∧ Forall (λ c, c ∈ chars "0123456789ABCDEF") (Thunder.calculateCRC16 s).
Proof.
  split; [apply calculateCRC16_length|].
  unfold Thunder.calculateCRC16, padStart.
  apply Forall_app. split; [|apply toString16_hex].
  apply Forall_forall. intros c [-> _]%elem_of_replicate.
  change (chars "0123456789ABCDEF") with ("0"%char :: chars "123456789ABCDEF").
  apply list_elem_of_here.
Qed.

Lemma length_tlv tag value :
  (length value < 100)%nat →
  length (Thunder.tlv tag value) = (length tag + 2 + length value)%nat.
Proof.
  intros Hlen. unfold Thunder.tlv.
  destruct (length_prefix_two _ Hlen) as (l1 & l2 & _ & _ & -> & _).
  rewrite !length_app. simpl. lia.
Qed.

Lemma str_chars s : str (chars s) = s.
Proof. apply String.string_of_list_ascii_of_string. Qed.

Lemma chars_str l : chars (str l) = l.
Proof. apply String.list_ascii_of_string_of_list_ascii. Qed.

Lemma merchantAccountInfo_fields formattedId account :
  Thunder.merchantAccountInfo formattedId = Some account →
  length account = 37%nat
  ∧ Thunder.emv_read 3 account
    = Some [ ("00", "A000000677010111");
             if decide (length formattedId = 10%nat)
             then ("01", str (chars "0066" ++ drop 1 formattedId))
             else ("02", str formattedId) ].
Proof.
  unfold Thunder.merchantAccountInfo. intros H.
  destruct (decide (length formattedId = 10%nat)) as [H10|].
  - apply (inj Some) in H as <-.
    assert (length (chars "0066" ++ drop 1 formattedId) = 13%nat) as Hp.
    { rewrite length_app, length_drop. simpl. lia. }
    split.
    + rewrite length_app, !length_tlv by (rewrite ?Hp; simpl; lia).
      rewrite Hp. simpl. lia.
    + rewrite emv_read_tlv by (simpl; lia).
      rewrite <- (app_nil_r (Thunder.tlv (chars "01") _)).
      rewrite emv_read_tlv by (rewrite ?Hp; simpl; lia). simpl.
      rewrite ?str_chars; done.
  - destruct (decide (length formattedId = 13%nat)) as [H13|]; [|done].
    apply (inj Some) in H as <-. split.
    + rewrite length_app, !length_tlv by (rewrite ?H13; simpl; lia).
      rewrite H13. simpl. lia.
    + rewrite emv_read_tlv by (simpl; lia).
      rewrite <- (app_nil_r (Thunder.tlv (chars "02") _)).
      rewrite emv_read_tlv by (rewrite ?H13; simpl; lia). simpl.
      rewrite ?str_chars; done.
Qed.

(** X2 ([generatePromptPayQR], [calculateCRC16]): a payload the function
    builds reads back, as a sequence of tag, two-digit length and value,
    as exactly seven data objects: format 01, method 12, the merchant
    account under tag 29, currency 764, the amount with two decimals,
    country TH, and under tag 63 the checksum of everything before it.
    The account reads back as the PromptPay application id and the
    digits of the id: thirteen digits as they are under tag 02, ten
    digits under tag 01 with the first digit replaced by 0066. *)
Theorem promptpay_qr_decodes (promptPayId : string) (amount : Z)
    (qrCode : string) (shown : Z) :
  Thunder.generatePromptPayQR promptPayId amount = Thunder.QRCode qrCode shown →
  (length (Thunder.toFixed2 amount) < 100)%nat →
  let formattedId := filter (λ c, is_digit c) (chars promptPayId) in
  ∃ account : string,
    Thunder.emv_fields qrCode
    = Some [ ("00", "01"); ("01", "12"); ("29", account); ("53", "764");
             ("54", str (Thunder.toFixed2 amount)); ("58", "TH");
             ("63", str (Thunder.calculateCRC16
                           (take (length (chars qrCode) - 4) (chars qrCode)))) ]
    ∧ Thunder.emv_fields account
      = Some [ ("00", "A000000677010111");
               if decide (length formattedId = 10%nat)
               then ("01", str (chars "0066" ++ drop 1 formattedId))
               else ("02", str formattedId) ]
    ∧ shown = amount.
Proof.
  intros Hqr Hamount formattedId. unfold Thunder.generatePromptPayQR in Hqr.
  fold formattedId in Hqr.
  destruct (Thunder.merchantAccountInfo formattedId) as [account|] eqn:Hacc;
    [|done].
  destruct (merchantAccountInfo_fields _ _ Hacc) as [Hlen Hfields].
  pose proof (f_equal (λ q, match q with
                            | Thunder.QRCode c _ => c
                            | Thunder.QRError => qrCode
                            end) Hqr) as Hcode.
  pose proof (f_equal (λ q, match q with
                            | Thunder.QRCode _ a => a
                            | Thunder.QRError => shown
                            end) Hqr) as Hshown.
  cbv beta iota in Hcode, Hshown. clear Hqr. subst qrCode shown.
  exists (str account).
  set (payload := Thunder.tlv (chars "00") (chars "01") ++ _) in *.
  pose proof (calculateCRC16_length payload) as Hcrc.
  split; [|split; [|done]].
  - unfold Thunder.emv_fields. rewrite chars_str.
    replace (length (payload ++ Thunder.calculateCRC16 payload) - 4)%nat
      with (length payload) by (rewrite length_app; lia).
    rewrite take_app_length.
    assert (chars "6304" ++ Thunder.calculateCRC16 payload
            = Thunder.tlv (chars "63") (Thunder.calculateCRC16 payload) ++ [])
      as Hlast.
    { rewrite app_nil_r. unfold Thunder.tlv. by rewrite Hcrc. }
    assert (4 ≤ length payload)%nat as Hpayload.
    { subst payload. rewrite length_app, length_tlv by (simpl; lia).
      simpl. lia. }
    apply (emv_read_more 8); [|rewrite length_app; lia].
    revert Hlast Hcrc. generalize (Thunder.calculateCRC16 payload).
    intros crc Hlast Hcrc. subst payload. rewrite <- !app_assoc. rewrite Hlast.
    rewrite !emv_read_tlv by (rewrite ?Hlen, ?Hcrc; simpl; lia).
    simpl. rewrite ?str_chars; done.
  - unfold Thunder.emv_fields. rewrite chars_str.
    apply (emv_read_more 3); [done | lia].
Qed.

Lemma promptpay_qr_decodes_witness :
  ∃ account : string,
    Thunder.emv_fields
      "00020101021229370016A0000006770101110113006681234567853037645406150.005802TH6304C40C"
    = Some [ ("00", "01"); ("01", "12"); ("29", account); ("53", "764");
             ("54", "150.00"); ("58", "TH"); ("63", "C40C") ]
    ∧ Thunder.emv_fields account
      = Some [ ("00", "A000000677010111"); ("01", "0066812345678") ].
Proof.
  destruct (promptpay_qr_decodes "081-234-5678" 15000
    "00020101021229370016A0000006770101110113006681234567853037645406150.005802TH6304C40C"
    15000 ltac:(vm_compute; reflexivity) ltac:(vm_compute; lia))
    as (account & H1 & H2 & _).
  exists account. split.
  - rewrite H1. vm_compute. reflexivity.
  - rewrite H2. vm_compute. reflexivity.
Defined.

(** ** The session store *)



Lemma lookup_apply_unset ttl sid op (table : SupabaseStore.Table) :
  ¬ SupabaseStore.sets sid op → table !! sid = None →
  SupabaseStore.apply ttl table op !! sid = None.
Proof.
  intros Hop Hnone. destruct op as [sid' sess now|sid'|sid' sess now|now]; simpl.
  - unfold SupabaseStore.set. rewrite lookup_insert_ne; [done|].
    intros ->. by apply Hop.
  - unfold SupabaseStore.destroy.
    destruct (decide (sid' = sid)) as [->|];
      [apply lookup_delete_eq | by rewrite lookup_delete_ne].
  - unfold SupabaseStore.touch.
    destruct (decide (sid' = sid)) as [->|].
    + by rewrite lookup_alter_eq, Hnone.
    + by rewrite lookup_alter_ne.
  - unfold SupabaseStore.cleanup. apply map_lookup_filter_None_2. by left.
Qed.

(** X4 ([SupabaseStore.destroy], [touch], [cleanup], [get]): logging out is
    final.  After [destroy], whatever the store is asked next, the session
    cannot be read again until it is [set] again; in particular a late
    [touch] does not bring it back, since it updates and never inserts. *)
Theorem destroyed_session_stays_unreadable
    (ttl : Z) (sid : string) (ops : list SupabaseStore.Op) (t : Z)
    (table : SupabaseStore.Table) :
  Forall (λ op, ¬ SupabaseStore.sets sid op) ops →
  SupabaseStore.get sid t
    (foldl (SupabaseStore.apply ttl) (SupabaseStore.destroy sid table) ops)
  = None.
Proof.
  intros Hops.
  assert (foldl (SupabaseStore.apply ttl) (SupabaseStore.destroy sid table) ops
          !! sid = None) as Hnone.
  { assert (SupabaseStore.destroy sid table !! sid = None) as H0
      by apply lookup_delete_eq.
    revert H0. generalize (SupabaseStore.destroy sid table).
    induction Hops as [|op ops Hop _ IH]; intros tb H0; [done|].
    simpl. apply IH. by apply lookup_apply_unset. }
  unfold SupabaseStore.get. by rewrite Hnone.
Qed.

Lemma destroyed_session_stays_unreadable_witness :
  let sess := SupabaseStore.mkSess None (Some "A") in
  SupabaseStore.get "s1" 1700000000500
    (foldl (SupabaseStore.apply 604800)
       (SupabaseStore.destroy "s1"
          (SupabaseStore.set 604800 "s1" sess 1700000000000 ∅))
       [ SupabaseStore.OpTouch "s1" sess 1700000000100;
         SupabaseStore.OpSet "s2" sess 1700000000200;
         SupabaseStore.OpCleanup 1700000000300 ])
  = None.
Proof.
  intros sess.
  apply (destroyed_session_stays_unreadable 604800 "s1").
  repeat constructor; simpl; try tauto. intros [=].
Defined.

(** X5 ([SupabaseStore.set], [get], [touch]): a session that was stored is
    read back unchanged exactly until its expiry, the time of [set] plus
    the cookie's [maxAge] (the store's [ttl] in milliseconds when the
    cookie has none, or zero).  A later [touch] keeps the stored session
    and moves the expiry to the time of the touch plus the max age of the
    session it is given, whether or not the stored one had expired.
    Storing a session changes what is read under no other id. *)
Theorem session_readable_until_expiry
    (ttl : Z) (sid : string) (sess : SupabaseStore.Sess) (now t : Z)
    (table : SupabaseStore.Table) :
  SupabaseStore.get sid t (SupabaseStore.set ttl sid sess now table)
  = (if decide (t < now + SupabaseStore.maxAge ttl sess)
     then Some sess else None)
  ∧ (∀ sess' now',
       SupabaseStore.get sid t
         (SupabaseStore.touch ttl sid sess' now'
            (SupabaseStore.set ttl sid sess now table))
       = if decide (t < now' + SupabaseStore.maxAge ttl sess')
         then Some sess else None)
  ∧ ∀ sid', sid' ≠ sid →
      SupabaseStore.get sid' t (SupabaseStore.set ttl sid sess now table)
      = SupabaseStore.get sid' t table.
Proof.
  unfold SupabaseStore.get, SupabaseStore.set, SupabaseStore.touch.
  split_and!.
  - by rewrite lookup_insert_eq.
  - intros sess' now'. by rewrite lookup_alter_eq, lookup_insert_eq.
  - intros sid' Hne. by rewrite lookup_insert_ne.
Qed.

Lemma session_readable_until_expiry_witness :
  let sess := SupabaseStore.mkSess (Some 1000) (Some "A") in
  let other := SupabaseStore.mkSess None (Some "B") in
  let table : SupabaseStore.Table := {[ "s2" := (other, 5000) ]} in
  SupabaseStore.get "s1" 1999 (SupabaseStore.set 86400 "s1" sess 1000 table)
  = Some sess
  ∧ SupabaseStore.get "s1" 2000 (SupabaseStore.set 86400 "s1" sess 1000 table)
    = None
  ∧ SupabaseStore.get "s2" 1999 (SupabaseStore.set 86400 "s1" sess 1000 table)
    = Some other.
Proof.
  intros sess other table. split_and!.
  - exact (proj1 (session_readable_until_expiry 86400 "s1" sess 1000 1999
                    table)).
  - exact (proj1 (session_readable_until_expiry 86400 "s1" sess 1000 2000
                    table)).
  - rewrite (proj2 (proj2 (session_readable_until_expiry 86400 "s1" sess 1000
                             1999 table)) "s2") by done.
    vm_compute. reflexivity.
Defined.

(** ** Voucher codes *)

Lemma filter_all {A} (P : A → Prop) `{!∀ x, Decision (P x)} (l : list A) :
  Forall P l → filter P l = l.
Proof.
  induction 1 as [|x l Hx _ IH]; [done|].
  by rewrite filter_cons_True, IH.
Qed.

Lemma Set_add_spec x s v : v ∈ TrueMoney.Set_add x s ↔ v = x ∨ v ∈ s.
Proof.
  unfold TrueMoney.Set_add. destruct (decide (x ∈ s)).
  - split; [tauto | intros [->|]; done].
  - rewrite elem_of_app, list_elem_of_singleton. tauto.
Qed.

Lemma Set_add_NoDup x s : NoDup s → NoDup (TrueMoney.Set_add x s).
Proof.
  intros Hs. unfold TrueMoney.Set_add. destruct (decide (x ∈ s)); [done|].
  apply NoDup_app. split_and!; [done | | apply NoDup_singleton].
  intros y Hy ->%list_elem_of_singleton. done.
Qed.

Lemma Set_add_length x s :
  (length (TrueMoney.Set_add x s) ≤ S (length s))%nat.
Proof.
  unfold TrueMoney.Set_add. destruct (decide (x ∈ s)); [lia|].
  rewrite length_app. simpl. lia.
Qed.

Lemma markVoucherUsed_invariant h s :
  NoDup s → Z.of_nat (length s) ≤ 10000 →
  let s' := TrueMoney.markVoucherUsed h s in
  NoDup s' ∧ Z.of_nat (length s') ≤ 10000
  ∧ TrueMoney.isVoucherUsed h s' = true.
Proof.
  intros Hnd Hlen. unfold TrueMoney.markVoucherUsed.
  pose proof (Set_add_NoDup h s Hnd) as Hnd'.
  pose proof (Set_add_length h s) as Hlen'.
  assert (h ∈ TrueMoney.Set_add h s) as Hin by (apply Set_add_spec; by left).
  destruct (decide (10000 < Z.of_nat (length (TrueMoney.Set_add h s))))
    as [Hbig|Hsmall]; cbn zeta.
  - assert (h ∉ s) as Hnew.
    { intros Hs. unfold TrueMoney.Set_add in Hbig.
      rewrite decide_True in Hbig by done. lia. }
    unfold TrueMoney.Set_add in *. rewrite decide_False in * by done.
    destruct s as [|first s]; [simpl in Hbig; lia|].
    change ((first :: s) ++ [h]) with (first :: (s ++ [h])) in *.
    unfold TrueMoney.Set_delete. rewrite filter_cons_False by tauto.
    apply NoDup_cons in Hnd' as [Hfirst Hrest].
    rewrite filter_all.
    + split_and!; [done | simpl in *; rewrite length_app in *; simpl in *; lia |].
      unfold TrueMoney.isVoucherUsed. apply bool_decide_eq_true_2.
      apply elem_of_app. right. by apply list_elem_of_singleton.
    + apply Forall_forall. intros y Hy ->. done.
  - split_and!; [done | lia |].
    unfold TrueMoney.isVoucherUsed. by apply bool_decide_eq_true_2.
Qed.

(** X6 ([markVoucherUsed], [isVoucherUsed]): whatever codes have been
    marked since the start, the record of used vouchers holds no more
    than 10000 of them and none twice, and the code marked last is
    always in it. *)
Theorem used_vouchers_stay_bounded (hashes : list string) (h : string) :
  let record := foldl (λ used h, TrueMoney.markVoucherUsed h used) [] in
  Z.of_nat (length (record hashes)) ≤ 10000
  ∧ NoDup (record hashes)
  ∧ TrueMoney.isVoucherUsed h (record (hashes ++ [h])) = true.
Proof.
  cbn zeta.
  assert (∀ l, Z.of_nat (length (foldl (λ used h, TrueMoney.markVoucherUsed
                                                       h used) [] l)) ≤ 10000
               ∧ NoDup (foldl (λ used h, TrueMoney.markVoucherUsed h used)
                          [] l)) as Hinv.
  { induction l as [|x l [Hlen Hnd]] using rev_ind.
    - simpl. split; [lia | constructor].
    - rewrite foldl_app. simpl.
      destruct (markVoucherUsed_invariant x _ Hnd Hlen) as (? & ? & _).
      done. }
  destruct (Hinv hashes) as [Hlen Hnd]. split_and!; [done..|].
  rewrite foldl_app. simpl.
  by destruct (markVoucherUsed_invariant h _ Hnd Hlen) as (_ & _ & ?).
Qed.

(** X7 ([markVoucherUsed], [isVoucherUsed]): once the record holds 10000
    codes, marking a new one drops the oldest: that voucher is reported
    unused again, while the new one and every other one stay marked. *)
Theorem oldest_voucher_is_forgotten
    (first : string) (rest : list string) (h : string) :
  Z.of_nat (length (first :: rest)) = 10000 →
  h ∉ first :: rest →
  let used := TrueMoney.markVoucherUsed h (first :: rest) in
  TrueMoney.isVoucherUsed first used = false
  ∧ TrueMoney.isVoucherUsed h used = true
  ∧ ∀ v, v ∈ rest → v ≠ first → TrueMoney.isVoucherUsed v used = true.
Proof.
  intros Hlen Hnew. unfold TrueMoney.markVoucherUsed, TrueMoney.Set_add.
  cbn zeta. rewrite (decide_False (P := h ∈ first :: rest)) by done.
  change ((first :: rest) ++ [h]) with (first :: (rest ++ [h])).
  rewrite decide_True by (simpl in *; rewrite length_app; simpl; lia).
  unfold TrueMoney.isVoucherUsed, TrueMoney.Set_delete.
  rewrite filter_cons_False by tauto.
  split_and!.
  - apply bool_decide_eq_false_2. intros [Hne _]%list_elem_of_filter. done.
  - apply bool_decide_eq_true_2. apply list_elem_of_filter. split.
    + intros ->. apply Hnew. left.
    + apply elem_of_app. right. by apply list_elem_of_singleton.
  - intros v Hv Hne. apply bool_decide_eq_true_2. apply list_elem_of_filter.
    split; [done|]. apply elem_of_app. by left.
Qed.

Lemma oldest_voucher_is_forgotten_witness :
  let rest := (λ n : nat, pretty n) <$> seq 1 (Z.to_nat 9999) in
  Z.of_nat (length ("0" :: rest)) = 10000
  ∧ TrueMoney.isVoucherUsed "0" ("0" :: rest) = true
  ∧ TrueMoney.isVoucherUsed "0"
      (TrueMoney.markVoucherUsed "fresh" ("0" :: rest)) = false.
Proof.
  intros rest.
  assert (Z.of_nat (length ("0" :: rest)) = 10000) as Hlen
    by (vm_compute; reflexivity).
  assert ("fresh" ∉ "0" :: rest) as Hnew.
  { refine (bool_decide_eq_false_1 _ _). vm_compute. reflexivity. }
  split; [exact Hlen|]. split; [vm_compute; reflexivity|].
  exact (proj1 (oldest_voucher_is_forgotten "0" rest "fresh" Hlen Hnew)).
Defined.

Lemma startsWith_prefix needle l :
  startsWith needle l = true → ∃ k, l = needle ++ k.
Proof.
  revert l. induction needle as [|n needle IH]; intros l H; [by exists l|].
  destruct l as [|c l]; [done|]. simpl in H.
  apply andb_prop in H as [->%bool_decide_eq_true_1 H].
  destruct (IH _ H) as [k ->]. by exists k.
Qed.

Lemma includes_elem needle l c :
  includes needle l = true → c ∈ needle → c ∈ l.
Proof.
  induction l as [|x l IH]; intros H Hc.
  - simpl in H. rewrite orb_false_r in H.
    apply startsWith_prefix in H as [k Hk].
    destruct needle; [by apply not_elem_of_nil in Hc | done].
  - cbn [includes] in H. apply orb_prop in H as [H|H].
    + apply startsWith_prefix in H as [k ->]. apply elem_of_app. by left.
    + right. by apply IH.
Qed.

Lemma alnum_excludes_host code :
  forallb is_alnum code = true →
  includes (chars "gift.truemoney.com") code = false.
Proof.
  intros Halnum. destruct (includes _ code) eqn:Hinc; [|done].
  assert ("."%char ∈ code) as Hdot.
  { apply (includes_elem _ _ _ Hinc). apply list_elem_of_In. simpl. tauto. }
  apply list_elem_of_In in Hdot.
  rewrite forallb_forall in Halnum. by apply Halnum in Hdot.
Qed.

Lemma extractVoucherHash_bare
    (URL_v : list ascii → option (option (list ascii))) (input : string) :
  let code := trim (chars input) in
  forallb is_alnum code = true → (8 ≤ length code)%nat →
  TrueMoney.extractVoucherHash URL_v (Some input) = Some (str code).
Proof.
  intros code Halnum Hlen. unfold TrueMoney.extractVoucherHash.
  rewrite decide_False.
  - fold code. rewrite (alnum_excludes_host code Halnum).
    unfold TrueMoney.is_bare_hash. rewrite Halnum.
    by rewrite bool_decide_eq_true_2.
  - intros ->. subst code. simpl in Hlen. lia.
Qed.

(** X8 ([extractVoucherHash], [validateVoucherFormat]): a voucher given
    as a bare code of at least eight letters and digits is accepted as
    its own hash, surrounding white space removed, whatever the URL
    parser does; the validation reports it valid, and used exactly when
    the record of used vouchers holds it. *)
Theorem bare_voucher_code_is_its_own_hash
    (URL_v : list ascii → option (option (list ascii))) (input : string) :
  let code := trim (chars input) in
  forallb is_alnum code = true → (8 ≤ length code)%nat →
  TrueMoney.extractVoucherHash URL_v (Some input) = Some (str code)
  ∧ ∀ usedVouchers,
      TrueMoney.validateVoucherFormat URL_v (Some input) usedVouchers
      = mkValidation true (str code)
          (TrueMoney.isVoucherUsed (str code) usedVouchers).
Proof.
  intros code Halnum Hlen.
  pose proof (extractVoucherHash_bare URL_v input Halnum Hlen) as Hextract.
  split; [done|]. intros used. unfold TrueMoney.validateVoucherFormat.
  rewrite Hextract. simpl. f_equal.
Qed.

Lemma bare_voucher_code_is_its_own_hash_witness :
  TrueMoney.extractVoucherHash (λ _, None) (Some "  0123abcdEFGH ")
  = Some "0123abcdEFGH".
Proof.
  exact (proj1 (bare_voucher_code_is_its_own_hash (λ _, None)
                  "  0123abcdEFGH " eq_refl ltac:(vm_compute; lia))).
Defined.

(** ** Strings *)

Lemma trimStart_suffix l : ∃ k, l = k ++ trimStart l.
Proof.
  induction l as [|c l [k IH]]; [by exists []|]. simpl.
  destruct (is_space c); [|by exists []].
  exists (c :: k). simpl. by rewrite <- IH.
Qed.

Lemma trimStart_starts l :
  match trimStart l with c :: _ => is_space c = false | [] => True end.
Proof.
  induction l as [|c l IH]; [done|]. simpl.
  destruct (is_space c) eqn:Hc; [done|]. by rewrite Hc.
Qed.

Lemma trimStart_fixed c l : is_space c = false → trimStart (c :: l) = c :: l.
Proof. intros Hc. simpl. by rewrite Hc. Qed.

Lemma trimStart_snoc k c :
  is_space c = false → trimStart (k ++ [c]) = trimStart k ++ [c].
Proof.
  intros Hc. induction k as [|x k IH]; simpl; [by rewrite Hc|].
  by destruct (is_space x).
Qed.

Lemma trimEnd_cons c l :
  is_space c = false → trimEnd (c :: l) = c :: trimEnd l.
Proof.
  intros Hc. unfold trimEnd. rewrite reverse_cons, trimStart_snoc by done.
  by rewrite reverse_app.
Qed.

Lemma trimEnd_prefix l : ∃ k, l = trimEnd l ++ k.
Proof.
  unfold trimEnd. destruct (trimStart_suffix (reverse l)) as [k Hk].
  exists (reverse k). rewrite <- reverse_app, <- Hk. by rewrite reverse_involutive.
Qed.

Lemma trimEnd_fixed l : trimEnd (trimEnd l) = trimEnd l.
Proof.
  unfold trimEnd. rewrite reverse_involutive.
  pose proof (trimStart_starts (reverse l)) as H.
  destruct (trimStart (reverse l)) as [|c k]; [done|].
  by rewrite trimStart_fixed.
Qed.

Lemma trim_elem c l : c ∈ trim l → c ∈ l.
Proof.
  unfold trim. intros Hc.
  destruct (trimEnd_prefix (trimStart l)) as [k Hk].
  destruct (trimStart_suffix l) as [k' Hk'].
  rewrite Hk'. apply elem_of_app. right. rewrite Hk. apply elem_of_app. by left.
Qed.

Lemma trim_idemp l : trim (trim l) = trim l.
Proof.
  unfold trim. pose proof (trimStart_starts l) as H.
  destruct (trimStart l) as [|c k]; [done|].
  rewrite trimEnd_cons by done. rewrite trimStart_fixed by done.
  rewrite <- trimEnd_cons by done. apply trimEnd_fixed.
Qed.

Lemma split_nonempty sep l : split sep l ≠ [].
Proof.
  destruct l as [|c l]; simpl; [done|].
  destruct (decide (c = sep)); [done|]. by destruct (split sep l).
Qed.

Lemma split_no_separator sep l piece :
  piece ∈ split sep l → sep ∉ piece.
Proof.
  revert piece. induction l as [|c l IH]; intros piece; simpl.
  - intros ->%list_elem_of_singleton. apply not_elem_of_nil.
  - destruct (decide (c = sep)) as [->|Hne].
    + intros [->|H]%elem_of_cons; [apply not_elem_of_nil | by apply IH].
    + pose proof (split_nonempty sep l) as Hs.
      destruct (split sep l) as [|p ps]; [done|].
      intros [->|H]%elem_of_cons.
      * intros [->|Hp]%elem_of_cons; [done|]. apply (IH p); [left | done].
      * apply IH. by right.
Qed.

Lemma join_split sep l : join sep (split sep l) = l.
Proof.
  induction l as [|c l IH]; [done|]. simpl.
  pose proof (split_nonempty sep l) as Hs.
  destruct (decide (c = sep)) as [->|Hne].
  - destruct (split sep l) as [|p ps]; [done|]. simpl in *. by rewrite IH.
  - destruct (split sep l) as [|p ps]; [done|].
    destruct ps; simpl in *; by rewrite <- IH.
Qed.

(** ** Administrators *)

(** X9 ([ADMIN_IDS] of [server.js]): every administrator id read from
    the environment is non-empty, carries no surrounding white space and
    no comma. *)
Theorem admin_ids_are_trimmed (env : option string) :
  Forall (λ id, id ≠ "" ∧ str (trim (chars id)) = id ∧ ","%char ∉ chars id)
         (Admin.ADMIN_IDS env).
Proof.
  unfold Admin.ADMIN_IDS. apply Forall_fmap, Forall_forall.
  intros id [Hne (piece & -> & Hpiece)%list_elem_of_fmap]%list_elem_of_filter.
  simpl. rewrite chars_str. split_and!.
  - intros H. apply Hne. by rewrite <- (chars_str (trim piece)), H.
  - by rewrite trim_idemp.
  - intros Hc%trim_elem. by apply (split_no_separator _ _ _ Hpiece).
Qed.

Lemma filter_fmap_length {A} (f : A → A) (P : A → Prop)
    `{!∀ x, Decision (P x)} (l : list A) :
  (∀ x, P (f x) → P x) →
  (length (filter P (f <$> l)) ≤ length (filter P l))%nat.
Proof.
  intros HP. induction l as [|x l IH]; [done|]. rewrite fmap_cons.
  destruct (decide (P (f x))) as [Hfx|Hfx].
  - rewrite filter_cons_True by done.
    rewrite (filter_cons_True P x) by auto. simpl. lia.
  - rewrite filter_cons_False by done.
    destruct (decide (P x)).
    + rewrite filter_cons_True by done. simpl. lia.
    + by rewrite filter_cons_False.
Qed.

(** X10 ([checkServices] of [envValidator.js] against [ADMIN_IDS] of
    [server.js]): the start-up check counts the comma-separated pieces
    before trimming them, so it never reports fewer administrators than
    [requireAdmin] knows, and it can report some when there is none. *)
Theorem reported_admins_bound_the_real_ones :
  (∀ env, (length (Admin.ADMIN_IDS (Admin.ADMIN_IDS_var env))
           ≤ length (Admin.adminIds env))%nat)
  ∧ (let env := Admin.mkEnv None None None (Some " , ") in
     Admin.ADMIN_IDS (Admin.ADMIN_IDS_var env) = []
     ∧ last (Admin.checkServices env)
       = Some (Admin.mkCheck "Admin Users" Admin.Ok "2 admin(s) configured")).
Proof.
  split.
  - intros env. unfold Admin.ADMIN_IDS, Admin.adminIds.
    rewrite !length_fmap. apply filter_fmap_length.
    intros piece Hne ->. by apply Hne.
  - split; vm_compute; reflexivity.
Qed.

(** ** Input sanitizing *)

Lemma sanitizeText_chars input :
  chars (Validation.sanitizeText input)
  = trim (filter (λ c, c ≠ "<"%char ∧ c ≠ ">"%char) (chars input)).
Proof. unfold Validation.sanitizeText. by rewrite chars_str. Qed.

Lemma sanitizeText_clean input :
  let out := Validation.sanitizeText input in
  ("<"%char ∉ chars out) ∧ (">"%char ∉ chars out)
  ∧ trim (chars out) = chars out
  ∧ Validation.sanitizeText out = out.
Proof.
  cbn zeta. rewrite sanitizeText_chars.
  set (kept := filter _ (chars input)).
  assert (∀ c, c ∈ trim kept → c ≠ "<"%char ∧ c ≠ ">"%char) as Hkept.
  { intros c Hc%trim_elem. subst kept. by apply list_elem_of_filter in Hc as [? _]. }
  split_and!.
  - intros H. by destruct (Hkept _ H).
  - intros H. by destruct (Hkept _ H).
  - apply trim_idemp.
  - unfold Validation.sanitizeText at 1. rewrite sanitizeText_chars. fold kept.
    rewrite filter_all by (by apply Forall_forall).
    by rewrite trim_idemp.
Qed.

(** X11 ([sanitizeInput], [sanitizeBody]): a sanitized body keeps its
    keys and holds no [<] or [>] and no surrounding white space in any
    field that is a text; a field that is not a text, an array or an
    object with the texts inside it included, is handed back as it is.
    Sanitizing the body again changes nothing. *)
Theorem sanitized_body_has_no_angle_brackets
    (fields : gmap string Validation.Value) :
  ∃ clean,
    Validation.sanitizeBody (Some fields) = Some clean
    ∧ Validation.sanitizeBody (Some clean) = Some clean
    ∧ ∀ key,
        match fields !! key with
        | Some (Validation.Text s) =>
            ∃ s', clean !! key = Some (Validation.Text s')
                  ∧ ("<"%char ∉ chars s') ∧ (">"%char ∉ chars s')
                  ∧ trim (chars s') = chars s'
        | other => clean !! key = other
        end.
Proof.
  exists (Validation.sanitizeInput <$> fields). split_and!.
  - done.
  - simpl. f_equal.
    rewrite <- map_fmap_compose. apply map_fmap_ext.
    intros key [s| | | | |] _; simpl; try done.
    f_equal. apply sanitizeText_clean.
  - intros key. rewrite lookup_fmap.
    destruct (fields !! key) as [[s| | | | |]|]; simpl; try done.
    exists (Validation.sanitizeText s). split; [done|].
    pose proof (sanitizeText_clean s) as (? & ? & ? & _). done.
Qed.

(** ** Stock management *)

Lemma split_cons_first sep l :
  ∃ first rest, split sep l = first :: rest ∧ (sep ∉ first)
                ∧ l = join sep (first :: rest).
Proof.
  pose proof (split_nonempty sep l) as Hne.
  destruct (split sep l) as [|first rest] eqn:Hs; [done|].
  exists first, rest. split_and!; [done | |].
  - apply (split_no_separator sep l). rewrite Hs. left.
  - by rewrite <- Hs, join_split.
Qed.

(** X12 (bulk import of [server.js], the loop over the lines): an
    accepted line is stored whole as [stock_data], and its fields put
    back together with colons give the line again; the user name, and
    for [user_pass_cookie] the password too, hold no colon. *)
Theorem bulk_line_fields_rebuild_the_line
    (stockType : Stock.StockType) (line : list ascii) (item : Stock.Item) :
  Stock.parse_line stockType line = Some item →
  Stock.item_stock_type item = stockType
  ∧ Stock.item_stock_data item = str line
  ∧ match stockType with
    | Stock.key =>
        Stock.item_username item = None ∧ Stock.item_password item = None
        ∧ Stock.item_cookie item = None
    | Stock.user_pass =>
        ∃ u p, Stock.item_username item = Some (str u)
               ∧ Stock.item_password item = Some (str p)
               ∧ Stock.item_cookie item = None
               ∧ line = u ++ ":"%char :: p ∧ (":"%char ∉ u)
    | Stock.user_pass_cookie =>
        ∃ u p c, Stock.item_username item = Some (str u)
                 ∧ Stock.item_password item = Some (str p)
                 ∧ Stock.item_cookie item = Some (str c)
                 ∧ line = u ++ ":"%char :: p ++ ":"%char :: c
                 ∧ (":"%char ∉ u) ∧ (":"%char ∉ p)
    end.
Proof.
  unfold Stock.parse_line. destruct stockType.
  - intros [= <-]. done.
  - destruct (split_cons_first ":"%char line) as (u & rest & Hs & Hu & Hline).
    rewrite Hs. destruct (decide _) as [|Hlen]; [done|]. intros [= <-].
    split_and!; [done..|]. exists u, (join ":"%char rest).
    destruct rest as [|p rest]; [simpl in Hlen; lia|].
    split_and!; try done.
  - destruct (split_cons_first ":"%char line) as (u & rest & Hs & Hu & Hline).
    rewrite Hs. destruct (decide _) as [|Hlen]; [done|]. intros [= <-].
    split_and!; [done..|].
    destruct rest as [|p [|c rest]]; [simpl in Hlen; lia..|].
    exists u, p, (join ":"%char (c :: rest)).
    split_and!; try done.
    apply (split_no_separator ":"%char line). rewrite Hs. right. left.
Qed.

Lemma bulk_line_fields_rebuild_the_line_witness :
  Stock.parse_line Stock.user_pass_cookie (chars "bob:s3cret:a=1:b=2")
  = Some (Stock.mkItem Stock.user_pass_cookie "bob:s3cret:a=1:b=2"
            (Some "bob") (Some "s3cret") (Some "a=1:b=2"))
  ∧ Stock.item_stock_data
      (Stock.mkItem Stock.user_pass_cookie "bob:s3cret:a=1:b=2"
         (Some "bob") (Some "s3cret") (Some "a=1:b=2"))
    = str (chars "bob:s3cret:a=1:b=2").
Proof.
  split; [vm_compute; reflexivity|].
  exact (proj1 (proj2 (bulk_line_fields_rebuild_the_line
    Stock.user_pass_cookie (chars "bob:s3cret:a=1:b=2") _ eq_refl))).
Defined.

Lemma parse_lines_lengths stockType lineNum lines :
  (length (Stock.parse_lines stockType lineNum lines).1
   + length (Stock.parse_lines stockType lineNum lines).2
   = length lines)%nat
  ∧ (stockType = Stock.key → (Stock.parse_lines stockType lineNum lines).2 = []).
Proof.
  revert lineNum. induction lines as [|line lines IH]; intros lineNum; [done|].
  simpl. specialize (IH (S lineNum)).
  destruct (Stock.parse_lines stockType (S lineNum) lines) as [items errors].
  simpl in IH. destruct IH as [IH1 IH2].
  destruct (Stock.parse_line stockType line) eqn:Hline; simpl.
  - split; [lia | done].
  - split; [lia|]. intros ->. done.
Qed.

Lemma new_stock_rows_unsold first p items now :
  filter (unsold_of p) (new_stock_rows first p items now)
  = new_stock_rows first p items now
  ∧ length (new_stock_rows first p items now) = length items
  ∧ ∀ p', p' ≠ p →
      filter (unsold_of p') (new_stock_rows first p items now) = [].
Proof.
  revert first. induction items as [|item items IH]; intros first; [done|].
  simpl. destruct (IH (S first)) as (IH1 & IH2 & IH3). split_and!.
  - rewrite filter_cons_True by done. by rewrite IH1.
  - by rewrite IH2.
  - intros p' Hne. rewrite filter_cons_False; [by apply IH3|].
    intros [H _]. simpl in H. done.
Qed.

Lemma countAvailableStock_eq p db :
  Stock.countAvailableStock p db = (inr (get_available_stock_count p db), db).
Proof. reflexivity. Qed.

Lemma count_after_insert p items now db :
  get_available_stock_count p (product_stocks_insert p items now db).2
  = get_available_stock_count p db + Z.of_nat (length items).
Proof.
  unfold get_available_stock_count, product_stocks_insert. simpl.
  rewrite filter_app, length_app.
  destruct (new_stock_rows_unsold (next_stock_id (product_stocks db)) p items now)
    as (-> & -> & _). lia.
Qed.

(** X13 ([POST /api/admin/products/:id/stocks/bulk]): an import that does
    not answer 200 writes nothing.  One that does appends, for the
    well-formed lines in their order, one unsold unit each, leaves every
    other row alone, and reports the number added, the count of unsold
    units of the product, which grew by that number, and one error per
    rejected line. *)
Theorem bulk_import_adds_the_well_formed_lines
    (productId : string) (text stockType : option string)
    (product : option Product) (now : Z) (db db' : DB)
    (status : Z) (body : Stock.Body) :
  Stock.bulk_route productId text stockType product now db
  = (inr (status, body), db') →
  (status ≠ 200 → db' = db)
  ∧ (status = 200 →
     ∃ content type stockItems errors,
       text = Some content
       ∧ Stock.stock_type_of stockType = Some type
       ∧ Stock.parse_lines type 1 (Stock.lines_of content)
         = (stockItems, errors)
       ∧ (length stockItems + length errors
          = length (Stock.lines_of content))%nat
       ∧ body = Stock.Added (length stockItems)
                  (get_available_stock_count productId db
                   + Z.of_nat (length stockItems))
                  errors
       ∧ db' = set_product_stocks
                 (λ l, l ++ new_stock_rows (next_stock_id l) productId
                              (Stock.item_stock_data <$> stockItems) now)
                 db).
Proof.
  unfold Stock.bulk_route. eff.
  destruct text as [content|]; [|by intros [= <- <- <-]].
  destruct (decide (trim (chars content) = [])); [by intros [= <- <- <-]|].
  destruct (Stock.stock_type_of stockType) as [type|] eqn:Htype;
    [|by intros [= <- <- <-]].
  destruct (decide (Stock.lines_of content = [])); [by intros [= <- <- <-]|].
  destruct product as [prod|]; [|by intros [= <- <- <-]].
  pose proof (parse_lines_lengths type 1 (Stock.lines_of content)) as [Hlen _].
  destruct (Stock.parse_lines type 1 (Stock.lines_of content))
    as [stockItems errors] eqn:Hparse.
  destruct (decide (stockItems = [])); [by intros [= <- <- <-]|].
  pose proof (count_after_insert productId
                (Stock.item_stock_data <$> stockItems) now db) as Hcount.
  unfold product_stocks_insert in *. simpl in *.
  rewrite length_fmap in *.
  intros [= <- <- <-]. split; [done|]. intros _.
  exists content, type, stockItems, errors.
  split_and!; try done. f_equal. exact Hcount.
Qed.

Lemma bulk_import_adds_the_well_formed_lines_witness :
  let text := "alice:pw1
no-colon-here

  bob:pw:2  " in
  Stock.bulk_route "P" (Some text) (Some "user_pass") (Some Scenario.P) 40
    Scenario.start
  = (inr (200, Stock.Added 2 5 [Stock.line_error Stock.user_pass 2]),
     set_product_stocks
       (λ l, l ++ [ mkStock 4 "P" "alice:pw1" false None None None 40;
                    mkStock 5 "P" "bob:pw:2" false None None None 40 ])
       Scenario.start)
  ∧ ∃ stockItems errors,
      Stock.parse_lines Stock.user_pass 1 (Stock.lines_of text)
      = (stockItems, errors)
      ∧ (length stockItems + length errors = 3)%nat.
Proof.
  intros text.
  assert (Stock.bulk_route "P" (Some text) (Some "user_pass")
            (Some Scenario.P) 40 Scenario.start
          = (inr (200, Stock.Added 2 5 [Stock.line_error Stock.user_pass 2]),
             set_product_stocks
               (λ l, l ++ [ mkStock 4 "P" "alice:pw1" false None None None 40;
                            mkStock 5 "P" "bob:pw:2" false None None None 40 ])
               Scenario.start)) as Hrun by (vm_compute; reflexivity).
  split; [exact Hrun|].
  destruct (proj2 (bulk_import_adds_the_well_formed_lines _ _ _ _ _ _ _ _ _ Hrun)
              eq_refl)
    as (content & type & stockItems & errors & Htext & Htype & Hparse & Hlen & _).
  injection Htext as <-. vm_compute in Htype. injection Htype as <-.
  exists stockItems, errors. split; [exact Hparse|]. exact Hlen.
Defined.

(** X14 ([DELETE /api/admin/stocks/:id], [POST
    /api/admin/products/:id/stocks]): deleting never removes a sold unit
    and never adds or changes a row; it answers 200 only for an unsold
    unit, which is then gone.  Adding answers 200 only with the entries
    that are not blank, trimmed and in their order, appended as unsold
    units. *)
Theorem stock_routes_keep_sold_units
    (stockId : nat) (productId : string) (stocks : option (list string))
    (product : option Product) (now : Z) (db : DB) :
  (let '(answer, db') := Stock.delete_route stockId db in
   (∀ s, s ∈ product_stocks db → is_sold s = true → s ∈ product_stocks db')
   ∧ (∀ s, s ∈ product_stocks db' → s ∈ product_stocks db)
   ∧ set_product_stocks (λ _, product_stocks db) db' = db
   ∧ (answer = inr (200, Stock.Deleted) →
      ∃ s, s ∈ product_stocks db ∧ stock_id s = stockId ∧ is_sold s = false
           ∧ product_stocks db'
             = filter (λ s, stock_id s ≠ stockId) (product_stocks db))
   ∧ (answer ≠ inr (200, Stock.Deleted) → db' = db))
  ∧ (let '(answer, db') := Stock.add_route productId stocks product now db in
     let kept := filter (λ s, s ≠ [])
                   ((λ s, trim (chars s)) <$> default [] stocks) in
     (∀ status body, answer = inr (status, body) → status ≠ 200 → db' = db)
     ∧ (∀ body, answer = inr (200, body) →
          kept ≠ []
          ∧ body = Stock.Added (length kept)
                     (get_available_stock_count productId db
                      + Z.of_nat (length kept)) []
          ∧ db' = set_product_stocks
                    (λ l, l ++ new_stock_rows (next_stock_id l) productId
                                 (str <$> kept) now) db)).
Proof.
  split.
  - unfold Stock.delete_route, Stock.product_stocks_select_single,
      Stock.product_stocks_delete, Stock.countAvailableStock. eff.
    set (rows := filter (λ s, stock_id s = stockId) (product_stocks db)).
    assert (∀ s, s ∈ rows → s ∈ product_stocks db ∧ stock_id s = stockId)
      as Hrows.
    { intros s Hs. subst rows. apply list_elem_of_filter in Hs. tauto. }
    destruct db as [w ps o t r]. simpl in *.
    destruct rows as [|stock [|]] eqn:Hsel; simpl;
      try (split_and!; [done | done | done | done | done]).
    destruct (is_sold stock) eqn:Hsold; simpl;
      [split_and!; [done | done | done | done | done]|].
    destruct (Hrows stock ltac:(left)) as [Hin Hid].
    split_and!.
    + intros s Hs Hss. apply list_elem_of_filter. split; [|done].
      intros Heq. assert (s ∈ rows) as Hsr.
      { subst rows. apply list_elem_of_filter. done. }
      rewrite Hsel in Hsr. apply list_elem_of_singleton in Hsr as ->.
      congruence.
    + intros s Hs%list_elem_of_filter. tauto.
    + done.
    + intros _. exists stock. done.
    + done.
  - unfold Stock.add_route. eff.
    destruct stocks as [[|s stocks]|]; simpl; [done | | done].
    destruct product as [prod|]; [|done].
    set (kept := filter _ _).
    destruct (decide (kept = [])) as [|Hne]; [done|].
    pose proof (count_after_insert productId (str <$> kept) now db) as Hcount.
    unfold product_stocks_insert in *. simpl in *. rewrite length_fmap in *.
    split; [by intros ? ? [= <- _] ?|].
    intros body [= <-]. split_and!; try done.
    f_equal. exact Hcount.
Qed.

Lemma stock_routes_keep_sold_units_witness :
  let db := Scenario.after_first 1700000000 in
  let sold := mkStock 1 "P" "KEY-1" true (Some "A") (Some 1700000000)
                (Some (order_id_at 1700000000)) 10 in
  Stock.delete_route 1 db = (inr (400, Stock.AlreadySold), db)
  ∧ (Stock.delete_route 3 db).1 = inr (200, Stock.Deleted)
  ∧ sold ∈ product_stocks (Stock.delete_route 3 db).2.
Proof.
  intros db sold.
  split; [vm_compute; reflexivity|]. split; [vm_compute; reflexivity|].
  pose proof (proj1 (stock_routes_keep_sold_units 3 "P" None None 0 db)) as H.
  destruct H as (Hkeep & _). refine (Hkeep sold _ eq_refl).
  apply list_elem_of_In. simpl. tauto.
Defined.

Lemma NoDup_fmap_elem_inj {A B} (f : A → B) (l : list A) x y :
  NoDup (f <$> l) → x ∈ l → y ∈ l → f x = f y → x = y.
Proof.
  induction l as [|a l IH]; intros Hnd Hx Hy Hf; [by apply not_elem_of_nil in Hx|].
  rewrite fmap_cons in Hnd. apply NoDup_cons in Hnd as [Ha Hnd].
  apply elem_of_cons in Hx as [->|Hx]; apply elem_of_cons in Hy as [->|Hy].
  - done.
  - exfalso. apply Ha. rewrite Hf. by apply list_elem_of_fmap_2.
  - exfalso. apply Ha. rewrite <- Hf. by apply list_elem_of_fmap_2.
  - by apply IH.
Qed.

Lemma filter_ext_elem {A} (P Q : A → Prop) `{!∀ x, Decision (P x)}
    `{!∀ x, Decision (Q x)} (l : list A) :
  (∀ x, x ∈ l → P x ↔ Q x) → filter P l = filter Q l.
Proof.
  induction l as [|a l IH]; intros Hiff; [done|].
  assert (filter P l = filter Q l) as Hl.
  { apply IH. intros x Hx. apply Hiff. by right. }
  destruct (decide (P a)) as [Ha|Ha].
  - rewrite !filter_cons_True; [by rewrite Hl | | done].
    apply Hiff; [left | done].
  - rewrite !filter_cons_False; [done | | done]. intros HQ. apply Ha.
    apply Hiff; [left | done].
Qed.

Lemma filter_none {A} (P : A → Prop) `{!∀ x, Decision (P x)} (l : list A) :
  Forall (λ x, ¬ P x) l → filter P l = [].
Proof.
  induction 1 as [|x l Hx _ IH]; [done|]. by rewrite filter_cons_False.
Qed.

Lemma unsold_after_mark ids u now oid p (l : list StockRow) :
  filter (unsold_of p) (mark_sold ids u now oid <$> l)
  = filter (λ s, (stock_id s ∉ ids) ∧ unsold_of p s) l.
Proof.
  induction l as [|s l IH]; [done|]. rewrite fmap_cons.
  unfold mark_sold at 1. destruct (decide (stock_id s ∈ ids)) as [Hin|Hout].
  - rewrite filter_cons_False by (intros [_ H]; done).
    rewrite filter_cons_False by tauto. done.
  - destruct (decide (unsold_of p s)).
    + rewrite !filter_cons_True by done. by rewrite IH.
    + rewrite !filter_cons_False by tauto. done.
Qed.

Lemma count_after_mark p q u now oid db :
  NoDup (stock_id <$> product_stocks db) →
  let rows := take q (unsold_oldest_first p db) in
  let marked := mark_sold (stock_id <$> rows) u now oid <$> product_stocks db in
  length (filter (unsold_of p) marked)
  = (length (filter (unsold_of p) (product_stocks db)) - length rows)%nat
  ∧ ∀ p', p' ≠ p →
      filter (unsold_of p') marked = filter (unsold_of p') (product_stocks db).
Proof.
  intros Hnd rows marked. subst marked. rewrite !unsold_after_mark.
  pose proof (unsold_oldest_first_perm p db) as Hperm.
  set (sorted := unsold_oldest_first p db) in *.
  assert (NoDup (stock_id <$> sorted)) as Hsorted.
  { rewrite Hperm. eapply sublist_NoDup; [exact Hnd|].
    apply fmap_sublist, sublist_filter. }
  assert (∀ s, s ∈ rows → s ∈ product_stocks db ∧ unsold_of p s) as Hrows.
  { intros s Hs. assert (s ∈ sorted) as Hs'.
    { subst rows. rewrite <- (take_drop q sorted). apply elem_of_app. by left. }
    rewrite Hperm in Hs'. apply list_elem_of_filter in Hs'. tauto. }
  split.
  - rewrite <- (list_filter_filter (λ s, stock_id s ∉ stock_id <$> rows)
                 (unsold_of p)).
    rewrite <- Hperm.
    assert (sorted = rows ++ drop q sorted) as Hsplit
      by (subst rows; symmetry; apply take_drop).
    rewrite Hsplit in Hsorted. rewrite fmap_app in Hsorted.
    apply NoDup_app in Hsorted as (_ & Hdisj & _).
    rewrite Hsplit. rewrite filter_app, !length_app.
    rewrite filter_none, filter_all; [simpl; lia | |].
    + apply Forall_forall. intros s Hs Hin. apply (Hdisj _ Hin).
      by apply list_elem_of_fmap_2.
    + apply Forall_forall. intros s Hs Hout. apply Hout.
      by apply list_elem_of_fmap_2.
  - intros p' Hne. rewrite unsold_after_mark.
    apply filter_ext_elem. intros s Hs. split; [tauto|].
    intros Hun. split; [|done].
    intros (r & Hid & Hr)%list_elem_of_fmap.
    destruct (Hrows r Hr) as [HrL [Hrp _]].
    assert (s = r) as -> by (by apply (NoDup_fmap_elem_inj stock_id (product_stocks db))).
    destruct Hun as [Hsp _]. congruence.
Qed.

(** X15 ([complete_purchase] through the purchase route, against
    [countAvailableStock] / [get_available_stock_count]): with unit ids
    unique, a purchase that answers 200 lowers the count of unsold units
    of its product by exactly the quantity bought and leaves the count
    of every other product as it was. *)
Theorem purchase_lowers_the_stock_count
    (u p : string) (quantity : option Z) (product : option Product)
    (now : Z) (db db' : DB) (body : PurchaseBody) :
  NoDup (stock_id <$> product_stocks db) →
  purchase_route u p quantity product now db = (inr (200, body), db') →
  get_available_stock_count p db'
  = get_available_stock_count p db - parseInt_or_1 quantity
  ∧ (∀ p', p' ≠ p →
       get_available_stock_count p' db' = get_available_stock_count p' db)
  ∧ Stock.countAvailableStock p db'
    = (inr (get_available_stock_count p db - parseInt_or_1 quantity), db').
Proof.
  intros Hnd Hrun.
  destruct (purchase_route_cases u p quantity product now db)
    as [(status & body' & Hne & Hfail) | (prod & b & Hok)].
  { rewrite Hfail in Hrun. congruence. }
  cbn zeta in Hok.
  destruct Hok as (_ & Hq & _ & _ & _ & Hlen & _ & _ & Hdone).
  rewrite Hdone in Hrun. injection Hrun as _ <-.
  set (q := parseInt_or_1 quantity) in *.
  pose proof (count_after_mark p (Z.to_nat q) u now (order_id_at now) db Hnd)
    as [Hcount Hother].
  cbn zeta in Hcount, Hother.
  assert (get_available_stock_count p
            (settled u p q (price prod) (name prod) now b
               (take (Z.to_nat q) (unsold_oldest_first p db)) db)
          = get_available_stock_count p db - q) as Hp.
  { unfold get_available_stock_count, settled, debited_and_marked. simpl.
    rewrite Hcount.
    pose proof (unsold_oldest_first_length p db) as Hall.
    unfold get_available_stock_count in Hall.
    assert (length (take (Z.to_nat q) (unsold_oldest_first p db))
            ≤ length (unsold_oldest_first p db))%nat
      by (rewrite length_take; lia).
    lia. }
  split_and!.
  - exact Hp.
  - intros p' Hne. unfold get_available_stock_count, settled,
      debited_and_marked. simpl. by rewrite Hother.
  - rewrite countAvailableStock_eq. by rewrite Hp.
Qed.

Lemma purchase_lowers_the_stock_count_witness :
  NoDup (stock_id <$> product_stocks Scenario.start)
  ∧ get_available_stock_count "P" (Scenario.after_first 1700000000)
    = get_available_stock_count "P" Scenario.start - parseInt_or_1 (Some 2).
Proof.
  assert (NoDup (stock_id <$> product_stocks Scenario.start)) as Hnd.
  { refine (bool_decide_unpack _ _). vm_compute. exact I. }
  split; [exact Hnd|].
  refine (proj1 (purchase_lowers_the_stock_count "A" "P" (Some 2)
    (Some Scenario.P) 1700000000 Scenario.start
    (Scenario.after_first 1700000000)
    (Purchased (order_id_at 1700000000) 2 (baht 200) ["KEY-1"; "KEY-2"]
       (baht 50)) Hnd _)).
  vm_compute. reflexivity.
Defined.

(** ** Security middleware *)











(** ** Slip verification *)

(** X17 ([POST /api/thunder/verify-slip]): the route reads [supabase], a
    name [server.js] does not bind.  So a slip that Thunder has verified,
    sent with a request id and a matching (or no) amount, is answered 500;
    and on no input does the route write to the database: a request is
    never marked verified. *)
Theorem verified_slip_with_request_id_fails
    (exceeds_a_hundredth : Z → Z → bool)
    (supabase_update_verified : string → string → Slip.Result → Z → Js.M unit)
    (userId : string) (slipData requestId : string) (amount : option Z)
    (result : Slip.Result) (now : Z) (db : DB) :
  slipData ≠ "" → requestId ≠ "" →
  Slip.slip_success result = true →
  amount = None ∨ amount = Some (Slip.slip_amount result) →
  Slip.verify_slip_route exceeds_a_hundredth supabase_update_verified
    true userId (Some slipData) amount (Some requestId) result now db
  = (inr (500, Slip.Failed), db)
  ∧ Slip.verify_slip_route exceeds_a_hundredth supabase_update_verified
      true userId (Some slipData) amount None result now db
    = (inr (200, Slip.Verified result), db)
  ∧ ∀ enabled userId' slipData' amount' requestId' result' now' db',
      (Slip.verify_slip_route exceeds_a_hundredth supabase_update_verified
         enabled userId' slipData' amount' requestId' result' now' db').2
      = db'.
Proof.
  intros Hslip Hrid Hok Hamount.
  assert (Slip.mismatch exceeds_a_hundredth result amount = false) as Hmatch.
  { unfold Slip.mismatch. destruct Hamount as [->| ->]; [done|].
    destruct (decide _); [done|].
    replace (Slip.slip_amount result - Slip.slip_amount result) with 0 by lia.
    simpl. done. }
  split_and!.
  - unfold Slip.verify_slip_route. eff. simpl.
    rewrite decide_False by (intros [|[=]]; done).
    rewrite Hok, Hmatch. rewrite decide_False by done. done.
  - unfold Slip.verify_slip_route. eff. simpl.
    rewrite decide_False by (intros [|[=]]; done).
    rewrite Hok, Hmatch. done.
  - clear. intros enabled userId' slipData' amount' requestId' result' now' db'.
    unfold Slip.verify_slip_route. eff.
    destruct enabled; simpl; [|done].
    destruct (decide _); [done|].
    destruct (Slip.slip_success result'); [|done].
    destruct (Slip.mismatch _ _ _); [done|].
    destruct requestId' as [rid|]; [|done].
    destruct (decide (rid = "")); [done|]. done.
Qed.

Lemma verified_slip_with_request_id_fails_witness :
  let result := Slip.mkResult true (baht 100) "REF1" "A" "Shop" "KBANK" "SCB"
                  "2024-01-01" None in
  Slip.verify_slip_route (λ _ _, true)
    (λ requestId _ _ _,
       Eff.exec (patch_requests (with_status approved) requestId))
    true "A" (Some "data:image/png;base64,AAAA") (Some (baht 100))
    (Some "REQ1700000000000") result 1700000000500 empty_db
  = (inr (500, Slip.Failed), empty_db).
Proof.
  intros result.
  refine (proj1 (verified_slip_with_request_id_fails _ _ "A"
    "data:image/png;base64,AAAA" "REQ1700000000000" (Some (baht 100)) result
    1700000000500 empty_db _ _ eq_refl (or_intror eq_refl))); done.
Defined.

(** ** Requests by voucher link *)



Lemma filter_snoc_new {A} (P : A → Prop) `{!∀ x, Decision (P x)} l x :
  filter P (l ++ [x]) = filter P l ++ (if decide (P x) then [x] else []).
Proof.
  rewrite filter_app.
  destruct (decide (P x));
    [by rewrite filter_cons_True | by rewrite filter_cons_False].
Qed.






(** ** Orders of a user *)

(** X20 ([GET /api/orders/:id] after a purchase): the order a purchase
    reports can be read back by the buyer, with the delivered keys, the
    quantity and the total of the answer; any other user gets 404 for
    it.  In general the route only ever hands out an order of the user
    who asks. *)
Theorem buyer_reads_back_the_delivered_keys
    (u p : string) (quantity : option Z) (product : option Product)
    (now : Z) (db db' : DB) (orderId : string) (q total : Z)
    (delivery : list string) (newBalance : Z) :
  purchase_route u p quantity product now db
  = (inr (200, Purchased orderId q total delivery newBalance), db') →
  (∃ order,
      Orders.order_route u orderId db' = (inr (200, Orders.Found order), db')
      ∧ order_id order = orderId ∧ order_user_id order = u
      ∧ order_product_id order = p ∧ order_quantity order = q
      ∧ order_total order = total ∧ delivery_items order = delivery)
  ∧ (∀ v, v ≠ u →
       Orders.order_route v orderId db' = (inr (404, Orders.NotFound), db'))
  ∧ (∀ v id db0 order db1,
       Orders.order_route v id db0 = (inr (200, Orders.Found order), db1) →
       order_user_id order = v ∧ order_id order = id ∧ order ∈ orders db0
       ∧ db1 = db0).
Proof.
  intros Hrun.
  destruct (purchase_route_cases u p quantity product now db)
    as [(status & body' & Hne & Hfail) | (prod & b & Hok)].
  { rewrite Hfail in Hrun. congruence. }
  cbn zeta in Hok.
  destruct Hok as (_ & _ & _ & _ & _ & _ & Hfree & _ & Hdone).
  rewrite Hdone in Hrun. injection Hrun as <- <- <- <- <- <-.
  set (rows := take _ _) in *.
  set (po := purchase_order u p (parseInt_or_1 quantity) (price prod)
               (name prod) now rows).
  assert (∀ v, filter (λ o, order_id o = order_id_at now ∧ order_user_id o = v)
                 (orders (settled u p (parseInt_or_1 quantity) (price prod)
                            (name prod) now b rows db))
               = if decide (v = u) then [po] else []) as Hsel.
  { intros v. unfold settled, debited_and_marked. simpl.
    rewrite filter_snoc_new. fold po.
    rewrite filter_none.
    - simpl. destruct (decide (v = u)) as [->|Hv].
      + by rewrite decide_True.
      + rewrite decide_False; [done|]. intros [_ H]. simpl in H. done.
    - apply Forall_forall. intros o Ho [Hid _]. apply Hfree.
      rewrite <- Hid. by apply list_elem_of_fmap_2. }
  split_and!.
  - exists po. unfold Orders.order_route. eff. rewrite Hsel.
    rewrite decide_True by done. done.
  - intros v Hv. unfold Orders.order_route. eff. rewrite Hsel.
    rewrite decide_False by done. done.
  - intros v id db0 order db1. unfold Orders.order_route. eff.
    destruct (filter _ (orders db0)) as [|o [|]] eqn:Hf; simpl; try done.
    intros [= <- <-].
    assert (o ∈ filter (λ o, order_id o = id ∧ order_user_id o = v)
                  (orders db0)) as Ho by (rewrite Hf; left).
    apply list_elem_of_filter in Ho as [[? ?] ?]. done.
Qed.

Lemma buyer_reads_back_the_delivered_keys_witness :
  Orders.order_route "A" (order_id_at 1700000000)
    (Scenario.after_first 1700000000)
  = (inr (200, Orders.Found
                 (mkOrder (order_id_at 1700000000) "A" "P" "Key" 2 (baht 100)
                    (baht 200) "completed" ["KEY-1"; "KEY-2"]
                    (Some 1700000000))),
     Scenario.after_first 1700000000)
  ∧ Orders.order_route "B" (order_id_at 1700000000)
      (Scenario.after_first 1700000000)
    = (inr (404, Orders.NotFound), Scenario.after_first 1700000000).
Proof.
  split; [vm_compute; reflexivity|].
  refine (proj1 (proj2 (buyer_reads_back_the_delivered_keys "A" "P" (Some 2)
    (Some Scenario.P) 1700000000 Scenario.start
    (Scenario.after_first 1700000000) (order_id_at 1700000000) 2 (baht 200)
    ["KEY-1"; "KEY-2"] (baht 50) _)) "B" _); [vm_compute; reflexivity | done].
Defined.

(** ** No unit is sold twice *)

Lemma next_stock_id_above l s :
  s ∈ l → (stock_id s < next_stock_id l)%nat.
Proof.
  unfold next_stock_id. induction l as [|a l IH]; intros Hs.
  - by apply not_elem_of_nil in Hs.
  - rewrite fmap_cons. cbn [foldr].
    set (m := foldr Nat.max 0%nat (stock_id <$> l)) in *.
    pose proof (Nat.le_max_l (stock_id a) m).
    pose proof (Nat.le_max_r (stock_id a) m).
    apply elem_of_cons in Hs as [->|Hs]; [lia|].
    specialize (IH Hs). lia.
Qed.

Lemma new_stock_rows_ids first p items now :
  stock_id <$> new_stock_rows first p items now = seq first (length items).
Proof.
  revert first. induction items as [|item items IH]; intros first; [done|].
  simpl. by rewrite IH.
Qed.

Lemma mark_sold_id ids u now oid (l : list StockRow) :
  stock_id <$> (mark_sold ids u now oid <$> l) = stock_id <$> l.
Proof.
  rewrite <- list_fmap_compose. apply list_fmap_ext. intros _ s _. simpl.
  unfold mark_sold. by destruct (decide _).
Qed.

(** What a request does to the stock table. *)
Lemma serve_product_stocks updateBalance db q :
  product_stocks (serve updateBalance db q) = product_stocks db
  ∨ (∃ rows u now oid,
        (∀ r, r ∈ rows → r ∈ product_stocks db ∧ is_sold r = false)
        ∧ product_stocks (serve updateBalance db q)
          = mark_sold (stock_id <$> rows) u now oid <$> product_stocks db)
  ∨ (∃ p items now,
        product_stocks (serve updateBalance db q)
        = product_stocks db
          ++ new_stock_rows (next_stock_id (product_stocks db)) p items now).
Proof.
  destruct q; simpl.
  - destruct (purchase_route_cases userId productId quantity product now db)
      as [(status & body & _ & ->) | (prod & b & Hok)]; [by left|].
    cbn zeta in Hok. destruct Hok as (_ & _ & _ & _ & _ & _ & _ & _ & ->).
    right. left. eexists _, userId, now, (order_id_at now). split; [|done].
    intros r Hr. apply elem_of_take in Hr as (i & Hr & _).
    apply list_elem_of_lookup_2 in Hr.
    rewrite unsold_oldest_first_perm in Hr.
    apply list_elem_of_filter in Hr as [[_ ?] ?]. done.
  - rewrite wallet_route_eq. left. unfold ensure_wallet.
    by destruct (wallets db !! userId).
  - rewrite deduct_route_eq. left.
    destruct (decide _); [done|]. destruct (decide _).
    + simpl. unfold ensure_wallet. by destruct (wallets db !! userId).
    + unfold moved. by destruct (decide _).
  - rewrite admin_topup_route_eq. left.
    destruct (decide _); [done|]. unfold moved. by destruct (decide _).
  - left. apply topup_route_wallets.
  - rewrite cancel_route_eq. left. by destruct (Supabase.single _).
  - rewrite approve_route_eq. left. destruct (Supabase.single _); [done|].
    cbn zeta. destruct (decide _); [done|]. unfold moved.
    by destruct (decide _).
  - rewrite reject_route_eq. left. by destruct (Supabase.single _).
  - rewrite redeem_route_eq. by left.
  - right. right. by exists productId, items, now.
Qed.

Lemma serve_keeps_sold_units updateBalance db q :
  NoDup (stock_id <$> product_stocks db) →
  NoDup (stock_id <$> product_stocks (serve updateBalance db q))
  ∧ ∀ s, s ∈ product_stocks db → is_sold s = true →
         s ∈ product_stocks (serve updateBalance db q).
Proof.
  intros Hnd.
  destruct (serve_product_stocks updateBalance db q)
    as [-> | [(rows & u & now & oid & Hrows & ->) | (p & items & now & ->)]].
  - done.
  - split; [by rewrite mark_sold_id|].
    intros s Hs Hsold. apply list_elem_of_fmap. exists s. split; [|done].
    unfold mark_sold. rewrite decide_False; [done|].
    intros (r & Hid & Hr)%list_elem_of_fmap.
    destruct (Hrows r Hr) as [HrL Hunsold].
    assert (s = r) as ->
      by (by apply (NoDup_fmap_elem_inj stock_id (product_stocks db))).
    congruence.
  - split; [|intros s Hs _; apply elem_of_app; by left].
    rewrite fmap_app, new_stock_rows_ids. apply NoDup_app.
    split_and!; [done | | apply NoDup_seq].
    intros id (s & -> & Hs)%list_elem_of_fmap Hin%elem_of_seq.
    pose proof (next_stock_id_above _ _ Hs). lia.
Qed.

Lemma dispatch_keeps_sold_units updateBalance ADMIN_IDS st h :
  NoDup (stock_id <$> product_stocks (store st)) →
  NoDup (stock_id <$> product_stocks
                        (store (dispatch updateBalance ADMIN_IDS st h)))
  ∧ ∀ s, s ∈ product_stocks (store st) → is_sold s = true →
         s ∈ product_stocks (store (dispatch updateBalance ADMIN_IDS st h)).
Proof.
  intros Hnd.
  destruct (dispatch_store updateBalance ADMIN_IDS st h)
    as [-> | [[_ ->] | (q & _ & ->)]].
  - done.
  - unfold ensure_wallet. by destruct (wallets (store st) !! _).
  - by apply serve_keeps_sold_units.
Qed.

(** X21 ([complete_purchase] and the routes of [server.js] that make up
    the application, over every run of it): unit ids stay unique, and a
    unit that has been sold is never touched again.  Whatever request
    comes next, the row is still there with its buyer, its order id and
    its time of sale: no key is delivered twice. *)
Theorem sold_units_are_never_resold
    (updateBalance : string → Z → Js.M unit) (ADMIN_IDS : list string)
    (hs : list Http) (h : Http) :
  let st := run_app updateBalance ADMIN_IDS hs in
  let st' := dispatch updateBalance ADMIN_IDS st h in
  NoDup (stock_id <$> product_stocks (store st))
  ∧ ∀ s, s ∈ product_stocks (store st) → is_sold s = true →
         s ∈ product_stocks (store st').
Proof.
  intros st st'.
  assert (NoDup (stock_id <$> product_stocks (store st))) as Hnd.
  { subst st. unfold run_app.
    induction hs as [|h' hs IH] using rev_ind; [constructor|].
    rewrite foldl_app. simpl. by apply dispatch_keeps_sold_units. }
  split; [done|]. by apply dispatch_keeps_sold_units.
Qed.

Lemma sold_units_are_never_resold_witness :
  let hs := [ Login "admin"; Login "A";
              Call (LoadStock "admin" "P" ["KEY-1"] 10);
              Call (AdminTopup "admin" "A" (baht 500) None 20);
              Call (Purchase "A" "P" (Some 1) (Some Scenario.P) 30) ] in
  let again := Call (Purchase "A" "P" (Some 1) (Some Scenario.P) 40) in
  let sold := mkStock 1 "P" "KEY-1" true (Some "A") (Some 30)
                (Some (order_id_at 30)) 10 in
  sold ∈ product_stocks (store (run_app (λ _ _, mret tt) ["admin"] hs))
  ∧ sold ∈ product_stocks
             (store (dispatch (λ _ _, mret tt) ["admin"]
                       (run_app (λ _ _, mret tt) ["admin"] hs) again)).
Proof.
  intros hs again sold.
  assert (sold ∈ product_stocks (store (run_app (λ _ _, mret tt) ["admin"] hs)))
    as Hin.
  { apply list_elem_of_In. vm_compute. tauto. }
  split; [exact Hin|].
  exact (proj2 (sold_units_are_never_resold (λ _ _, mret tt) ["admin"] hs again)
           sold Hin eq_refl).
Defined.

(** ** Redeeming a voucher *)

Lemma markVoucherUsed_records (voucherHash : string) (used : list string) :
  voucherHash ∉ used →
  voucherHash ∈ TrueMoney.markVoucherUsed voucherHash used.
Proof.
  intros Hnew. unfold TrueMoney.markVoucherUsed, TrueMoney.Set_add.
  rewrite (decide_False (P := voucherHash ∈ used)) by done.
  destruct (decide _) as [Hbig|_].
  - destruct used as [|first rest]; [simpl in Hbig; lia|].
    simpl app. unfold TrueMoney.Set_delete.
    apply list_elem_of_filter. split.
    + intros ->. apply Hnew. apply list_elem_of_here.
    + apply elem_of_cons. right. apply elem_of_app. right.
      apply list_elem_of_here.
  - apply elem_of_app. right. apply list_elem_of_here.
Qed.

Lemma redeemAngpao_success URL_v env link response now used amount tid used' :
  Redeem.redeemAngpao URL_v env link response now used
    = (Redeem.RedeemedOk amount tid, used') →
  ∃ voucherHash,
    Redeem.TRUEMONEY_ANGPAO_ENABLED env = Some "true"
    ∧ TrueMoney.extractVoucherHash URL_v link = Some voucherHash
    ∧ (voucherHash ∉ used)
    ∧ used' = TrueMoney.markVoucherUsed voucherHash used
    ∧ Redeem.lt amount
        (default (Redeem.Amount (baht 10)) (Redeem.TRUEMONEY_MIN_AMOUNT env))
      = false
    ∧ Redeem.lt
        (default (Redeem.Amount (baht 5000)) (Redeem.TRUEMONEY_MAX_AMOUNT env))
        amount
      = false.
Proof.
  unfold Redeem.redeemAngpao, TrueMoney.isVoucherUsed.
  case_bool_decide as Hen; simpl; [|done].
  destruct (TrueMoney.extractVoucherHash URL_v link) as [h|]; [|done].
  case_bool_decide as Hused; [done|].
  destruct (Redeem.PROVIDERS _); try done;
    repeat (destruct (decide _); try done);
    destruct response as [[st [d|]]|]; simpl; try done;
    repeat (destruct (decide _); try done).
  destruct (_ || _); [|done].
  destruct (Redeem.lt (default _ (Redeem.first_some _)) _) eqn:Hlo; [done|].
  destruct (Redeem.lt _ (default _ (Redeem.first_some _))) eqn:Hhi; [done|].
  intros [= <- <- <-]. by exists h.
Qed.

(** X22 ([redeemAngpao]): an amount the function reports as redeemed is
    not below the configured minimum and not above the configured
    maximum, whenever these are numbers; with nothing configured it lies
    between 10 and 5000 baht. *)
Theorem redeemed_amount_is_within_the_limits
    URL_v env link response now used a tid used' :
  Redeem.redeemAngpao URL_v env link response now used
    = (Redeem.RedeemedOk (Redeem.Amount a) tid, used') →
  (∀ lo, default (Redeem.Amount (baht 10)) (Redeem.TRUEMONEY_MIN_AMOUNT env)
         = Redeem.Amount lo → lo ≤ a)
  ∧ (∀ hi, default (Redeem.Amount (baht 5000))
             (Redeem.TRUEMONEY_MAX_AMOUNT env)
           = Redeem.Amount hi → a ≤ hi).
Proof.
  intros (h & _ & _ & _ & _ & Hlo & Hhi)%redeemAngpao_success.
  split; intros b Hb; rewrite Hb in *; simpl in *;
    case_bool_decide; [done|lia|done|lia].
Qed.

Lemma redeemed_amount_is_within_the_limits_witness :
  let env := Redeem.mkEnv (Some "true") None (Some "key")
               (Some "0812345678") None None in
  let d := Redeem.mkData true false false false false
             (Some (Redeem.Amount (baht 50))) None None (Some "T1") None None
             None None None in
  Redeem.redeemAngpao (λ _, None) env (Some "ABCDEFGH")
      (Some (Redeem.mkResponse 200 (Some d))) 0 []
    = (Redeem.RedeemedOk (Redeem.Amount (baht 50)) "T1", ["ABCDEFGH"])
  ∧ baht 10 ≤ baht 50 ≤ baht 5000.
Proof.
  split; [vm_compute; reflexivity|].
  pose proof (redeemed_amount_is_within_the_limits (λ _, None)
    (Redeem.mkEnv (Some "true") None (Some "key") (Some "0812345678")
       None None)
    (Some "ABCDEFGH")
    (Some (Redeem.mkResponse 200
       (Some (Redeem.mkData true false false false false
                (Some (Redeem.Amount (baht 50))) None None (Some "T1") None
                None None None None))))
    0 [] (baht 50) "T1" ["ABCDEFGH"] ltac:(vm_compute; reflexivity))
    as [Hlo Hhi].
  split; [apply Hlo|apply Hhi]; reflexivity.
Defined.

(** X23 ([redeemAngpao], [markVoucherUsed], [isVoucherUsed]): once a link
    has been redeemed, the next call with it is refused as already used,
    whatever the provider would answer, and records nothing more. *)
Theorem redeemed_voucher_is_refused_afterwards
    URL_v env link response now used amount tid used' response' now' :
  Redeem.redeemAngpao URL_v env link response now used
    = (Redeem.RedeemedOk amount tid, used') →
  Redeem.redeemAngpao URL_v env link response' now' used'
    = (Redeem.Refused Redeem.AlreadyUsed, used').
Proof.
  intros (h & Hen & Hh & Hnew & -> & _)%redeemAngpao_success.
  unfold Redeem.redeemAngpao, TrueMoney.isVoucherUsed.
  rewrite Hen, Hh. simpl.
  by rewrite bool_decide_eq_true_2 by by apply markVoucherUsed_records.
Qed.

Lemma redeemed_voucher_is_refused_afterwards_witness :
  let env := Redeem.mkEnv (Some "true") None (Some "key")
               (Some "0812345678") None None in
  let d := Redeem.mkData true false false false false
             (Some (Redeem.Amount (baht 50))) None None (Some "T1") None None
             None None None in
  Redeem.redeemAngpao (λ _, None) env (Some "ABCDEFGH")
      (Some (Redeem.mkResponse 200 (Some d))) 0 []
    = (Redeem.RedeemedOk (Redeem.Amount (baht 50)) "T1", ["ABCDEFGH"])
  ∧ Redeem.redeemAngpao (λ _, None) env (Some "ABCDEFGH")
      (Some (Redeem.mkResponse 200 (Some d))) 1 ["ABCDEFGH"]
    = (Redeem.Refused Redeem.AlreadyUsed, ["ABCDEFGH"]).
Proof.
  split; [vm_compute; reflexivity|].
  apply (redeemed_voucher_is_refused_afterwards (λ _, None) _ _
           (Some (Redeem.mkResponse 200
              (Some (Redeem.mkData true false false false false
                 (Some (Redeem.Amount (baht 50))) None None (Some "T1") None
                 None None None None))))
           0 [] (Redeem.Amount (baht 50)) "T1").
  vm_compute; reflexivity.
Defined.

(** X24 ([redeemAngpao]): when the function answers that the amount is
    below the minimum or above the maximum, the provider has already
    reported the voucher redeemed, and the function records nothing: the
    same link is sent to the provider again on the next call. *)
Theorem out_of_range_redemption_leaves_no_record
    URL_v env link response now used limit used' :
  Redeem.redeemAngpao URL_v env link response now used
    = (Redeem.Refused (Redeem.BelowMinimum limit), used')
  ∨ Redeem.redeemAngpao URL_v env link response now used
    = (Redeem.Refused (Redeem.AboveMaximum limit), used') →
  used' = used
  ∧ (∃ voucherHash,
       TrueMoney.extractVoucherHash URL_v link = Some voucherHash
       ∧ TrueMoney.isVoucherUsed voucherHash used' = false)
  ∧ ∃ d, response = Some (Redeem.mkResponse 200 (Some d))
         ∧ (Redeem.success_is_true d || Redeem.status_is_success d
            || Redeem.status_is_200 d || Redeem.code_is_200 d
            || Redeem.result_is_ok d) = true.
Proof.
  unfold Redeem.redeemAngpao, TrueMoney.isVoucherUsed.
  case_bool_decide as Hen; simpl; [|by intros [|]].
  destruct (TrueMoney.extractVoucherHash URL_v link) as [h|];
    [|by intros [|]].
  case_bool_decide as Hused; [by intros [|]|].
  destruct (Redeem.PROVIDERS _); try (by intros [|]);
    repeat (destruct (decide _); try (by intros [|]));
    destruct response as [[st [d|]]|]; simpl; try (by intros [|]);
    repeat (destruct (decide _); try (by intros [|])).
  subst st.
  destruct (_ || _) eqn:Hok; [|by intros [|]].
  destruct (Redeem.lt (default _ (Redeem.first_some _)) _) eqn:Hlo.
  - intros [[= <- <-]|[=]]. split; [done|]. split; [|by exists d].
    exists h. split; [done|]. by apply bool_decide_eq_false_2.
  - destruct (Redeem.lt _ (default _ (Redeem.first_some _))) eqn:Hhi;
      [|by intros [|]].
    intros [[=]|[= <- <-]]. split; [done|]. split; [|by exists d].
    exists h. split; [done|]. by apply bool_decide_eq_false_2.
Qed.

Lemma out_of_range_redemption_leaves_no_record_witness :
  let env := Redeem.mkEnv (Some "true") None (Some "key")
               (Some "0812345678") None None in
  let d := Redeem.mkData true false false false false
             (Some (Redeem.Amount (baht 5))) None None (Some "T1") None None
             None None None in
  Redeem.redeemAngpao (λ _, None) env (Some "ABCDEFGH")
      (Some (Redeem.mkResponse 200 (Some d))) 0 []
    = (Redeem.Refused (Redeem.BelowMinimum (Redeem.Amount (baht 10))), [])
  ∧ TrueMoney.isVoucherUsed "ABCDEFGH" [] = false.
Proof.
  split; [vm_compute; reflexivity|].
  destruct (out_of_range_redemption_leaves_no_record (λ _, None)
    (Redeem.mkEnv (Some "true") None (Some "key") (Some "0812345678")
       None None)
    (Some "ABCDEFGH")
    (Some (Redeem.mkResponse 200
       (Some (Redeem.mkData true false false false false
                (Some (Redeem.Amount (baht 5))) None None (Some "T1") None
                None None None None))))
    0 [] (Redeem.Amount (baht 10)) []
    ltac:(left; vm_compute; reflexivity))
    as (_ & (h & Hh & Hfree) & _).
  vm_compute in Hh. by injection Hh as <-.
Defined.

(** X25 ([redeemAngpao]): an amount that does not read as a number passes
    both limits: when the provider reports success with such an amount,
    the function reports a redemption whose amount is not a number, and
    records the voucher as used. *)
Theorem unreadable_amount_is_redeemed
    URL_v env link voucherHash name st d now used :
  Redeem.TRUEMONEY_ANGPAO_ENABLED env = Some "true" →
  TrueMoney.extractVoucherHash URL_v link = Some voucherHash →
  voucherHash ∉ used →
  Redeem.PROVIDERS (default "topup2p"
                      (Redeem.truthy (Redeem.TRUEMONEY_PROVIDER env)))
    = Redeem.Known name →
  Redeem.truthy (Redeem.TRUEMONEY_API_KEY env) ≠ None →
  Redeem.truthy (Redeem.TRUEMONEY_PHONE env) ≠ None →
  st = 200 →
  (Redeem.success_is_true d || Redeem.status_is_success d
   || Redeem.status_is_200 d || Redeem.code_is_200 d
   || Redeem.result_is_ok d) = true →
  Redeem.first_some [Redeem.data_amount d; Redeem.data_data_amount d;
                     Redeem.data_voucher_amount d] = Some Redeem.NaN →
  ∃ tid,
    Redeem.redeemAngpao URL_v env link
        (Some (Redeem.mkResponse st (Some d))) now used
      = (Redeem.RedeemedOk Redeem.NaN tid,
         TrueMoney.markVoucherUsed voucherHash used).
Proof.
  intros Hen Hh Hnew Hp Hkey Hphone -> Hok Hamount.
  unfold Redeem.redeemAngpao, TrueMoney.isVoucherUsed.
  rewrite Hen, Hh. simpl.
  rewrite bool_decide_eq_false_2 by done.
  rewrite Hp.
  rewrite (decide_False (P := Redeem.truthy (Redeem.TRUEMONEY_API_KEY env)
                              = None)) by done.
  rewrite (decide_False (P := Redeem.truthy (Redeem.TRUEMONEY_PHONE env)
                              = None)) by done.
  simpl. rewrite Hok, Hamount. simpl.
  assert (∀ b, Redeem.lt b Redeem.NaN = false) as -> by by intros [|].
  eauto.
Qed.

Lemma unreadable_amount_is_redeemed_witness :
  let env := Redeem.mkEnv (Some "true") None (Some "key")
               (Some "0812345678") None None in
  let d := Redeem.mkData true false false false false
             (Some Redeem.NaN) None None (Some "T1") None None
             None None None in
  ∃ tid,
    Redeem.redeemAngpao (λ _, None) env (Some "ABCDEFGH")
        (Some (Redeem.mkResponse 200 (Some d))) 0 []
      = (Redeem.RedeemedOk Redeem.NaN tid,
         TrueMoney.markVoucherUsed "ABCDEFGH" []).
Proof.
  apply (unreadable_amount_is_redeemed (λ _, None) _ _ "ABCDEFGH" "topup2p");
    try (vm_compute; reflexivity); try done.
  intros Hin. inversion Hin.
Defined.
